(** * A shallow embedding of the [blockchain] package

    The Go package [blockchain] (transaction.go, block.go, blockchain.go)
    is embedded function by function.  Go structs become records, one module
    per Go type so that fields and methods keep their Go names
    ([Block.Validate], [Transaction.Validate], [Blockchain.AddBlock], ...).

    - [int32]/[int64] values are [Z], [uint32]/[uint64] values are [N]; every
      arithmetic operation of the source is written with its wrap-around.
    - Go [string]s are byte strings: [string] of the standard library.
    - [map[string][]TxOutput] is a [gmap string (list TxOutput.t)].
    - [crypto/sha256] and [encoding/hex] are implemented (FIPS 180-4) so that
      every definition evaluates on concrete inputs.
    - [encoding/json] and [time.Now] are inputs of the model: the encoder is a
      section variable, the clock reading is an explicit argument.
    - A method with a pointer receiver that mutates it returns the new value;
      methods of [*Blockchain] pass the chain state explicitly.
    - The nonce search of [Block.Mine] is an unbounded loop: it takes a fuel
      argument and reports [OutOfFuel] when the fuel does not suffice.
    - [bc.blocks] holds pointers to blocks that [AddBlock] allocates one by
      one, never the same pointer twice: a list of block values.

    The file has four parts: the embedding, the vocabulary in which the
    properties are stated, data to run the model on, and the properties. *)

From Stdlib Require Import ZArith NArith List String Ascii Bool Lia DecimalString.
From Equations Require Import Equations.
From stdpp Require Import gmap strings.
Import ListNotations.

Local Open Scope string_scope.

(** ** Machine integers *)

Module Int.
(** Two's-complement wrap-around of a signed 64-bit result. *)
Definition wrap64 (z : Z) : Z := ((z + 2 ^ 63) mod 2 ^ 64 - 2 ^ 63)%Z.
Definition add64 (x y : Z) : Z := wrap64 (x + y).
Definition sub64 (x y : Z) : Z := wrap64 (x - y).
Definition in_int64 (z : Z) : Prop := (- 2 ^ 63 <= z < 2 ^ 63)%Z.

(** Unsigned wrap-around. *)
Definition incr_u32 (n : N) : N := ((n + 1) mod 2 ^ 32)%N.
Definition decr_u32 (n : N) : N := ((n + 2 ^ 32 - 1) mod 2 ^ 32)%N.
Definition incr_u64 (n : N) : N := ((n + 1) mod 2 ^ 64)%N.

(** [%d] of [fmt.Sprintf]: decimal digits, a leading [-] when negative. *)
Definition fmt_d (z : Z) : string := NilZero.string_of_int (Z.to_int z).
End Int.

(** ** [crypto/sha256] and [encoding/hex] *)

Module Sha256.
Local Open Scope N_scope.

(** Reduction modulo [2^32], as a mask. *)
Definition trunc32 (x : N) : N := N.land x 0xffffffff.
Definition add32 (x y : N) : N := trunc32 (x + y).
Definition rotr (n x : N) : N :=
  N.lor (N.shiftr x n) (trunc32 (N.shiftl x (32 - n))).
Definition Ch (x y z : N) : N := N.lxor (N.land x y) (N.ldiff z x).
Definition Maj (x y z : N) : N :=
  N.lxor (N.lxor (N.land x y) (N.land x z)) (N.land y z).
Definition bsig0 (x : N) : N := N.lxor (N.lxor (rotr 2 x) (rotr 13 x)) (rotr 22 x).
Definition bsig1 (x : N) : N := N.lxor (N.lxor (rotr 6 x) (rotr 11 x)) (rotr 25 x).
Definition ssig0 (x : N) : N := N.lxor (N.lxor (rotr 7 x) (rotr 18 x)) (N.shiftr x 3).
Definition ssig1 (x : N) : N := N.lxor (N.lxor (rotr 17 x) (rotr 19 x)) (N.shiftr x 10).

(** The constants are given by their definition in the standard: the first
    32 bits of the fractional parts of the cube roots (round constants) and
    of the square roots (initial hash value) of the first primes. *)
Definition is_prime (n : nat) : bool :=
  forallb (fun d => negb (n mod d =? 0)%nat) (seq 2 (n - 2)).

Definition primes (count : nat) : list N :=
  map N.of_nat (firstn count (List.filter is_prime (seq 2 310))).

(** The largest [r] below [2 ^ bits] with [r ^ k <= n], found bit by bit. *)
Fixpoint root (k n : N) (bits : nat) (r : N) : N :=
  match bits with
  | O => r
  | S bits' =>
      let r' := r + 2 ^ N.of_nat bits' in
      root k n bits' (if r' ^ k <=? n then r' else r)
  end.

Definition frac_root (k p : N) : N := trunc32 (root k (p * 2 ^ (32 * k)) 36 0).

Definition K : list N := Eval vm_compute in map (frac_root 3) (primes 64).

(** The eight working variables. *)
Record regs := Regs { ra : N; rb : N; rc : N; rd : N; re : N; rf : N; rg : N; rh : N }.

Definition init : regs :=
  Eval vm_compute in
    let h := fun i => frac_root 2 (nth i (primes 8) 0) in
    Regs (h 0%nat) (h 1%nat) (h 2%nat) (h 3%nat) (h 4%nat) (h 5%nat) (h 6%nat) (h 7%nat).

Definition round (k w : N) (s : regs) : regs :=
  let t1 := add32 (add32 (add32 (add32 (rh s) (bsig1 (re s))) (Ch (re s) (rf s) (rg s))) k) w in
  let t2 := add32 (bsig0 (ra s)) (Maj (ra s) (rb s) (rc s)) in
  Regs (add32 t1 t2) (ra s) (rb s) (rc s) (add32 (rd s) t1) (re s) (rf s) (rg s).

(** The message schedule is kept as a window of the last sixteen words. *)
Definition slide (w : list N) : list N :=
  let x := add32 (add32 (add32 (ssig1 (nth 14 w 0)) (nth 9 w 0)) (ssig0 (nth 1 w 0))) (nth 0 w 0) in
  tl w ++ [x].

Fixpoint rounds (ks : list N) (w : list N) (s : regs) : regs :=
  match ks with
  | [] => s
  | k :: ks' => rounds ks' (slide w) (round k (nth 0 w 0) s)
  end.

Definition compress (s : regs) (block : list N) : regs :=
  let s' := rounds K block s in
  Regs (add32 (ra s) (ra s')) (add32 (rb s) (rb s')) (add32 (rc s) (rc s'))
       (add32 (rd s) (rd s')) (add32 (re s) (re s')) (add32 (rf s) (rf s'))
       (add32 (rg s) (rg s')) (add32 (rh s) (rh s')).

Fixpoint be_words (bs : list N) : list N :=
  match bs with
  | a :: b :: c :: d :: rest =>
      N.lor (N.shiftl a 24) (N.lor (N.shiftl b 16) (N.lor (N.shiftl c 8) d)) :: be_words rest
  | _ => []
  end.

Definition be_bytes (width : nat) (x : N) : list N :=
  map (fun i => N.land (N.shiftr x (8 * N.of_nat i)) 0xff) (rev (seq 0 width)).

Definition pad (msg : list N) : list N :=
  let len := List.length msg in
  msg ++ [0x80] ++ repeat 0 ((119 - len mod 64) mod 64)%nat
      ++ be_bytes 8 (8 * N.of_nat len).

Fixpoint absorb (fuel : nat) (ws : list N) (s : regs) : regs :=
  match fuel, ws with
  | S fuel', _ :: _ => absorb fuel' (skipn 16 ws) (compress s (firstn 16 ws))
  | _, _ => s
  end.

Definition digest (s : regs) : list N :=
  be_bytes 4 (ra s) ++ be_bytes 4 (rb s) ++ be_bytes 4 (rc s) ++ be_bytes 4 (rd s) ++
  be_bytes 4 (re s) ++ be_bytes 4 (rf s) ++ be_bytes 4 (rg s) ++ be_bytes 4 (rh s).

(** [sha256.Sum256]: the 32 bytes of the digest. *)
Definition Sum256 (data : list N) : list N :=
  let ws := be_words (pad data) in
  digest (absorb (List.length ws) ws init).
End Sha256.

Module Hex.
Definition digit (n : N) : ascii :=
  match n with
  | 0%N => "0" | 1%N => "1" | 2%N => "2" | 3%N => "3" | 4%N => "4" | 5%N => "5"
  | 6%N => "6" | 7%N => "7" | 8%N => "8" | 9%N => "9" | 10%N => "a" | 11%N => "b"
  | 12%N => "c" | 13%N => "d" | 14%N => "e" | _ => "f"
  end%char.

(** [hex.EncodeToString] *)
Fixpoint EncodeToString (bs : list N) : string :=
  match bs with
  | [] => EmptyString
  | b :: rest =>
      String (digit (N.shiftr b 4)) (String (digit (N.land b 15)) (EncodeToString rest))
  end.
End Hex.

(** [[]byte(s)] *)
Definition bytes_of_string (s : string) : list N := map N_of_ascii (list_ascii_of_string s).

(** [hex.EncodeToString(h[:])] for [h := sha256.Sum256([]byte(s))]. *)
Definition sha256_hex (s : string) : string :=
  Hex.EncodeToString (Sha256.Sum256 (bytes_of_string s)).

Arguments sha256_hex : simpl never.

(** ** Outcomes and errors *)

(** What a call does: it returns, it panics (a Go runtime panic), or the
    fuel given to an unbounded loop ran out before the loop ended. *)
Inductive outcome (A : Type) : Type :=
| Returns (a : A)
| Panics
| OutOfFuel.
Arguments Returns {A} a.
Arguments Panics {A}.
Arguments OutOfFuel {A}.

(** The errors built by [Transaction.Validate]. *)
Inductive TxError : Type :=
| InvalidTransactionID
| CoinbaseOutputCount
| NoInputs
| NoOutputs
| NonPositiveOutput.

(** The errors built by [Block.Validate]. *)
Inductive BlockError : Type :=
| InvalidBlockHash
| InvalidPreviousHash
| InvalidBlockHeight
| InvalidMerkleRoot
| NoTransactions
| FirstNotCoinbase
| InvalidTransaction (err : TxError)
| CoinbaseCount.

(** The error built by [Blockchain.validateTransactions]. *)
Inductive InputError : Type :=
| InvalidInput (txID : string).

(** The errors built by the exported methods of [Blockchain]. *)
Inductive ChainError : Type :=
| BlockValidationFailed (err : BlockError)
| TransactionValidationFailed (err : InputError)
| InsufficientFunds
| BlockInvalidAt (i : nat) (err : BlockError).

(** [err.Error()]: the message each error carries in the source. *)
Definition TxError_Error (e : TxError) : string :=
  match e with
  | InvalidTransactionID => "invalid transaction ID"
  | CoinbaseOutputCount => "coinbase transaction must have exactly one output"
  | NoInputs => "transaction must have at least one input"
  | NoOutputs => "transaction must have at least one output"
  | NonPositiveOutput => "output value must be positive"
  end.

Definition BlockError_Error (e : BlockError) : string :=
  match e with
  | InvalidBlockHash => "invalid block hash"
  | InvalidPreviousHash => "invalid previous hash"
  | InvalidBlockHeight => "invalid block height"
  | InvalidMerkleRoot => "invalid merkle root"
  | NoTransactions => "block must contain at least one transaction"
  | FirstNotCoinbase => "first transaction must be coinbase"
  | InvalidTransaction err => "invalid transaction: " ++ TxError_Error err
  | CoinbaseCount => "block must contain exactly one coinbase transaction"
  end.

Definition InputError_Error (e : InputError) : string :=
  match e with
  | InvalidInput txID => "invalid input in transaction " ++ txID
  end.

Definition ChainError_Error (e : ChainError) : string :=
  match e with
  | BlockValidationFailed err => "block validation failed: " ++ BlockError_Error err
  | TransactionValidationFailed err =>
      "transaction validation failed: " ++ InputError_Error err
  | InsufficientFunds => "insufficient funds"
  | BlockInvalidAt i err =>
      "block " ++ Int.fmt_d (Z.of_nat i) ++ " validation failed: " ++ BlockError_Error err
  end.

(** ** transaction.go *)

Module TxInput.
Record t : Type := mk
  { TxID : string; OutputIndex : Z; PublicKey : string; Signature : string }.
End TxInput.

Module TxOutput.
Record t : Type := mk { Value : Z; Address : string }.
End TxOutput.

Module Transaction.
Record t : Type := mk
  { ID : string;
    Inputs : list TxInput.t;
    Outputs : list TxOutput.t;
    Timestamp : Z;
    Signature : string }.

Definition with_ID (id : string) (tx : t) : t :=
  mk id (Inputs tx) (Outputs tx) (Timestamp tx) (Signature tx).

Section Methods.
(** [json.Marshal] on a [Transaction] (its error is discarded by the
    source).  A nil and an empty slice are both the empty list here; the
    methods below only take their [len] and range over them. *)
Variable json_Marshal : t -> string.

Definition calculateID (tx : t) : string :=
  let txCopy := mk "" (Inputs tx) (Outputs tx) (Timestamp tx) (Signature tx) in
  sha256_hex (json_Marshal txCopy).

(** [now] is the value of [time.Now().Unix()]. *)
Definition NewTransaction (now : Z) (inputs : list TxInput.t)
    (outputs : list TxOutput.t) : t :=
  let tx := mk "" inputs outputs now "" in
  with_ID (calculateID tx) tx.

Definition NewCoinbaseTransaction (now : Z) (toAddress : string) (reward : Z) : t :=
  let txOut := TxOutput.mk reward toAddress in
  let tx := mk "" [] [txOut] now "" in
  with_ID (calculateID tx) tx.

Definition IsCoinbase (tx : t) : bool := (List.length (Inputs tx) =? 0)%nat.

Definition GetTotalOutput (tx : t) : Z :=
  fold_left (fun total output => Int.add64 total (TxOutput.Value output)) (Outputs tx) 0%Z.

(** The loop over the outputs of a non-coinbase transaction. *)
Fixpoint checkOutputs (outputs : list TxOutput.t) : option TxError :=
  match outputs with
  | [] => None
  | output :: rest =>
      if (TxOutput.Value output <=? 0)%Z then Some NonPositiveOutput
      else checkOutputs rest
  end.

Definition Validate (tx : t) : option TxError :=
  let expectedID := calculateID tx in
  if negb (String.eqb (ID tx) expectedID) then Some InvalidTransactionID
  else if IsCoinbase tx then
    if negb (List.length (Outputs tx) =? 1)%nat then Some CoinbaseOutputCount
    else None
  else if (List.length (Inputs tx) =? 0)%nat then Some NoInputs
  else if (List.length (Outputs tx) =? 0)%nat then Some NoOutputs
  else checkOutputs (Outputs tx).
End Methods.
End Transaction.

(** ** block.go *)

Module BlockHeader.
Record t : Type := mk
  { Version : Z;
    PreviousHash : string;
    MerkleRoot : string;
    Timestamp : Z;
    Difficulty : N;
    Nonce : N;
    Hash : string;
    Height : Z }.

Definition with_MerkleRoot (r : string) (h : t) : t :=
  mk (Version h) (PreviousHash h) r (Timestamp h) (Difficulty h) (Nonce h) (Hash h) (Height h).
Definition with_Difficulty (d : N) (h : t) : t :=
  mk (Version h) (PreviousHash h) (MerkleRoot h) (Timestamp h) d (Nonce h) (Hash h) (Height h).
Definition with_Nonce (n : N) (h : t) : t :=
  mk (Version h) (PreviousHash h) (MerkleRoot h) (Timestamp h) (Difficulty h) n (Hash h) (Height h).
Definition with_Hash (x : string) (h : t) : t :=
  mk (Version h) (PreviousHash h) (MerkleRoot h) (Timestamp h) (Difficulty h) (Nonce h) x (Height h).
Definition with_PreviousHash (x : string) (h : t) : t :=
  mk (Version h) x (MerkleRoot h) (Timestamp h) (Difficulty h) (Nonce h) (Hash h) (Height h).
Definition with_Height (x : Z) (h : t) : t :=
  mk (Version h) (PreviousHash h) (MerkleRoot h) (Timestamp h) (Difficulty h) (Nonce h) (Hash h) x.
End BlockHeader.

Module Block.
Import BlockHeader.

Record t : Type := mk { Header : BlockHeader.t; Transactions : list Transaction.t }.

Definition with_Header (f : BlockHeader.t -> BlockHeader.t) (b : t) : t :=
  mk (f (Header b)) (Transactions b).

Definition calculateHash (b : t) : string :=
  let headerData :=
    Int.fmt_d (Version (Header b)) ++ PreviousHash (Header b) ++ MerkleRoot (Header b)
    ++ Int.fmt_d (Timestamp (Header b)) ++ Int.fmt_d (Z.of_N (Difficulty (Header b)))
    ++ Int.fmt_d (Z.of_N (Nonce (Header b))) ++ Int.fmt_d (Height (Header b)) in
  sha256_hex headerData.

(** The loop [for i := 0; i < len(hashes); i += 2] of [buildMerkleTree];
    [nth i hashes ""] is [hashes[i]], read only under the loop guard. *)
Equations? levelLoop (hashes : list string) (i : nat) (newLevel : list string)
    : list string by wf (List.length hashes - i)%nat lt :=
  levelLoop hashes i newLevel with lt_dec i (List.length hashes) := {
    | left _ =>
        let combined :=
          if (i + 1 <? List.length hashes)%nat
          then nth i hashes "" ++ nth (i + 1) hashes ""
          else nth i hashes "" ++ nth i hashes "" in
        levelLoop hashes (i + 2) (newLevel ++ [sha256_hex combined])%list;
    | right _ => newLevel }.
Proof. lia. Qed.

(** Each turn of the loop consumes two entries (one at an odd end) and
    produces one, which is what makes [buildMerkleTree] terminate. *)
Lemma levelLoop_length hashes i newLevel :
  List.length (levelLoop hashes i newLevel)
  = (List.length newLevel + Nat.div2 (List.length hashes - i + 1))%nat.
Proof.
  funelim (levelLoop hashes i newLevel).
  - rewrite H, length_app. change (List.length [?[x]]) with 1%nat.
    destruct (List.length hashes - i)%nat as [|[|k]] eqn:E; [lia| |].
    + replace (List.length hashes - (i + 2))%nat with 0%nat by lia. simpl. lia.
    + replace (List.length hashes - (i + 2))%nat with k by lia.
      replace (S (S k) + 1)%nat with (S (S (k + 1))) by lia. simpl. lia.
  - replace (List.length hashes - i)%nat with 0%nat by lia. simpl. lia.
Qed.

Equations? buildMerkleTree (hashes : list string) : string
    by wf (List.length hashes) lt :=
  buildMerkleTree [] := "";
  buildMerkleTree [h] := h;
  buildMerkleTree hashes := buildMerkleTree (levelLoop hashes 0 []).
Proof.
  rewrite levelLoop_length. simpl List.length. rewrite Nat.sub_0_r.
  replace (S (S (List.length l)) + 1)%nat with (S (S (List.length l + 1))) by lia.
  cbn [Nat.div2 Nat.add]. pose proof (Nat.le_div2 (List.length l + 1)). 
  destruct (List.length l + 1)%nat eqn:E; [lia|].
  pose proof (Nat.lt_div2 (S n)). lia.
Qed.

Definition calculateMerkleRoot (b : t) : string :=
  if (List.length (Transactions b) =? 0)%nat then ""
  else
    let txHashes := map Transaction.ID (Transactions b) in
    buildMerkleTree txHashes.

(** [now] is the value of [time.Now().Unix()]. *)
Definition NewBlock (now : Z) (transactions : list Transaction.t)
    (previousHash : string) (height : Z) : t :=
  let block := mk (BlockHeader.mk 1 previousHash "" now 0 0 "" height) transactions in
  with_Header (with_MerkleRoot (calculateMerkleRoot block)) block.

Definition SetHash (hash : string) (b : t) : t := with_Header (with_Hash hash) b.

Definition getTarget (difficulty : N) : string :=
  N.iter difficulty (fun target => target ++ "0") "".

(** [hash[:len(target)] == target]; slicing past the end of [hash] panics. *)
Definition isHashValid (hash target : string) : outcome bool :=
  if (String.length target <=? String.length hash)%nat
  then Returns (String.eqb (substring 0 (String.length target) hash) target)
  else Panics.

(** The [for] loop of [Mine], one turn per unit of fuel.  The line printed
    when a hash is found is output only and is left out. *)
Fixpoint mineLoop (fuel : nat) (target : string) (b : t) : outcome t :=
  match fuel with
  | O => OutOfFuel
  | S fuel' =>
      let b := with_Header (fun h => with_Nonce (Int.incr_u64 (Nonce h)) h) b in
      let hash := calculateHash b in
      match isHashValid hash target with
      | Returns true => Returns (with_Header (with_Hash hash) b)
      | Returns false => mineLoop fuel' target b
      | Panics => Panics
      | OutOfFuel => OutOfFuel
      end
  end.

Definition Mine (fuel : nat) (difficulty : N) (b : t) : outcome t :=
  let b := with_Header (with_Difficulty difficulty) b in
  let target := getTarget difficulty in
  mineLoop fuel target b.

Section Methods.
Variable json_Marshal : Transaction.t -> string.

Definition NewGenesisBlock (now_tx now : Z) : t :=
  let coinbase :=
    Transaction.NewCoinbaseTransaction json_Marshal now_tx "genesis" 5000000000 in
  let genesis :=
    mk (BlockHeader.mk 1
          "0000000000000000000000000000000000000000000000000000000000000000"
          "" now 1 0 "" 0)
       [coinbase] in
  let genesis := with_Header (with_MerkleRoot (calculateMerkleRoot genesis)) genesis in
  with_Header (with_Hash (calculateHash genesis)) genesis.

(** The loop over the transactions at the end of [Validate].  The count
    is a Go [int] bounded by the length of the slice, so it cannot wrap. *)
Fixpoint validateLoop (txs : list Transaction.t) (coinbaseCount : Z)
    : BlockError + Z :=
  match txs with
  | [] => inr coinbaseCount
  | tx :: rest =>
      let coinbaseCount :=
        if Transaction.IsCoinbase tx then (coinbaseCount + 1)%Z else coinbaseCount in
      match Transaction.Validate json_Marshal tx with
      | Some err => inl (InvalidTransaction err)
      | None => validateLoop rest coinbaseCount
      end
  end.

(** The two checks made when [previousBlock != nil]. *)
Definition checkLinkage (b : t) (previousBlock : option t) : option BlockError :=
  match previousBlock with
  | Some p =>
      if negb (String.eqb (PreviousHash (Header b)) (Hash (Header p)))
      then Some InvalidPreviousHash
      else if negb (Height (Header b) =? Int.add64 (Height (Header p)) 1)%Z
      then Some InvalidBlockHeight
      else None
  | None => None
  end.

Definition Validate (b : t) (previousBlock : option t) : option BlockError :=
  let expectedHash := calculateHash b in
  if negb (String.eqb (Hash (Header b)) expectedHash) then Some InvalidBlockHash
  else
    match checkLinkage b previousBlock with
    | Some err => Some err
    | None =>
        let expectedMerkleRoot := calculateMerkleRoot b in
        if negb (String.eqb (MerkleRoot (Header b)) expectedMerkleRoot)
        then Some InvalidMerkleRoot
        else
          match Transactions b with
          | [] => Some NoTransactions
          | first :: _ =>
              if negb (Transaction.IsCoinbase first) then Some FirstNotCoinbase
              else
                match validateLoop (Transactions b) 0 with
                | inl err => Some err
                | inr coinbaseCount =>
                    if negb (coinbaseCount =? 1)%Z then Some CoinbaseCount
                    else None
                end
          end
    end.
End Methods.
End Block.

(** The errors built by the lookups of [Blockchain]. *)
Inductive LookupError : Type :=
| HeightOutOfRange
| BlockNotFound
| TransactionNotFound.

Definition LookupError_Error (e : LookupError) : string :=
  match e with
  | HeightOutOfRange => "block height out of range"
  | BlockNotFound => "block not found"
  | TransactionNotFound => "transaction not found"
  end.

(** ** blockchain.go *)

Module Blockchain.
(** The [mutex] field is left out: calls are modelled one at a time. *)
Record t : Type := mk
  { blocks : list Block.t;
    difficulty : N;
    utxoSet : gmap string (list TxOutput.t) }.

Definition with_blocks (x : list Block.t) (bc : t) : t := mk x (difficulty bc) (utxoSet bc).
Definition with_difficulty (x : N) (bc : t) : t := mk (blocks bc) x (utxoSet bc).
Definition with_utxoSet (x : gmap string (list TxOutput.t)) (bc : t) : t :=
  mk (blocks bc) (difficulty bc) x.

(** [m[k]] on a Go map: the zero value (a nil slice) when [k] is absent. *)
Definition index (m : gmap string (list TxOutput.t)) (k : string) : list TxOutput.t :=
  default [] (m !! k).

(** Body of the loop over the inputs in [updateUTXOSet]. *)
Definition spendInput (utxoSet : gmap string (list TxOutput.t)) (input : TxInput.t)
    : gmap string (list TxOutput.t) :=
  match utxoSet !! TxInput.PublicKey input with
  | Some outputs =>
      if (0 <? List.length outputs)%nat then
        let utxoSet := <[TxInput.PublicKey input := skipn 1 outputs]> utxoSet in
        if (List.length (index utxoSet (TxInput.PublicKey input)) =? 0)%nat
        then delete (TxInput.PublicKey input) utxoSet
        else utxoSet
      else utxoSet
  | None => utxoSet
  end.

(** Body of the loop over the outputs in [updateUTXOSet]. *)
Definition addOutput (utxoSet : gmap string (list TxOutput.t)) (output : TxOutput.t)
    : gmap string (list TxOutput.t) :=
  <[TxOutput.Address output := (index utxoSet (TxOutput.Address output) ++ [output])%list]> utxoSet.

Definition applyTransaction (utxoSet : gmap string (list TxOutput.t)) (tx : Transaction.t)
    : gmap string (list TxOutput.t) :=
  let utxoSet :=
    if negb (Transaction.IsCoinbase tx)
    then fold_left spendInput (Transaction.Inputs tx) utxoSet
    else utxoSet in
  fold_left addOutput (Transaction.Outputs tx) utxoSet.

Definition updateUTXOSet (block : Block.t) (bc : t) : t :=
  with_utxoSet (fold_left applyTransaction (Block.Transactions block) (utxoSet bc)) bc.

Definition adjustDifficulty (bc : t) : t :=
  if (List.length (blocks bc) <? 2)%nat then bc
  else
    match blocks bc !! (List.length (blocks bc) - 1)%nat,
          blocks bc !! (List.length (blocks bc) - 2)%nat with
    | Some lastBlock, Some prevBlock =>
        let timeDiff :=
          Int.sub64 (BlockHeader.Timestamp (Block.Header lastBlock))
                    (BlockHeader.Timestamp (Block.Header prevBlock)) in
        if (timeDiff <? 30)%Z then with_difficulty (Int.incr_u32 (difficulty bc)) bc
        else if (60 <? timeDiff)%Z && (1 <? difficulty bc)%N
        then with_difficulty (Int.decr_u32 (difficulty bc)) bc
        else bc
    | _, _ => bc (* not reached: both indices are in range here *)
    end.

Definition isValidInput (bc : t) (input : TxInput.t) : bool := true.

(** The inner loop of [validateTransactions]. *)
Fixpoint checkInputs (bc : t) (txID : string) (inputs : list TxInput.t)
    : option InputError :=
  match inputs with
  | [] => None
  | input :: rest =>
      if negb (isValidInput bc input) then Some (InvalidInput txID)
      else checkInputs bc txID rest
  end.

(** The outer loop of [validateTransactions], [i] being the index of the
    transaction at the head of [txs]. *)
Fixpoint validateTransactionsFrom (bc : t) (i : nat) (txs : list Transaction.t)
    : option InputError :=
  match txs with
  | [] => None
  | tx :: rest =>
      if (i =? 0)%nat then validateTransactionsFrom bc (S i) rest
      else
        match checkInputs bc (Transaction.ID tx) (Transaction.Inputs tx) with
        | Some err => Some err
        | None => validateTransactionsFrom bc (S i) rest
        end
  end.

Definition validateTransactions (bc : t) (block : Block.t) : option InputError :=
  validateTransactionsFrom bc 0 (Block.Transactions block).

Definition GetBalance (bc : t) (address : string) : Z :=
  match utxoSet bc !! address with
  | Some outputs =>
      fold_left (fun balance output => Int.add64 balance (TxOutput.Value output)) outputs 0%Z
  | None => 0%Z
  end.

Definition FindUTXO (bc : t) (address : string) : list TxOutput.t :=
  match utxoSet bc !! address with
  | Some outputs => outputs
  | None => []
  end.

(** [nil] when the chain has no block. *)
Definition GetLatestBlock (bc : t) : option Block.t :=
  if (List.length (blocks bc) =? 0)%nat then None
  else blocks bc !! (List.length (blocks bc) - 1)%nat.

(** Returns the pair (block pointer, error) of the source; indexing the
    slice out of its range would panic. *)
Definition GetBlock (bc : t) (height : Z) : outcome (option Block.t * option LookupError) :=
  if (height <? 0)%Z || (Z.of_nat (List.length (blocks bc)) <=? height)%Z
  then Returns (None, Some HeightOutOfRange)
  else
    match blocks bc !! Z.to_nat height with
    | Some block => Returns (Some block, None)
    | None => Panics
    end.

(** The loop of [GetBlockByHash]. *)
Fixpoint findBlock (hash : string) (blocks : list Block.t) : option Block.t :=
  match blocks with
  | [] => None
  | block :: rest =>
      if String.eqb (BlockHeader.Hash (Block.Header block)) hash then Some block
      else findBlock hash rest
  end.

Definition GetBlockByHash (bc : t) (hash : string) : option Block.t * option LookupError :=
  match findBlock hash (blocks bc) with
  | Some block => (Some block, None)
  | None => (None, Some BlockNotFound)
  end.

Definition GetHeight (bc : t) : Z := (Z.of_nat (List.length (blocks bc)) - 1)%Z.

Definition GetDifficulty (bc : t) : N := difficulty bc.

(** A copy of the slice of block pointers. *)
Definition GetAllBlocks (bc : t) : list Block.t := blocks bc.

(** The inner loop of [GetTransactionByID]. *)
Fixpoint findTransaction (txID : string) (txs : list Transaction.t) : option Transaction.t :=
  match txs with
  | [] => None
  | tx :: rest =>
      if String.eqb (Transaction.ID tx) txID then Some tx
      else findTransaction txID rest
  end.

(** The outer loop of [GetTransactionByID]. *)
Fixpoint findTransactionIn (txID : string) (blocks : list Block.t) : option Transaction.t :=
  match blocks with
  | [] => None
  | block :: rest =>
      match findTransaction txID (Block.Transactions block) with
      | Some tx => Some tx
      | None => findTransactionIn txID rest
      end
  end.

Definition GetTransactionByID (bc : t) (txID : string)
    : option Transaction.t * option LookupError :=
  match findTransactionIn txID (blocks bc) with
  | Some tx => (Some tx, None)
  | None => (None, Some TransactionNotFound)
  end.

(** The accumulation loop of [CreateTransaction]; the first branch of the
    conditional is its [break]. *)
Fixpoint collectInputs (from : string) (amount : Z) (utxos : list TxOutput.t)
    (totalInput : Z) (inputs : list TxInput.t) : Z * list TxInput.t :=
  match utxos with
  | [] => (totalInput, inputs)
  | utxo :: rest =>
      if (amount <=? totalInput)%Z then (totalInput, inputs)
      else
        let input := TxInput.mk "" 0 from "" in
        collectInputs from amount rest
          (Int.add64 totalInput (TxOutput.Value utxo)) (inputs ++ [input])%list
  end.

Section Methods.
Variable json_Marshal : Transaction.t -> string.

Definition NewBlockchain (now_tx now : Z) : t :=
  let genesis := Block.NewGenesisBlock json_Marshal now_tx now in
  let bc := mk [genesis] 4 ∅ in
  updateUTXOSet genesis bc.

(** [fuel] bounds the nonce search, [now] is the clock reading taken by
    [NewBlock].  The result pairs the returned error with the chain state
    the call leaves behind. *)
Definition AddBlock (fuel : nat) (now : Z) (transactions : list Transaction.t) (bc : t)
    : outcome (option ChainError * t) :=
  match blocks bc !! (List.length (blocks bc) - 1)%nat with
  | None => Panics
  | Some lastBlock =>
      let newBlock :=
        Block.NewBlock now transactions
          (BlockHeader.Hash (Block.Header lastBlock))
          (Int.add64 (BlockHeader.Height (Block.Header lastBlock)) 1) in
      match Block.Mine fuel (difficulty bc) newBlock with
      | Panics => Panics
      | OutOfFuel => OutOfFuel
      | Returns newBlock =>
          match Block.Validate json_Marshal newBlock (Some lastBlock) with
          | Some err => Returns (Some (BlockValidationFailed err), bc)
          | None =>
              match validateTransactions bc newBlock with
              | Some err => Returns (Some (TransactionValidationFailed err), bc)
              | None =>
                  let bc := with_blocks (blocks bc ++ [newBlock])%list bc in
                  let bc := updateUTXOSet newBlock bc in
                  let bc :=
                    if (Z.rem (BlockHeader.Height (Block.Header newBlock)) 10 =? 0)%Z
                    then adjustDifficulty bc
                    else bc in
                  Returns (None, bc)
              end
          end
      end
  end.

(** The loop [for i := 1; i < len(bc.blocks); i++] of [ValidateChain],
    with [remaining] turns left. *)
Fixpoint validateFrom (blocks : list Block.t) (i remaining : nat)
    : outcome (option ChainError) :=
  match remaining with
  | O => Returns None
  | S remaining' =>
      match blocks !! i, blocks !! (i - 1)%nat with
      | Some currentBlock, Some previousBlock =>
          match Block.Validate json_Marshal currentBlock (Some previousBlock) with
          | Some err => Returns (Some (BlockInvalidAt i err))
          | None => validateFrom blocks (S i) remaining'
          end
      | _, _ => Panics
      end
  end.

Definition ValidateChain (bc : t) : outcome (option ChainError) :=
  validateFrom (blocks bc) 1 (List.length (blocks bc) - 1).

(** Returns the pair (transaction pointer, error) of the source together
    with the chain state after the call. *)
Definition CreateTransaction (now : Z) (from to : string) (amount : Z) (bc : t)
    : (option Transaction.t * option ChainError) * t :=
  let utxos := FindUTXO bc from in
  let '(totalInput, inputs) := collectInputs from amount utxos 0 [] in
  if (totalInput <? amount)%Z then ((None, Some InsufficientFunds), bc)
  else
    let outputs := [TxOutput.mk amount to] in
    let outputs :=
      if (amount <? totalInput)%Z then
        let change := Int.sub64 totalInput amount in
        (outputs ++ [TxOutput.mk change from])%list
      else outputs in
    let transaction := Transaction.NewTransaction json_Marshal now inputs outputs in
    ((Some transaction, None), bc).
End Methods.
End Blockchain.

(** * The vocabulary of the properties

    Definitions used to state the properties: the failure kinds and the
    checks of the specification, the pairing of the merkle builder in the
    words of the specification, and a few abbreviations. *)

(** [n] copies of the digit zero. *)
Fixpoint zeros (n : nat) : string :=
  match n with
  | O => ""
  | S n' => String "0" (zeros n')
  end.

(** One level of the tree in the words of the specification: adjacent
    leaves are paired left to right and each pair is hashed; a last leaf
    without a partner is paired with itself. *)
Fixpoint spec_pair_level (leaves : list string) : list string :=
  match leaves with
  | [] => []
  | [x] => [sha256_hex (x ++ x)]
  | x :: y :: rest => sha256_hex (x ++ y) :: spec_pair_level rest
  end.

(** The failure kinds of the specification that [Block.Validate] reports. *)
Inductive ErrorKind : Type :=
| HashMismatch
| ChainLinkageError
| MerkleMismatch
| EmptyBlock
| MissingCoinbase
| TransactionInvalid
| MultipleCoinbase.

(** Which kind each error of the source stands for. *)
Definition BlockError_kind (e : BlockError) : ErrorKind :=
  match e with
  | InvalidBlockHash => HashMismatch
  | InvalidPreviousHash => ChainLinkageError
  | InvalidBlockHeight => ChainLinkageError
  | InvalidMerkleRoot => MerkleMismatch
  | NoTransactions => EmptyBlock
  | FirstNotCoinbase => MissingCoinbase
  | InvalidTransaction _ => TransactionInvalid
  | CoinbaseCount => MultipleCoinbase
  end.

(** The first check that does not hold, in a list of checks with the kind
    each one reports. *)
Fixpoint first_failure (checks : list (bool * ErrorKind)) : option ErrorKind :=
  match checks with
  | [] => None
  | (holds, kind) :: rest => if holds then first_failure rest else Some kind
  end.

Section Vocabulary.
Variable json_Marshal : Transaction.t -> string.

Import BlockHeader.

(** The conditions of the specification, in its order. *)
Definition spec_checks (b : Block.t) (p : option Block.t) : list (bool * ErrorKind) :=
  let h := Block.Header b in
  let txs := Block.Transactions b in
  [ (String.eqb (Hash h) (Block.calculateHash b), HashMismatch);
    (match p with
     | Some p =>
         String.eqb (PreviousHash h) (Hash (Block.Header p))
         && (Height h =? Int.add64 (Height (Block.Header p)) 1)%Z
     | None => true
     end, ChainLinkageError);
    (String.eqb (MerkleRoot h) (Block.calculateMerkleRoot b), MerkleMismatch);
    (negb (List.length txs =? 0)%nat, EmptyBlock);
    (match txs with first :: _ => Transaction.IsCoinbase first | [] => false end,
     MissingCoinbase);
    (forallb (fun tx => bool_decide (Transaction.Validate json_Marshal tx = None)) txs,
     TransactionInvalid);
    ((List.length (List.filter Transaction.IsCoinbase txs) =? 1)%nat, MultipleCoinbase) ].

(** The same conditions as propositions. *)
Definition spec_valid (b : Block.t) (p : option Block.t) : Prop :=
  let h := Block.Header b in
  let txs := Block.Transactions b in
  Hash h = Block.calculateHash b
  /\ (forall p', p = Some p' ->
        PreviousHash h = Hash (Block.Header p')
        /\ Height h = Int.add64 (Height (Block.Header p')) 1)
  /\ MerkleRoot h = Block.calculateMerkleRoot b
  /\ txs <> []
  /\ (exists first rest, txs = first :: rest /\ Transaction.IsCoinbase first = true)
  /\ (forall tx, In tx txs -> Transaction.Validate json_Marshal tx = None)
  /\ List.length (List.filter Transaction.IsCoinbase txs) = 1%nat.

(** A transaction list a block can carry: a coinbase first, no other
    coinbase, every transaction valid on its own. *)
Definition well_formed (txs : list Transaction.t) : Prop :=
  exists first rest,
    txs = first :: rest
    /\ Transaction.IsCoinbase first = true
    /\ (forall tx, In tx rest -> Transaction.IsCoinbase tx = false)
    /\ (forall tx, In tx txs -> Transaction.Validate json_Marshal tx = None).

(** The block at index [j] passes [Validate] against the one before it. *)
Definition valid_at (blocks : list Block.t) (j : nat) : Prop :=
  exists currentBlock previousBlock,
    blocks !! j = Some currentBlock
    /\ blocks !! (j - 1)%nat = Some previousBlock
    /\ Block.Validate json_Marshal currentBlock (Some previousBlock) = None.

End Vocabulary.

(** The sum of the values of a bucket, as a mathematical integer. *)
Definition sum_values (utxos : list TxOutput.t) : Z :=
  fold_right (fun output acc => (TxOutput.Value output + acc)%Z) 0%Z utxos.

(** The running [int64] sum of [GetBalance], started at [balance]. *)
Definition balance_from (balance : Z) (utxos : list TxOutput.t) : Z :=
  fold_left (fun balance output => Int.add64 balance (TxOutput.Value output)) utxos balance.

(** What the nonce search leaves untouched. *)
Definition same_content (b b' : Block.t) : Prop :=
  let h := Block.Header b in
  let h' := Block.Header b' in
  BlockHeader.Version h' = BlockHeader.Version h
  /\ BlockHeader.PreviousHash h' = BlockHeader.PreviousHash h
  /\ BlockHeader.MerkleRoot h' = BlockHeader.MerkleRoot h
  /\ BlockHeader.Timestamp h' = BlockHeader.Timestamp h
  /\ BlockHeader.Difficulty h' = BlockHeader.Difficulty h
  /\ BlockHeader.Height h' = BlockHeader.Height h
  /\ Block.Transactions b' = Block.Transactions b.

(** The difficulty that [adjustDifficulty] computes from the current one and
    the time between the last two blocks. *)
Definition adjusted (difficulty : N) (timeDiff : Z) : N :=
  if (timeDiff <? 30)%Z then Int.incr_u32 difficulty
  else if (60 <? timeDiff)%Z && (1 <? difficulty)%N then Int.decr_u32 difficulty
  else difficulty.

(** The chain state a successful [AddBlock] leaves, given the mined block. *)
Definition appended (bc : Blockchain.t) (newBlock : Block.t) : Blockchain.t :=
  let bc := Blockchain.with_blocks (Blockchain.blocks bc ++ [newBlock])%list bc in
  let bc := Blockchain.updateUTXOSet newBlock bc in
  if (Z.rem (BlockHeader.Height (Block.Header newBlock)) 10 =? 0)%Z
  then Blockchain.adjustDifficulty bc
  else bc.

(** A change of one header field of a block. *)
Inductive Tamper : Type :=
| SetPreviousHash (x : string)
| SetHash (x : string)
| SetMerkleRoot (x : string)
| SetHeight (x : Z).

Definition tamper (m : Tamper) (b : Block.t) : Block.t :=
  match m with
  | SetPreviousHash x => Block.with_Header (BlockHeader.with_PreviousHash x) b
  | SetHash x => Block.with_Header (BlockHeader.with_Hash x) b
  | SetMerkleRoot x => Block.with_Header (BlockHeader.with_MerkleRoot x) b
  | SetHeight x => Block.with_Header (BlockHeader.with_Height x) b
  end.

(** The new value differs from the one the block holds. *)
Definition changes (m : Tamper) (b : Block.t) : Prop :=
  match m with
  | SetPreviousHash x => x <> BlockHeader.PreviousHash (Block.Header b)
  | SetHash x => x <> BlockHeader.Hash (Block.Header b)
  | SetMerkleRoot x => x <> BlockHeader.MerkleRoot (Block.Header b)
  | SetHeight x => x <> BlockHeader.Height (Block.Header b)
  end.

(** One turn of the nonce loop of [Mine]: the next nonce. *)
Definition bump (b : Block.t) : Block.t :=
  Block.with_Header (fun h => BlockHeader.with_Nonce (Int.incr_u64 (BlockHeader.Nonce h)) h) b.

(** The block [Mine] hashes at its [k]-th turn. *)
Definition candidate (difficulty : N) (b : Block.t) (k : nat) : Block.t :=
  Nat.iter k bump (Block.with_Header (BlockHeader.with_Difficulty difficulty) b).

(** The bucket of [address] once a transaction has been applied to the
    index, in the words of the specification: one entry leaves the bucket
    for each input of the spender [address], the oldest first, and every
    output addressed to [address] is appended. *)
Definition bucket_after (address : string) (bucket : list TxOutput.t)
    (tx : Transaction.t) : list TxOutput.t :=
  (skipn (List.length
            (List.filter (fun i => String.eqb (TxInput.PublicKey i) address)
               (Transaction.Inputs tx)))
     bucket
   ++ List.filter (fun o => String.eqb (TxOutput.Address o) address)
        (Transaction.Outputs tx))%list.

(** Every bucket of the index holds at least one output, and only outputs
    of its own address. *)
Definition utxo_ok (utxoSet : gmap string (list TxOutput.t)) : Prop :=
  forall address outputs,
    utxoSet !! address = Some outputs ->
    outputs <> [] /\ Forall (fun o => TxOutput.Address o = address) outputs.

(** The stored hash of the block starts with as many zeros as the
    difficulty recorded in its header, which is one that [Mine] can meet. *)
Definition proof_of_work (b : Block.t) : Prop :=
  let h := Block.Header b in
  (1 <= BlockHeader.Difficulty h <= 64)%N
  /\ exists tail, BlockHeader.Hash h = zeros (N.to_nat (BlockHeader.Difficulty h)) ++ tail.

Section Chains.
Variable json_Marshal : Transaction.t -> string.

(** The chain states a program can reach through the exported API: a new
    chain, and what a call of [AddBlock] that returns leaves ([AddBlock] is
    the only method that writes to the chain state). *)
Inductive reachable : Blockchain.t -> Prop :=
| reachable_new (now_tx now : Z) :
    reachable (Blockchain.NewBlockchain json_Marshal now_tx now)
| reachable_add (bc bc' : Blockchain.t) (fuel : nat) (now : Z)
    (transactions : list Transaction.t) (r : option ChainError) :
    reachable bc ->
    Blockchain.AddBlock json_Marshal fuel now transactions bc = Returns (r, bc') ->
    reachable bc'.

End Chains.

(** * Running the model

    ** A plain JSON encoder

    Go's [json.Marshal] on a [Transaction] whose slices are non-nil and
    whose strings hold only characters that the encoder copies as they are.
    It instantiates the encoder when the model is run on concrete inputs. *)

Module Json.
Definition quote : string := String "034"%char EmptyString.
Definition str (s : string) : string := quote ++ s ++ quote.
Definition field (name value : string) : string := str name ++ ":" ++ value.

Fixpoint join (items : list string) : string :=
  match items with
  | [] => ""
  | [x] => x
  | x :: rest => x ++ "," ++ join rest
  end.

Definition object (fields : list string) : string := "{" ++ join fields ++ "}".
Definition array (items : list string) : string := "[" ++ join items ++ "]".

Definition input (i : TxInput.t) : string :=
  object [ field "tx_id" (str (TxInput.TxID i));
           field "output_index" (Int.fmt_d (TxInput.OutputIndex i));
           field "public_key" (str (TxInput.PublicKey i));
           field "signature" (str (TxInput.Signature i)) ].

Definition output (o : TxOutput.t) : string :=
  object [ field "value" (Int.fmt_d (TxOutput.Value o));
           field "address" (str (TxOutput.Address o)) ].

Definition Marshal (tx : Transaction.t) : string :=
  object [ field "id" (str (Transaction.ID tx));
           field "inputs" (array (map input (Transaction.Inputs tx)));
           field "outputs" (array (map output (Transaction.Outputs tx)));
           field "timestamp" (Int.fmt_d (Transaction.Timestamp tx));
           field "signature" (str (Transaction.Signature tx)) ].
End Json.

(** ** Data for running the model *)

Module Example.
Definition now : Z := 1700000000.

(** A fresh chain: the genesis block, difficulty 4. *)
Definition fresh : Blockchain.t := Blockchain.NewBlockchain Json.Marshal now now.

Definition reward (now : Z) (address : string) (value : Z) : Transaction.t :=
  Transaction.NewCoinbaseTransaction Json.Marshal now address value.

(** A block assembled on top of the genesis block, not yet mined.  The
    clock readings of this module are chosen so that at difficulty 4 the
    first nonce tried is a valid one, which keeps the evaluation short. *)
Definition unmined : Block.t :=
  match Blockchain.blocks fresh with
  | genesis :: _ =>
      Block.NewBlock (now + 71207) [reward (now + 71207) "miner1" 5000000000]
        (BlockHeader.Hash (Block.Header genesis))
        (Int.add64 (BlockHeader.Height (Block.Header genesis)) 1)
  | [] => Block.NewBlock (now + 71207) [] "" 0
  end.

(** A spend of one input with a single output of value zero. *)
Definition spend_zero : Transaction.t :=
  Transaction.NewTransaction Json.Marshal now
    [TxInput.mk "" 0 "alice" ""] [TxOutput.mk 0 "bob"].

(** [AddBlock] with fuel for two nonces; the chain is kept when the call
    does not succeed. *)
Definition add (now : Z) (transactions : list Transaction.t) (bc : Blockchain.t)
    : Blockchain.t :=
  match Blockchain.AddBlock Json.Marshal 2 now transactions bc with
  | Returns (None, bc') => bc'
  | _ => bc
  end.

(** The chain after two blocks whose coinbases pay 100 and -50 to "A". *)
Definition overdrawn : Blockchain.t :=
  add (now + 44824) [reward (now + 44824) "A" (-50)]
    (add (now + 30732) [reward (now + 30732) "A" 100] fresh).

(** The chain after nine blocks mined for "miner1". *)
Definition nine : Blockchain.t :=
  fold_left
    (fun bc offset => add (now + offset) [reward (now + offset) "miner1" 5000000000] bc)
    [71207; 129918; 144254; 165318; 213115; 335314; 358821; 361071; 372467]%Z fresh.

(** A block header stamped [timestamp], for running [adjustDifficulty]. *)
Definition stamped (timestamp : Z) : Block.t :=
  Block.mk (BlockHeader.mk 1 "" "" timestamp 0 0 "" 0) [].

(** Store the recomputed hash in a block. *)
Definition reseal (b : Block.t) : Block.t := Block.SetHash (Block.calculateHash b) b.

(** A block with the given transactions whose stored merkle root and hash
    are the recomputed ones. *)
Definition sealed (transactions : list Transaction.t) : Block.t :=
  reseal (Block.NewBlock now transactions "" 0).

(** A chain state holding only a bucket for "A". *)
Definition bucket (outputs : list TxOutput.t) : Blockchain.t :=
  Blockchain.with_utxoSet {["A" := outputs]} fresh.

(** The chain after one block mined for "miner1", and that block. *)
Definition two : Blockchain.t :=
  add (now + 71207) [reward (now + 71207) "miner1" 5000000000] fresh.

Definition mined : Block.t :=
  match Block.Mine 2 4 unmined with
  | Returns b => b
  | _ => unmined
  end.

(** The transaction [CreateTransaction] builds on the fresh chain for 100
    from "genesis" to "bob" at the clock reading [now + 5]. *)
Definition transfer : Transaction.t :=
  Transaction.NewTransaction Json.Marshal (now + 5)
    [TxInput.mk "" 0 "genesis" ""]
    [TxOutput.mk 100 "bob"; TxOutput.mk 4999999900 "genesis"].
End Example.

(** * Properties *)

(** ** Test vectors of the hash (FIPS 180-4, appendix B) *)

Example sha256_hex_abc :
  sha256_hex "abc" = "ba7816bf8f01cfea414140de5dae2223b00361a396177a9cb410ff61f20015ad".
Proof. vm_compute. reflexivity. Qed.

Example sha256_hex_empty :
  sha256_hex "" = "e3b0c44298fc1c149afbf4c8996fb92427ae41e4649b934ca495991b7852b855".
Proof. vm_compute. reflexivity. Qed.

Example sha256_hex_two_blocks :
  sha256_hex "abcdbcdecdefdefgefghfghighijhijkijkljklmklmnlmnomnopnopq"
  = "248d6a61d20638b8e5c026930c3e6039a33ce45964ff2167f6ecedd419db06c1".
Proof. vm_compute. reflexivity. Qed.

Example fmt_d_examples :
  Int.fmt_d 0 = "0" /\ Int.fmt_d 1700000000 = "1700000000" /\ Int.fmt_d (-42) = "-42".
Proof. vm_compute. auto. Qed.

(** ** The model on the scenarios of the specification *)

(** A fresh chain holds the genesis reward; after one block with a coinbase
    for "miner1" the height is 1, "miner1" owns the reward, the balance of
    "genesis" is as before and the chain validates. *)
Example fresh_chain_scenario :
  Blockchain.difficulty Example.fresh = 4%N
  /\ Blockchain.GetBalance Example.fresh "genesis" = 5000000000%Z
  /\ let bc := Example.add (Example.now + 71207)
                 [Example.reward (Example.now + 71207) "miner1" 5000000000] Example.fresh in
     List.length (Blockchain.blocks bc) = 2%nat
     /\ Blockchain.GetBalance bc "miner1" = 5000000000%Z
     /\ Blockchain.GetBalance bc "genesis" = 5000000000%Z
     /\ Blockchain.ValidateChain Json.Marshal bc = Returns None.
Proof. vm_compute. repeat split; reflexivity. Qed.

(** The example chains are what the calls of [AddBlock] produce. *)
Example example_chains :
  List.length (Blockchain.blocks Example.overdrawn) = 3%nat
  /\ Blockchain.ValidateChain Json.Marshal Example.overdrawn = Returns None
  /\ List.length (Blockchain.blocks Example.nine) = 10%nat
  /\ Blockchain.ValidateChain Json.Marshal Example.nine = Returns None
  /\ Blockchain.GetBalance Example.nine "miner1" = 45000000000%Z.
Proof. vm_compute. repeat split; reflexivity. Qed.

(** [adjustDifficulty] on two blocks 10, 90, 45, 30 and 60 seconds apart. *)
Example adjustDifficulty_scenarios :
  let run := fun d delta =>
    Blockchain.difficulty
      (Blockchain.adjustDifficulty
         (Blockchain.mk [Example.stamped 1000; Example.stamped (1000 + delta)] d ∅)) in
  run 4%N 10%Z = 5%N /\ run 4%N 90%Z = 3%N /\ run 4%N 45%Z = 4%N
  /\ run 4%N 30%Z = 4%N /\ run 4%N 60%Z = 4%N /\ run 1%N 90%Z = 1%N
  /\ run 4%N (-5)%Z = 5%N.
Proof. vm_compute. repeat split; reflexivity. Qed.

(** The increment of [adjustDifficulty] is the one of [uint32]; a state with
    the largest difficulty is not one [AddBlock] can adjust, as its nonce
    search panics (see [Mine_returns_difficulty] below). *)
Example adjustDifficulty_wraps :
  Blockchain.difficulty
    (Blockchain.adjustDifficulty
       (Blockchain.mk [Example.stamped 1000; Example.stamped 1010] 4294967295 ∅))
  = 0%N.
Proof. vm_compute. reflexivity. Qed.

(** [Block.Validate] reports the first check that fails. *)
Example Validate_scenarios :
  let cb := Example.reward Example.now "miner1" 50 in
  let cb' := Example.reward Example.now "miner2" 50 in
  let validate := fun b => Block.Validate Json.Marshal b None in
  validate (Example.sealed [cb]) = None
  /\ validate (Block.NewBlock Example.now [] "" 0) = Some InvalidBlockHash
  /\ validate (Example.reseal (tamper (SetMerkleRoot "00") (Example.sealed [])))
     = Some InvalidMerkleRoot
  /\ validate (Example.sealed []) = Some NoTransactions
  /\ validate (Example.sealed [Example.spend_zero; cb]) = Some FirstNotCoinbase
  /\ validate (Example.sealed [cb; Example.spend_zero; cb'])
     = Some (InvalidTransaction NonPositiveOutput)
  /\ validate (Example.sealed [cb; cb']) = Some CoinbaseCount
  /\ Block.Validate Json.Marshal (Example.sealed []) (Some (Example.sealed [cb]))
     = Some InvalidPreviousHash.
Proof. vm_compute. repeat split; reflexivity. Qed.

Example buildMerkleTree_three_leaves :
  Block.buildMerkleTree ["a"; "b"; "c"]
  = sha256_hex (sha256_hex "ab" ++ sha256_hex "cc").
Proof. vm_compute. reflexivity. Qed.

(** ** Strings *)

Lemma string_app_cons (c : ascii) (s1 s2 : string) :
  String c s1 ++ s2 = String c (s1 ++ s2).
Proof. reflexivity. Qed.

Lemma string_length_app (s1 s2 : string) :
  String.length (s1 ++ s2) = (String.length s1 + String.length s2)%nat.
Proof.
  induction s1 as [|c s1 IH]; [reflexivity|].
  rewrite string_app_cons. simpl. now rewrite IH.
Qed.

Lemma string_app_assoc (s1 s2 s3 : string) : (s1 ++ s2) ++ s3 = s1 ++ (s2 ++ s3).
Proof.
  induction s1 as [|c s1 IH]; [reflexivity|].
  now rewrite !string_app_cons, IH.
Qed.

Lemma zeros_length (n : nat) : String.length (zeros n) = n.
Proof. induction n as [|n IH]; simpl; [reflexivity | now rewrite IH]. Qed.

Lemma zeros_snoc (n : nat) : zeros n ++ "0" = zeros (S n).
Proof.
  induction n as [|n IH]; [reflexivity|].
  change (zeros (S n)) with (String "0" (zeros n)).
  now rewrite string_app_cons, IH.
Qed.

(** A string whose first [n] characters are [p] is [p] followed by the rest. *)
Lemma substring_prefix (p s : string) :
  substring 0 (String.length p) s = p -> exists tail, s = p ++ tail.
Proof.
  revert s. induction p as [|c p IH]; intros s H.
  - exists s. reflexivity.
  - destruct s as [|c' s]; simpl in H; [discriminate|].
    injection H as -> H. destruct (IH _ H) as [tail ->]. now exists tail.
Qed.

(** ** The hash has 64 hexadecimal digits *)

Lemma EncodeToString_length (bs : list N) :
  String.length (Hex.EncodeToString bs) = (2 * List.length bs)%nat.
Proof. induction bs as [|b bs IH]; simpl; [reflexivity | rewrite IH; lia]. Qed.

Lemma be_bytes_length (width : nat) (x : N) :
  List.length (Sha256.be_bytes width x) = width.
Proof. unfold Sha256.be_bytes. now rewrite length_map, length_rev, length_seq. Qed.

Lemma Sum256_length (data : list N) : List.length (Sha256.Sum256 data) = 32%nat.
Proof.
  unfold Sha256.Sum256, Sha256.digest.
  rewrite !length_app, !be_bytes_length. reflexivity.
Qed.

Lemma sha256_hex_length (s : string) : String.length (sha256_hex s) = 64%nat.
Proof. unfold sha256_hex. now rewrite EncodeToString_length, Sum256_length. Qed.

(** From here on the hash is only unfolded by evaluation on closed terms. *)
Opaque sha256_hex.

Lemma calculateHash_length (b : Block.t) : String.length (Block.calculateHash b) = 64%nat.
Proof. apply sha256_hex_length. Qed.

(** ** The target of the nonce search *)

Lemma getTarget_zeros (d : N) : Block.getTarget d = zeros (N.to_nat d).
Proof.
  unfold Block.getTarget. induction d as [|d IH] using N.peano_ind.
  - reflexivity.
  - rewrite N.iter_succ, IH, N2Nat.inj_succ. apply zeros_snoc.
Qed.

Lemma getTarget_length (d : N) : String.length (Block.getTarget d) = N.to_nat d.
Proof. rewrite getTarget_zeros. apply zeros_length. Qed.

Lemma isHashValid_in_bounds (d : N) (b : Block.t) :
  (d <= 64)%N ->
  Block.isHashValid (Block.calculateHash b) (Block.getTarget d)
  = Returns (String.eqb (substring 0 (N.to_nat d) (Block.calculateHash b)) (Block.getTarget d)).
Proof.
  intros Hd. unfold Block.isHashValid.
  rewrite getTarget_length, calculateHash_length.
  destruct (Nat.leb_spec (N.to_nat d) 64) as [_|Hlt]; [reflexivity | lia].
Qed.

Lemma isHashValid_out_of_range (d : N) (b : Block.t) :
  (64 < d)%N -> Block.isHashValid (Block.calculateHash b) (Block.getTarget d) = Panics.
Proof.
  intros Hd. unfold Block.isHashValid.
  rewrite getTarget_length, calculateHash_length.
  destruct (Nat.leb_spec (N.to_nat d) 64) as [Hle|_]; [lia | reflexivity].
Qed.

Lemma mineLoop_in_bounds (d : N) (fuel : nat) (b : Block.t) :
  (d <= 64)%N -> Block.mineLoop fuel (Block.getTarget d) b <> Panics.
Proof.
  intros Hd. revert b. induction fuel as [|fuel IH]; intros b; simpl.
  - discriminate.
  - rewrite isHashValid_in_bounds by assumption.
    destruct (String.eqb _ _); [discriminate | apply IH].
Qed.

Lemma mineLoop_out_of_range (d : N) (fuel : nat) (b : Block.t) :
  (64 < d)%N -> Block.mineLoop (S fuel) (Block.getTarget d) b = Panics.
Proof. intros Hd. simpl. now rewrite isHashValid_out_of_range. Qed.

(** A search that returns was run with a difficulty of at most 64. *)
Lemma Mine_returns_difficulty (fuel : nat) (d : N) (b b' : Block.t) :
  Block.Mine fuel d b = Returns b' -> (d <= 64)%N.
Proof.
  intros H. destruct (N.leb_spec d 64) as [Hle|Hgt]; [assumption|].
  unfold Block.Mine in H. destruct fuel as [|fuel]; [discriminate|].
  rewrite mineLoop_out_of_range in H by assumption. discriminate.
Qed.

(** C10: the slice [hash[:len(target)]] taken by [isHashValid] inside [Mine]
    is within the 64 characters of the hash when the difficulty is at most
    64, at every turn of the loop (so [Mine] never panics, whatever the
    fuel); when the difficulty exceeds 64 the slice is out of range, and the
    first turn of the loop already panics. *)
Theorem Mine_prefix_slice_bounds (d : N) (b : Block.t) :
  ((d <= 64)%N ->
     (forall b', exists ok,
        Block.isHashValid (Block.calculateHash b') (Block.getTarget d) = Returns ok)
     /\ (forall fuel, Block.Mine fuel d b <> Panics))
  /\ ((64 < d)%N ->
     (forall b', Block.isHashValid (Block.calculateHash b') (Block.getTarget d) = Panics)
     /\ Block.Mine 1 d b = Panics
     /\ (forall fuel, Block.Mine (S fuel) d b = Panics)).
Proof.
  split; intros Hd.
  - split.
    + intros b'. eexists. now apply isHashValid_in_bounds.
    + intros fuel. unfold Block.Mine. now apply mineLoop_in_bounds.
  - split; [|split].
    + intros b'. now apply isHashValid_out_of_range.
    + unfold Block.Mine. now apply mineLoop_out_of_range.
    + intros fuel. unfold Block.Mine. now apply mineLoop_out_of_range.
Qed.

Lemma Mine_prefix_slice_bounds_witness :
  (forall fuel, Block.Mine fuel 4 Example.unmined <> Panics)
  /\ Block.Mine 1 65 Example.unmined = Panics.
Proof.
  split.
  - apply (Mine_prefix_slice_bounds 4 Example.unmined). vm_compute. discriminate.
  - apply (Mine_prefix_slice_bounds 65 Example.unmined). reflexivity.
Defined.

(** ** Input validation *)

Lemma checkInputs_none (bc : Blockchain.t) (txID : string) (inputs : list TxInput.t) :
  Blockchain.checkInputs bc txID inputs = None.
Proof. induction inputs as [|input rest IH]; simpl; auto. Qed.

Lemma validateTransactionsFrom_none (bc : Blockchain.t) (txs : list Transaction.t) :
  forall i, Blockchain.validateTransactionsFrom bc i txs = None.
Proof.
  induction txs as [|tx rest IH]; intros i; simpl; [reflexivity|].
  rewrite checkInputs_none, IH. now destruct (i =? 0)%nat.
Qed.

Lemma validateTransactions_none (bc : Blockchain.t) (block : Block.t) :
  Blockchain.validateTransactions bc block = None.
Proof. apply validateTransactionsFrom_none. Qed.

(** C9: the per-input check of [validateTransactions] accepts every input:
    [isValidInput] is constantly true, so [validateTransactions] returns no
    error on any block, and [AddBlock] never returns the error "transaction
    validation failed", whatever the inputs of the candidate transactions
    refer to. *)
Theorem isValidInput_accepts_everything (json_Marshal : Transaction.t -> string) :
  (forall bc input, Blockchain.isValidInput bc input = true)
  /\ (forall bc block, Blockchain.validateTransactions bc block = None)
  /\ (forall fuel now transactions bc err bc',
        Blockchain.AddBlock json_Marshal fuel now transactions bc
        <> Returns (Some (TransactionValidationFailed err), bc')).
Proof.
  split; [reflexivity | split; [apply validateTransactions_none|]].
  intros fuel now transactions bc err bc'. unfold Blockchain.AddBlock.
  destruct (Blockchain.blocks bc !! _) as [lastBlock|]; [|discriminate].
  destruct (Block.Mine _ _ _) as [newBlock| |]; try discriminate.
  destruct (Block.Validate _ _ _); [discriminate|].
  rewrite validateTransactions_none. discriminate.
Qed.

(** ** The merkle root *)

Lemma skipn_nth_cons (l : list string) (i : nat) :
  (i < List.length l)%nat -> skipn i l = nth i l "" :: skipn (S i) l.
Proof.
  revert i. induction l as [|x l IH]; intros i Hi; simpl in Hi; [lia|].
  destruct i as [|i]; [reflexivity|]. simpl. apply IH. lia.
Qed.

(** The indexed loop of the source computes the level of the specification
    over the entries it has not consumed yet. *)
Lemma levelLoop_spec (hashes : list string) (i : nat) (newLevel : list string) :
  Block.levelLoop hashes i newLevel = (newLevel ++ spec_pair_level (skipn i hashes))%list.
Proof.
  funelim (Block.levelLoop hashes i newLevel).
  - rewrite H, <- app_assoc. f_equal. simpl.
    rewrite (skipn_nth_cons hashes i) by assumption.
    destruct (Nat.ltb_spec (i + 1) (List.length hashes)) as [Hlt|Hge].
    + rewrite (skipn_nth_cons hashes (S i)) by lia.
      replace (i + 2)%nat with (S (S i)) by lia.
      replace (i + 1)%nat with (S i) by lia. reflexivity.
    + rewrite (skipn_all2 hashes (n := S i)) by lia.
      rewrite (skipn_all2 hashes (n := (i + 2)%nat)) by lia. reflexivity.
  - rewrite skipn_all2 by lia. simpl. now rewrite app_nil_r.
Qed.

Lemma spec_pair_level_length (leaves : list string) :
  List.length (spec_pair_level leaves) = Nat.div2 (List.length leaves + 1).
Proof.
  pose proof (levelLoop_spec leaves 0 []) as H.
  change (Block.levelLoop leaves 0 [] = spec_pair_level leaves) in H.
  rewrite <- H, Block.levelLoop_length. simpl. now rewrite Nat.sub_0_r.
Qed.

Lemma buildMerkleTree_level (leaves : list string) :
  (2 <= List.length leaves)%nat ->
  Block.buildMerkleTree leaves = Block.buildMerkleTree (spec_pair_level leaves).
Proof.
  intros Hlen. destruct leaves as [|x [|y rest]]; simpl in Hlen; try lia.
  simp buildMerkleTree. now rewrite levelLoop_spec.
Qed.

(** Repeating the level step ends with a single hash, the root. *)
Lemma buildMerkleTree_iterates (leaves : list string) :
  leaves <> [] ->
  exists n, Nat.iter n spec_pair_level leaves = [Block.buildMerkleTree leaves].
Proof.
  remember (List.length leaves) as len eqn:Hlen. revert leaves Hlen.
  induction len as [len IH] using lt_wf_ind. intros leaves Hlen Hne.
  destruct leaves as [|x [|y rest]]; [congruence | |].
  - exists 0%nat. now simp buildMerkleTree.
  - assert (Hshort : (List.length (spec_pair_level (x :: y :: rest)) < len)%nat).
    { rewrite spec_pair_level_length, Hlen. simpl List.length.
      replace (S (S (List.length rest)) + 1)%nat with (S (S (List.length rest + 1))) by lia.
      cbn [Nat.div2].
      pose proof (Nat.div2_decr (List.length rest + 1) (List.length rest)). lia. }
    destruct (IH _ Hshort (spec_pair_level (x :: y :: rest)) eq_refl) as [n Hn];
      [discriminate|].
    exists (S n). rewrite Nat.iter_succ_r, Hn.
    now rewrite <- (buildMerkleTree_level (x :: y :: rest)) by (simpl; lia).
Qed.

(** C6: the merkle root is a function of the leaf sequence alone: the empty
    sequence gives the empty string, a single leaf is returned as it is, and
    a longer sequence gives the root of the next level, in which adjacent
    leaves are paired left to right and hashed, an unpaired last leaf being
    paired with itself; the levels shrink until one hash remains, which is
    the result.  [calculateMerkleRoot] applies this to the transaction ids in
    block order. *)
Theorem buildMerkleTree_refines_spec :
  Block.buildMerkleTree [] = ""
  /\ (forall leaf, Block.buildMerkleTree [leaf] = leaf)
  /\ (forall leaves, (2 <= List.length leaves)%nat ->
        Block.levelLoop leaves 0 [] = spec_pair_level leaves
        /\ Block.buildMerkleTree leaves = Block.buildMerkleTree (spec_pair_level leaves)
        /\ (List.length (spec_pair_level leaves) < List.length leaves)%nat)
  /\ (forall leaves, leaves <> [] ->
        exists n, Nat.iter n spec_pair_level leaves = [Block.buildMerkleTree leaves])
  /\ (forall b, Block.calculateMerkleRoot b
                = Block.buildMerkleTree (map Transaction.ID (Block.Transactions b))).
Proof.
  split; [now simp buildMerkleTree|].
  split; [intros leaf; now simp buildMerkleTree|].
  split; [|split].
  - intros leaves Hlen. split; [apply levelLoop_spec|].
    split; [now apply buildMerkleTree_level|].
    rewrite spec_pair_level_length.
    destruct leaves as [|x [|y rest]]; simpl in Hlen; try lia. simpl List.length.
    replace (S (S (List.length rest)) + 1)%nat with (S (S (List.length rest + 1))) by lia.
    cbn [Nat.div2].
    pose proof (Nat.div2_decr (List.length rest + 1) (List.length rest)). lia.
  - apply buildMerkleTree_iterates.
  - intros b. unfold Block.calculateMerkleRoot.
    destruct (Block.Transactions b); [now simp buildMerkleTree | reflexivity].
Qed.

Lemma buildMerkleTree_refines_spec_witness :
  Block.buildMerkleTree ["a"; "b"; "c"]
  = Block.buildMerkleTree [sha256_hex "ab"; sha256_hex "cc"].
Proof.
  apply (proj1 (proj2 (proj2 buildMerkleTree_refines_spec)) ["a"; "b"; "c"]).
  simpl. lia.
Defined.

(** ** Block validation *)

Section BlockValidation.
Variable json_Marshal : Transaction.t -> string.

Import BlockHeader.

Lemma validateLoop_all_valid (txs : list Transaction.t) (count : Z) :
  forallb (fun tx => bool_decide (Transaction.Validate json_Marshal tx = None)) txs = true ->
  Block.validateLoop json_Marshal txs count
  = inr (count + Z.of_nat (List.length (List.filter Transaction.IsCoinbase txs)))%Z.
Proof.
  revert count. induction txs as [|tx rest IH]; intros count H; simpl in *.
  - f_equal. lia.
  - apply andb_prop in H as [Htx Hrest]. apply bool_decide_eq_true in Htx.
    rewrite Htx, IH by assumption. f_equal.
    destruct (Transaction.IsCoinbase tx); simpl List.length; lia.
Qed.

Lemma validateLoop_some_invalid (txs : list Transaction.t) (count : Z) :
  forallb (fun tx => bool_decide (Transaction.Validate json_Marshal tx = None)) txs = false ->
  exists tx err,
    In tx txs /\ Transaction.Validate json_Marshal tx = Some err
    /\ Block.validateLoop json_Marshal txs count = inl (InvalidTransaction err).
Proof.
  revert count. induction txs as [|tx rest IH]; intros count H; simpl in *; [discriminate|].
  destruct (Transaction.Validate json_Marshal tx) as [err|] eqn:Htx.
  - exists tx, err. auto.
  - rewrite bool_decide_eq_true_2 in H by reflexivity. simpl in H.
    destruct (IH (if Transaction.IsCoinbase tx then (count + 1)%Z else count) H)
      as (tx' & err & Hin & Hv & Hloop).
    exists tx', err. eauto.
Qed.

Lemma Validate_kind (b : Block.t) (p : option Block.t) :
  option_map BlockError_kind (Block.Validate json_Marshal b p)
  = first_failure (spec_checks json_Marshal b p).
Proof.
  unfold Block.Validate, spec_checks, Block.checkLinkage. cbn [first_failure].
  destruct (String.eqb (Hash (Block.Header b)) (Block.calculateHash b)); [|reflexivity].
  cbn [negb]. destruct p as [p|].
  1: destruct (String.eqb (PreviousHash (Block.Header b)) (Hash (Block.Header p)));
       [|reflexivity].
  1: destruct (Height (Block.Header b) =? _)%Z; [|reflexivity].
  all: cbn [negb andb].
  all: destruct (String.eqb (MerkleRoot (Block.Header b)) _); [|reflexivity].
  all: destruct (Block.Transactions b) as [|first rest]; [reflexivity|].
  all: cbn [List.length Nat.eqb negb].
  all: destruct (Transaction.IsCoinbase first) eqn:Hfirst; [|reflexivity].
  all: cbn [negb]; set (txs := first :: rest).
  all: destruct (forallb _ txs) eqn:Hall;
         [ rewrite validateLoop_all_valid by assumption
         | destruct (validateLoop_some_invalid _ 0%Z Hall) as (tx & err & _ & _ & ->);
           reflexivity ].
  all: destruct (Nat.eqb_spec (List.length (List.filter Transaction.IsCoinbase txs)) 1)
         as [->|Hne]; [reflexivity|].
  all: destruct (Z.eqb_spec
                   (0 + Z.of_nat (List.length (List.filter Transaction.IsCoinbase txs))) 1);
         [lia | reflexivity].
Qed.

Lemma spec_checks_valid (b : Block.t) (p : option Block.t) :
  first_failure (spec_checks json_Marshal b p) = None <-> spec_valid json_Marshal b p.
Proof.
  unfold spec_checks, spec_valid. cbn [first_failure]. split.
  - intros H.
    destruct (String.eqb_spec (Hash (Block.Header b)) (Block.calculateHash b)); [|discriminate].
    split; [assumption|].
    destruct (match p with Some _ => _ | None => true end) eqn:Hlink; [|discriminate].
    split.
    { intros p' ->. apply andb_prop in Hlink as [H1 H2].
      apply String.eqb_eq in H1. apply Z.eqb_eq in H2. auto. }
    destruct (String.eqb_spec (MerkleRoot (Block.Header b)) (Block.calculateMerkleRoot b));
      [|discriminate].
    split; [assumption|].
    destruct (Block.Transactions b) as [|first rest]; [discriminate|].
    cbn [List.length Nat.eqb negb] in H.
    split; [discriminate|].
    destruct (Transaction.IsCoinbase first) eqn:Hfirst; [|discriminate].
    split; [eauto|].
    destruct (forallb _ (first :: rest)) eqn:Hall; [|discriminate].
    split.
    { intros tx Hin. rewrite forallb_forall in Hall.
      eapply bool_decide_eq_true_1. now apply Hall. }
    destruct (Nat.eqb_spec (List.length (List.filter Transaction.IsCoinbase (first :: rest))) 1);
      [assumption | discriminate].
  - intros (Hhash & Hlink & Hroot & Hne & (first & rest & Htxs & Hfirst) & Hall & Hcount).
    rewrite Hhash at 1. rewrite String.eqb_refl.
    replace (match p with Some _ => _ | None => true end) with true.
    2:{ destruct p as [p|]; [|reflexivity]. destruct (Hlink p eq_refl) as [-> ->].
        now rewrite String.eqb_refl, Z.eqb_refl. }
    rewrite Hroot at 1. rewrite String.eqb_refl.
    rewrite Htxs in *. cbn [List.length Nat.eqb negb]. rewrite Hfirst.
    replace (forallb _ (first :: rest)) with true.
    2:{ symmetry. apply forallb_forall. intros tx Hin. apply bool_decide_eq_true_2. auto. }
    rewrite Hcount. reflexivity.
Qed.

Lemma Validate_none_iff (b : Block.t) (p : option Block.t) :
  Block.Validate json_Marshal b p = None <-> spec_valid json_Marshal b p.
Proof.
  rewrite <- spec_checks_valid, <- Validate_kind.
  destruct (Block.Validate json_Marshal b p); simpl; split; congruence.
Qed.

(** C1: [Block.Validate] succeeds exactly when the stored hash is the
    recomputed one, the block links to the supplied predecessor (previous
    hash, and height one more in [int64] arithmetic), the stored merkle root
    is the recomputed one, there is a transaction, the first one is a
    coinbase, every transaction passes [Transaction.Validate] and exactly one
    transaction is a coinbase; when it fails, the error it returns is of the
    kind of the first of these conditions, in this order, that does not
    hold; a [TransactionInvalid] carries the error of a transaction of the
    block. *)
Theorem Block_Validate_first_failure (b : Block.t) (p : option Block.t) :
  option_map BlockError_kind (Block.Validate json_Marshal b p)
  = first_failure (spec_checks json_Marshal b p)
  /\ (Block.Validate json_Marshal b p = None <-> spec_valid json_Marshal b p)
  /\ (forall err, Block.Validate json_Marshal b p = Some (InvalidTransaction err) ->
        exists tx, In tx (Block.Transactions b)
                   /\ Transaction.Validate json_Marshal tx = Some err).
Proof.
  split; [apply Validate_kind|]. split; [apply Validate_none_iff|].
  intros err. unfold Block.Validate.
  destruct (negb _); [discriminate|].
  destruct (Block.checkLinkage b p) as [e|] eqn:Hlink.
  { unfold Block.checkLinkage in Hlink. destruct p; [|discriminate].
    destruct (negb _) in Hlink; [congruence|].
    destruct (negb _) in Hlink; congruence. }
  destruct (negb _); [discriminate|].
  destruct (Block.Transactions b) as [|first rest]; [discriminate|].
  destruct (negb _); [discriminate|].
  destruct (forallb (fun tx => bool_decide (Transaction.Validate json_Marshal tx = None))
              (first :: rest)) eqn:Hall.
  - rewrite validateLoop_all_valid by assumption.
    destruct (negb _); discriminate.
  - destruct (validateLoop_some_invalid _ 0%Z Hall) as (tx & err' & Hin & Hv & ->).
    intros [= <-]. eauto.
Qed.

End BlockValidation.

(** ** Transaction validation *)

Lemma checkOutputs_non_positive (outputs : list TxOutput.t) :
  (exists o, In o outputs /\ (TxOutput.Value o <= 0)%Z) ->
  Transaction.checkOutputs outputs = Some NonPositiveOutput.
Proof.
  intros (o & Hin & Hle). induction outputs as [|o' rest IH]; [contradiction|].
  simpl. destruct (Z.leb_spec (TxOutput.Value o') 0) as [_|Hpos]; [reflexivity|].
  destruct Hin as [->|Hin]; [lia | auto].
Qed.

Lemma Validate_under_matching_id (json_Marshal : Transaction.t -> string)
    (tx : Transaction.t) :
  Transaction.ID tx = Transaction.calculateID json_Marshal tx ->
  Transaction.Validate json_Marshal tx
  = if Transaction.IsCoinbase tx
    then if negb (List.length (Transaction.Outputs tx) =? 1)%nat
         then Some CoinbaseOutputCount else None
    else if (List.length (Transaction.Outputs tx) =? 0)%nat then Some NoOutputs
    else Transaction.checkOutputs (Transaction.Outputs tx).
Proof.
  intros Hid. unfold Transaction.Validate. rewrite <- Hid, String.eqb_refl. cbn [negb].
  unfold Transaction.IsCoinbase.
  destruct (List.length (Transaction.Inputs tx) =? 0)%nat; reflexivity.
Qed.

(** C5, as the code has it: a transaction with inputs whose stored id is the
    recomputed one and one of whose outputs has a value of zero or less fails
    [Transaction.Validate], with the error "output value must be positive".
    A coinbase with a matching id is valid exactly when it has one output,
    whatever the value of that output. *)
Theorem Transaction_Validate_output_values (json_Marshal : Transaction.t -> string)
    (tx : Transaction.t) :
  Transaction.ID tx = Transaction.calculateID json_Marshal tx ->
  (Transaction.IsCoinbase tx = false ->
   (exists o, In o (Transaction.Outputs tx) /\ (TxOutput.Value o <= 0)%Z) ->
   Transaction.Validate json_Marshal tx = Some NonPositiveOutput)
  /\ (Transaction.IsCoinbase tx = true ->
      (Transaction.Validate json_Marshal tx = None
       <-> List.length (Transaction.Outputs tx) = 1%nat)).
Proof.
  intros Hid. rewrite (Validate_under_matching_id _ _ Hid). split; intros Hcb; rewrite Hcb.
  - intros Hex. rewrite (checkOutputs_non_positive _ Hex).
    destruct Hex as (o & Hin & _).
    destruct (Transaction.Outputs tx); [contradiction | reflexivity].
  - destruct (Nat.eqb_spec (List.length (Transaction.Outputs tx)) 1); simpl;
      split; congruence.
Qed.

Lemma Transaction_Validate_output_values_witness :
  Transaction.Validate Json.Marshal Example.spend_zero = Some NonPositiveOutput.
Proof.
  apply (Transaction_Validate_output_values Json.Marshal Example.spend_zero).
  - vm_compute. reflexivity.
  - reflexivity.
  - exists (TxOutput.mk 0 "bob"). split; [left; reflexivity | simpl; lia].
Defined.

(** A coinbase whose single output has value zero, with a matching id, is
    accepted by [Transaction.Validate]. *)
Lemma coinbase_with_zero_output_validates :
  let tx := Example.reward Example.now "miner1" 0 in
  Transaction.ID tx = Transaction.calculateID Json.Marshal tx
  /\ (exists o, In o (Transaction.Outputs tx) /\ (TxOutput.Value o <= 0)%Z)
  /\ Transaction.Validate Json.Marshal tx = None.
Proof.
  split; [vm_compute; reflexivity|]. split; [|vm_compute; reflexivity].
  exists (TxOutput.mk 0 "miner1"). split; [left; reflexivity | simpl; lia].
Qed.

(** ** Building a transaction *)

Lemma wrap64_small (z : Z) : Int.in_int64 z -> Int.wrap64 z = z.
Proof.
  unfold Int.in_int64, Int.wrap64. intros Hz.
  rewrite Z.mod_small by lia. lia.
Qed.

Lemma wrap64_range (z : Z) : Int.in_int64 (Int.wrap64 z).
Proof.
  unfold Int.in_int64, Int.wrap64.
  pose proof (Z.mod_pos_bound (z + 2 ^ 63) (2 ^ 64) ltac:(lia)). lia.
Qed.

Lemma GetBalance_FindUTXO (bc : Blockchain.t) (address : string) :
  Blockchain.GetBalance bc address = balance_from 0 (Blockchain.FindUTXO bc address).
Proof.
  unfold Blockchain.GetBalance, Blockchain.FindUTXO, balance_from.
  now destruct (Blockchain.utxoSet bc !! address).
Qed.

(** A loop that ends below the amount never took its [break]: it has summed
    the whole bucket. *)
Lemma collectInputs_short (from : string) (amount : Z) (utxos : list TxOutput.t) :
  forall totalInput inputs,
    (fst (Blockchain.collectInputs from amount utxos totalInput inputs) < amount)%Z ->
    fst (Blockchain.collectInputs from amount utxos totalInput inputs)
    = balance_from totalInput utxos.
Proof.
  induction utxos as [|utxo rest IH]; intros totalInput inputs H; simpl in *; [reflexivity|].
  destruct (Z.leb_spec amount totalInput) as [Hle|Hlt]; simpl in *; [lia|].
  now apply IH.
Qed.

(** Without negative values and without overflow the running sum is the
    mathematical one, and stays below any amount the whole sum is below. *)
Lemma balance_from_exact (utxos : list TxOutput.t) :
  forall balance,
    (0 <= balance)%Z ->
    (forall o, In o utxos -> (0 <= TxOutput.Value o)%Z) ->
    (balance + sum_values utxos < 2 ^ 63)%Z ->
    balance_from balance utxos = (balance + sum_values utxos)%Z.
Proof.
  induction utxos as [|utxo rest IH]; intros balance Hb Hpos Hsum; simpl in *; [lia|].
  assert (Hrest : (0 <= sum_values rest)%Z).
  { clear -Hpos. induction rest as [|o rest IH]; simpl; [lia|].
    assert (0 <= TxOutput.Value o)%Z by (apply Hpos; simpl; auto).
    assert (0 <= sum_values rest)%Z by (apply IH; intros o' Ho'; apply Hpos; simpl in *; tauto).
    lia. }
  assert (Hu : (0 <= TxOutput.Value utxo)%Z) by (apply Hpos; auto).
  unfold balance_from in *. simpl. unfold Int.add64 at 2.
  rewrite wrap64_small by (unfold Int.in_int64; lia).
  rewrite IH; [lia | lia | auto | lia].
Qed.

Lemma collectInputs_poor (from : string) (amount : Z) (utxos : list TxOutput.t) :
  forall totalInput inputs,
    (0 <= totalInput)%Z ->
    (forall o, In o utxos -> (0 <= TxOutput.Value o)%Z) ->
    (totalInput + sum_values utxos < 2 ^ 63)%Z ->
    (totalInput + sum_values utxos < amount)%Z ->
    (fst (Blockchain.collectInputs from amount utxos totalInput inputs) < amount)%Z.
Proof.
  induction utxos as [|utxo rest IH]; intros totalInput inputs Hb Hpos Hsum Hlt; simpl in *; [lia|].
  assert (Hrest : (0 <= sum_values rest)%Z).
  { clear -Hpos. induction rest as [|o rest IH]; simpl; [lia|].
    assert (0 <= TxOutput.Value o)%Z by (apply Hpos; simpl; auto).
    assert (0 <= sum_values rest)%Z by (apply IH; intros o' Ho'; apply Hpos; simpl in *; tauto).
    lia. }
  assert (Hu : (0 <= TxOutput.Value utxo)%Z) by (apply Hpos; auto).
  destruct (Z.leb_spec amount totalInput) as [Hle|_]; [lia|].
  unfold Int.add64. rewrite wrap64_small by (unfold Int.in_int64; lia).
  apply IH; auto; lia.
Qed.

Lemma collectInputs_range (from : string) (amount : Z) (utxos : list TxOutput.t) :
  forall totalInput inputs,
    Int.in_int64 totalInput ->
    Int.in_int64 (fst (Blockchain.collectInputs from amount utxos totalInput inputs)).
Proof.
  induction utxos as [|utxo rest IH]; intros totalInput inputs H; simpl; [assumption|].
  destruct (amount <=? totalInput)%Z; [assumption|]. apply IH, wrap64_range.
Qed.

(** The loop counts a prefix of the bucket: the shortest one whose running
    sum reaches the amount, or the whole bucket. *)
Lemma collectInputs_prefix (from : string) (amount : Z) (utxos : list TxOutput.t) :
  forall totalInput inputs,
  exists n,
    (n <= List.length utxos)%nat
    /\ Blockchain.collectInputs from amount utxos totalInput inputs
       = (balance_from totalInput (firstn n utxos),
          (inputs ++ repeat (TxInput.mk "" 0 from "") n)%list)
    /\ (forall m, (m < n)%nat -> (balance_from totalInput (firstn m utxos) < amount)%Z)
    /\ ((n < List.length utxos)%nat ->
        (amount <= balance_from totalInput (firstn n utxos))%Z).
Proof.
  induction utxos as [|utxo rest IH]; intros totalInput inputs.
  - exists 0%nat. simpl. rewrite app_nil_r. repeat split; try lia.
  - cbn [Blockchain.collectInputs].
    destruct (Z.leb_spec amount totalInput) as [Hle|Hlt].
    + exists 0%nat. simpl. rewrite app_nil_r. repeat split; try lia.
    + destruct (IH (Int.add64 totalInput (TxOutput.Value utxo))
                  (inputs ++ [TxInput.mk "" 0 from ""])%list)
        as (n & Hn & Heq & Hmin & Hmax).
      exists (S n). split; [simpl; lia|]. split; [|split].
      * rewrite Heq. cbn [firstn repeat]. unfold balance_from. cbn [fold_left].
        now rewrite <- app_assoc.
      * intros [|m] Hm; [exact Hlt|]. cbn [firstn]. apply (Hmin m). lia.
      * intros Hlen. cbn [firstn]. apply Hmax. simpl in Hlen. lia.
Qed.

Lemma balance_from_range (utxos : list TxOutput.t) (balance : Z) :
  Int.in_int64 balance -> Int.in_int64 (balance_from balance utxos).
Proof.
  revert balance. induction utxos as [|utxo rest IH]; intros balance H; [assumption|].
  apply IH, wrap64_range.
Qed.

(** C7, as the code has it: [CreateTransaction] leaves the chain state as it
    was.  Its greedy accumulation takes the outputs indexed under [from] in
    their order and stops at the shortest prefix whose running [int64] sum
    reaches [amount], or at the end of the bucket; [total] is the sum of that
    prefix.  The call fails with "insufficient funds", returning no
    transaction, exactly when [total] is below [amount]; a failure implies
    that the balance of [from] (the [int64] sum of all its indexed outputs)
    is below [amount]; conversely, when no output indexed under [from] is
    negative and their sum fits [int64], a balance below [amount] implies the
    failure.  On success the transaction has one input for each output of
    the prefix and an output of [amount] to [to], followed, exactly when
    [total] exceeds [amount], by one output of the remainder to [from]. *)
Theorem CreateTransaction_funds (json_Marshal : Transaction.t -> string)
    (now : Z) (from to : string) (amount : Z) (bc : Blockchain.t) :
  let utxos := Blockchain.FindUTXO bc from in
  let result := fst (Blockchain.CreateTransaction json_Marshal now from to amount bc) in
  snd (Blockchain.CreateTransaction json_Marshal now from to amount bc) = bc
  /\ (exists n,
        let total := balance_from 0 (firstn n utxos) in
        (n <= List.length utxos)%nat
        /\ (forall m, (m < n)%nat -> (balance_from 0 (firstn m utxos) < amount)%Z)
        /\ ((n < List.length utxos)%nat -> (amount <= total)%Z)
        /\ fst (Blockchain.collectInputs from amount utxos 0 []) = total
        /\ (result = (None, Some InsufficientFunds) <-> (total < amount)%Z)
        /\ ((amount <= total)%Z ->
            exists tx,
              result = (Some tx, None)
              /\ Transaction.Inputs tx = repeat (TxInput.mk "" 0 from "") n
              /\ Transaction.Outputs tx
                 = TxOutput.mk amount to
                   :: (if (amount <? total)%Z
                       then [TxOutput.mk (Int.sub64 total amount) from] else [])
              /\ Transaction.Timestamp tx = now
              /\ Transaction.ID tx = Transaction.calculateID json_Marshal tx
              /\ ((0 <= amount)%Z -> Int.sub64 total amount = (total - amount)%Z)))
  /\ (result = (None, Some InsufficientFunds) ->
      (Blockchain.GetBalance bc from < amount)%Z)
  /\ ((forall o, In o utxos -> (0 <= TxOutput.Value o)%Z) ->
      (sum_values utxos < 2 ^ 63)%Z ->
      Blockchain.GetBalance bc from = sum_values utxos
      /\ ((Blockchain.GetBalance bc from < amount)%Z ->
          result = (None, Some InsufficientFunds))).
Proof.
  intros utxos result. subst result. unfold Blockchain.CreateTransaction.
  cbv zeta. fold utxos.
  destruct (collectInputs_prefix from amount utxos 0%Z []) as (n & Hn & E & Hmin & Hmax).
  cbn [app] in E. rewrite E. cbn [fst].
  set (t := balance_from 0 (firstn n utxos)) in *.
  assert (Hrange : Int.in_int64 t).
  { apply balance_from_range. unfold Int.in_int64. lia. }
  assert (Hshort : (t < amount)%Z -> t = balance_from 0 utxos).
  { intros H. assert (n = List.length utxos) as Hall.
    { destruct (Nat.lt_ge_cases n (List.length utxos)) as [Hlt|Hge]; [|lia].
      specialize (Hmax Hlt). lia. }
    subst t. now rewrite Hall, firstn_all. }
  destruct (Z.ltb_spec t amount) as [Hlt|Hge]; cbn [fst snd].
  - split; [reflexivity|]. split.
    { exists n. fold t. split; [assumption|]. split; [assumption|]. split; [assumption|].
      split; [reflexivity|]. split; [tauto | lia]. }
    split.
    { intros _. rewrite GetBalance_FindUTXO. fold utxos. now rewrite <- Hshort. }
    intros Hpos Hsum. rewrite GetBalance_FindUTXO. fold utxos.
    rewrite balance_from_exact by (auto; lia). split; [lia | reflexivity].
  - split; [reflexivity|]. split.
    { exists n. fold t. split; [assumption|]. split; [assumption|]. split; [assumption|].
      split; [reflexivity|]. split; [split; [discriminate | lia]|].
      intros _. eexists. split; [reflexivity|]. split; [reflexivity|]. split.
      { unfold Transaction.NewTransaction, Transaction.with_ID. cbn [Transaction.Outputs].
        now destruct (amount <? t)%Z. }
      split; [reflexivity|]. split; [reflexivity|].
      intros Hamount. unfold Int.sub64. apply wrap64_small.
      unfold Int.in_int64 in *. lia. }
    split; [discriminate|].
    intros Hpos Hsum. rewrite GetBalance_FindUTXO. fold utxos.
    rewrite balance_from_exact by (auto; lia). split; [lia|].
    intros Hbal.
    pose proof (collectInputs_poor from amount utxos 0%Z [] ltac:(lia) Hpos
                  ltac:(lia) ltac:(lia)) as H.
    rewrite E in H. simpl in H. lia.
Qed.

(** The failure on the fresh chain, where "genesis" owns 5000000000; and
    the accumulation on a bucket of three outputs of 30 for an amount of 60,
    which stops after the second output and leaves no change. *)
Lemma CreateTransaction_funds_witness :
  fst (Blockchain.CreateTransaction Json.Marshal Example.now "genesis" "bob" 6000000000
         Example.fresh)
  = (None, Some InsufficientFunds)
  /\ exists tx,
       fst (Blockchain.CreateTransaction Json.Marshal Example.now "A" "bob" 60
              (Example.bucket [TxOutput.mk 30 "A"; TxOutput.mk 30 "A"; TxOutput.mk 30 "A"]))
       = (Some tx, None)
       /\ Transaction.Inputs tx = [TxInput.mk "" 0 "A" ""; TxInput.mk "" 0 "A" ""]
       /\ Transaction.Outputs tx = [TxOutput.mk 60 "bob"].
Proof.
  split.
  - pose proof (CreateTransaction_funds Json.Marshal Example.now "genesis" "bob" 6000000000
                  Example.fresh) as H.
    cbv zeta in H. destruct H as (_ & _ & _ & H).
    apply H.
    + intros o Ho. vm_compute in Ho. destruct Ho as [<-|[]]. simpl. lia.
    + vm_compute. reflexivity.
    + vm_compute. reflexivity.
  - pose proof (CreateTransaction_funds Json.Marshal Example.now "A" "bob" 60
                  (Example.bucket
                     [TxOutput.mk 30 "A"; TxOutput.mk 30 "A"; TxOutput.mk 30 "A"])) as H.
    cbv zeta in H. destruct H as (_ & (n & Hn & Hmin & Hstop & _ & _ & Hok) & _).
    change (Blockchain.FindUTXO
              (Example.bucket [TxOutput.mk 30 "A"; TxOutput.mk 30 "A"; TxOutput.mk 30 "A"])
              "A")
      with [TxOutput.mk 30 "A"; TxOutput.mk 30 "A"; TxOutput.mk 30 "A"] in *.
    assert (Hn2 : n = 2%nat).
    { destruct n as [|[|[|[|n]]]].
      - specialize (Hstop ltac:(simpl; lia)). vm_compute in Hstop. now destruct Hstop.
      - specialize (Hstop ltac:(simpl; lia)). vm_compute in Hstop. now destruct Hstop.
      - reflexivity.
      - specialize (Hmin 2%nat ltac:(lia)). vm_compute in Hmin. discriminate.
      - simpl in Hn. lia. }
    subst n. destruct (Hok ltac:(vm_compute; discriminate))
      as (tx & Hres & Hin & Hout & _).
    exists tx. split; [assumption|]. split; assumption.
Defined.

(** On the chain reached by two blocks whose coinbases pay 100 and -50 to
    "A", the balance of "A" is 50, and a transaction of 80 from "A" is
    built all the same: the loop stops after the first output. *)
Lemma CreateTransaction_succeeds_above_balance :
  Blockchain.FindUTXO Example.overdrawn "A" = [TxOutput.mk 100 "A"; TxOutput.mk (-50) "A"]
  /\ Blockchain.GetBalance Example.overdrawn "A" = 50%Z
  /\ (50 < 80)%Z
  /\ exists tx,
       fst (Blockchain.CreateTransaction Json.Marshal Example.now "A" "B" 80 Example.overdrawn)
       = (Some tx, None)
       /\ Transaction.Outputs tx = [TxOutput.mk 80 "B"; TxOutput.mk 20 "A"].
Proof.
  split; [vm_compute; reflexivity|]. split; [vm_compute; reflexivity|].
  split; [lia|]. eexists. split; vm_compute; reflexivity.
Qed.

(** The same with outputs that are all positive but whose sum leaves
    [int64]: the balance wraps to a negative number, the loop stops after
    the first output. *)
Lemma CreateTransaction_succeeds_on_wrapped_balance :
  let bc := Example.bucket [TxOutput.mk (2 ^ 62 + 1) "A"; TxOutput.mk (2 ^ 62) "A";
                            TxOutput.mk (2 ^ 62) "A"] in
  (Blockchain.GetBalance bc "A" < 2 ^ 62 + 1)%Z
  /\ exists tx,
       fst (Blockchain.CreateTransaction Json.Marshal Example.now "A" "B" (2 ^ 62 + 1) bc)
       = (Some tx, None).
Proof.
  split; [vm_compute; reflexivity|]. eexists. vm_compute. reflexivity.
Qed.

(** ** Mining *)

Lemma same_content_refl (b : Block.t) : same_content b b.
Proof. unfold same_content. tauto. Qed.

Lemma same_content_trans (b1 b2 b3 : Block.t) :
  same_content b1 b2 -> same_content b2 b3 -> same_content b1 b3.
Proof. unfold same_content. intuition congruence. Qed.

Lemma calculateHash_with_Hash (x : string) (b : Block.t) :
  Block.calculateHash (Block.with_Header (BlockHeader.with_Hash x) b) = Block.calculateHash b.
Proof. reflexivity. Qed.

Lemma mineLoop_returns (fuel : nat) (target : string) :
  forall b b',
    Block.mineLoop fuel target b = Returns b' ->
    same_content b b'
    /\ BlockHeader.Hash (Block.Header b') = Block.calculateHash b'
    /\ substring 0 (String.length target) (BlockHeader.Hash (Block.Header b')) = target.
Proof.
  induction fuel as [|fuel IH]; intros b b' H; simpl in H; [discriminate|].
  set (b1 := Block.with_Header
               (fun h => BlockHeader.with_Nonce (Int.incr_u64 (BlockHeader.Nonce h)) h) b) in *.
  destruct (Block.isHashValid (Block.calculateHash b1) target) as [[|]| |] eqn:Hvalid;
    try discriminate.
  - injection H as <-. split; [|split].
    + unfold same_content. simpl. tauto.
    + symmetry. apply calculateHash_with_Hash.
    + unfold Block.isHashValid in Hvalid.
      destruct (String.length target <=? _)%nat; [|discriminate].
      injection Hvalid as Hvalid. now apply String.eqb_eq in Hvalid.
  - destruct (IH _ _ H) as (Hsame & Hhash & Hprefix). split; [|auto].
    apply (same_content_trans b b1 b'); [|assumption].
    unfold same_content. simpl. tauto.
Qed.

Lemma Mine_returns (fuel : nat) (d : N) (b b' : Block.t) :
  Block.Mine fuel d b = Returns b' ->
  same_content (Block.with_Header (BlockHeader.with_Difficulty d) b) b'
  /\ BlockHeader.Hash (Block.Header b') = Block.calculateHash b'
  /\ exists tail, BlockHeader.Hash (Block.Header b') = zeros (N.to_nat d) ++ tail.
Proof.
  unfold Block.Mine. intros H. apply mineLoop_returns in H as (Hsame & Hhash & Hprefix).
  split; [assumption|]. split; [assumption|].
  rewrite getTarget_zeros in Hprefix. now apply substring_prefix.
Qed.

Section Mining.
Variable json_Marshal : Transaction.t -> string.

Lemma filter_none (txs : list Transaction.t) :
  (forall tx, In tx txs -> Transaction.IsCoinbase tx = false) ->
  List.filter Transaction.IsCoinbase txs = [].
Proof.
  induction txs as [|tx rest IH]; intros H; simpl; [reflexivity|].
  rewrite (H tx) by (simpl; auto). apply IH. intros tx' Hin. apply H. simpl. auto.
Qed.

(** C3: when [Mine] returns, the stored hash of the block is the hash of its
    final header fields and starts with [difficulty] zero digits; and if the
    block had been assembled by [NewBlock] over the hash of a block [tip] and
    its height plus one, with a well-formed transaction list, the mined block
    passes [Validate] against [tip]. *)
Theorem Mine_postcondition (fuel : nat) (difficulty : N) (b b' : Block.t) :
  Block.Mine fuel difficulty b = Returns b' ->
  BlockHeader.Hash (Block.Header b') = Block.calculateHash b'
  /\ (exists tail, BlockHeader.Hash (Block.Header b') = zeros (N.to_nat difficulty) ++ tail)
  /\ (forall now txs tip,
        b = Block.NewBlock now txs (BlockHeader.Hash (Block.Header tip))
              (Int.add64 (BlockHeader.Height (Block.Header tip)) 1) ->
        well_formed json_Marshal txs ->
        Block.Validate json_Marshal b' (Some tip) = None).
Proof.
  intros H. destruct (Mine_returns _ _ _ _ H) as (Hsame & Hhash & Hprefix).
  split; [assumption|]. split; [assumption|].
  intros now txs tip -> (first & rest & -> & Hfirst & Hrest & Hvalid).
  destruct Hsame as (_ & Hprev & Hroot & _ & _ & Hheight & Htxs). simpl in *.
  apply Validate_none_iff. unfold spec_valid. cbn zeta.
  split; [assumption|]. split.
  { intros p' [= <-]. split; assumption. }
  split.
  { rewrite Hroot. unfold Block.calculateMerkleRoot. now rewrite Htxs. }
  rewrite Htxs. split; [discriminate|]. split; [eauto|]. split; [assumption|].
  simpl. rewrite Hfirst, (filter_none rest Hrest). reflexivity.
Qed.

End Mining.

Lemma Mine_postcondition_witness :
  exists b',
    Block.Mine 2 4 Example.unmined = Returns b'
    /\ BlockHeader.Nonce (Block.Header b') = 1%N
    /\ BlockHeader.Hash (Block.Header b') = Block.calculateHash b'
    /\ (exists tail, BlockHeader.Hash (Block.Header b') = "0000" ++ tail)
    /\ Block.Validate Json.Marshal b' (nth_error (Blockchain.blocks Example.fresh) 0) = None.
Proof.
  assert (H : exists b', Block.Mine 2 4 Example.unmined = Returns b'
                         /\ BlockHeader.Nonce (Block.Header b') = 1%N).
  { eexists. split; vm_compute; reflexivity. }
  destruct H as (b' & H & Hnonce). exists b'.
  destruct (Mine_postcondition Json.Marshal 2 4 Example.unmined b' H)
    as (Hhash & Hzero & Hvalid).
  split; [assumption|]. split; [assumption|]. split; [assumption|]. split; [assumption|].
  destruct (Blockchain.blocks Example.fresh) as [|genesis rest] eqn:E; [discriminate|].
  apply (Hvalid (Example.now + 71207)%Z
           [Example.reward (Example.now + 71207) "miner1" 5000000000] genesis).
  - unfold Example.unmined. rewrite E. reflexivity.
  - eexists _, []. split; [reflexivity|]. split; [reflexivity|].
    split; [intros tx []|]. intros tx [<-|[]]. vm_compute. reflexivity.
Defined.

(** ** The buckets of the index *)

Lemma FindUTXO_index (bc : Blockchain.t) (address : string) :
  Blockchain.FindUTXO bc address = Blockchain.index (Blockchain.utxoSet bc) address.
Proof.
  unfold Blockchain.FindUTXO, Blockchain.index.
  now destruct (Blockchain.utxoSet bc !! address).
Qed.

Lemma index_addOutput (u : gmap string (list TxOutput.t)) (o : TxOutput.t) (a : string) :
  Blockchain.index (Blockchain.addOutput u o) a
  = if decide (a = TxOutput.Address o) then (Blockchain.index u a ++ [o])%list
    else Blockchain.index u a.
Proof.
  unfold Blockchain.addOutput, Blockchain.index at 1. destruct (decide _) as [->|Hne].
  - now rewrite lookup_insert_eq.
  - rewrite lookup_insert_ne by congruence. reflexivity.
Qed.

Lemma spendInput_index (u : gmap string (list TxOutput.t)) (input : TxInput.t) :
  Blockchain.index (Blockchain.spendInput u input) (TxInput.PublicKey input)
  = skipn 1 (Blockchain.index u (TxInput.PublicKey input))
  /\ forall a, a <> TxInput.PublicKey input ->
       Blockchain.index (Blockchain.spendInput u input) a = Blockchain.index u a.
Proof.
  unfold Blockchain.spendInput.
  destruct (u !! TxInput.PublicKey input) as [[|o rest]|] eqn:E.
  - cbn. unfold Blockchain.index. rewrite E. split; reflexivity.
  - change (skipn 1 (o :: rest)) with rest.
    change (0 <? List.length (o :: rest))%nat with true. cbv iota.
    assert (Hnew : Blockchain.index (<[TxInput.PublicKey input := rest]> u)
                     (TxInput.PublicKey input) = rest).
    { unfold Blockchain.index. now rewrite lookup_insert_eq. }
    assert (Hold : Blockchain.index u (TxInput.PublicKey input) = o :: rest).
    { unfold Blockchain.index. now rewrite E. }
    rewrite Hnew, Hold. change (skipn 1 (o :: rest)) with rest.
    destruct rest as [|o' rest']; cbn [List.length Nat.eqb]; unfold Blockchain.index.
    + rewrite delete_insert_eq. split.
      * now rewrite lookup_delete_eq.
      * intros a Ha. now rewrite lookup_delete_ne by congruence.
    + split.
      * now rewrite lookup_insert_eq.
      * intros a Ha. now rewrite lookup_insert_ne by congruence.
  - unfold Blockchain.index. rewrite E. split; reflexivity.
Qed.

Lemma fold_addOutput_index (outputs : list TxOutput.t) (a : string) :
  forall u,
    Blockchain.index (fold_left Blockchain.addOutput outputs u) a
    = (Blockchain.index u a
       ++ List.filter (fun o => String.eqb (TxOutput.Address o) a) outputs)%list.
Proof.
  induction outputs as [|o rest IH]; intros u.
  - simpl. now rewrite app_nil_r.
  - cbn [fold_left List.filter]. rewrite IH, index_addOutput.
    destruct (decide (a = TxOutput.Address o)) as [->|Hne].
    + rewrite String.eqb_refl. now rewrite <- app_assoc.
    + destruct (String.eqb_spec (TxOutput.Address o) a); [congruence | reflexivity].
Qed.

Lemma fold_spendInput_buckets (inputs : list TxInput.t) (a : string) :
  forall u,
    Blockchain.index (fold_left Blockchain.spendInput inputs u) a
    = skipn (List.length
               (List.filter (fun i => String.eqb (TxInput.PublicKey i) a) inputs))
        (Blockchain.index u a).
Proof.
  induction inputs as [|input rest IH]; intros u; [reflexivity|].
  cbn [fold_left List.filter]. rewrite IH.
  destruct (spendInput_index u input) as [Hkey Hother].
  destruct (String.eqb_spec (TxInput.PublicKey input) a) as [<-|Hne].
  - rewrite Hkey. cbn [List.length]. apply (drop_drop _ _ 1).
  - now rewrite Hother by congruence.
Qed.

Lemma applyTransaction_bucket (u : gmap string (list TxOutput.t)) (tx : Transaction.t)
    (a : string) :
  Blockchain.index (Blockchain.applyTransaction u tx) a
  = bucket_after a (Blockchain.index u a) tx.
Proof.
  unfold Blockchain.applyTransaction, bucket_after. rewrite fold_addOutput_index. f_equal.
  unfold Transaction.IsCoinbase.
  destruct (Transaction.Inputs tx) as [|input rest]; cbn [List.length Nat.eqb negb].
  - reflexivity.
  - apply fold_spendInput_buckets.
Qed.

Lemma fold_applyTransaction_bucket (txs : list Transaction.t) (a : string) :
  forall u,
    Blockchain.index (fold_left Blockchain.applyTransaction txs u) a
    = fold_left (bucket_after a) txs (Blockchain.index u a).
Proof.
  induction txs as [|tx rest IH]; intros u; [reflexivity|].
  cbn [fold_left]. now rewrite IH, applyTransaction_bucket.
Qed.

(** The difficulty [adjustDifficulty] leaves, case by case, for a difficulty
    that [Mine] can meet. *)
Lemma adjusted_cases (d : N) (delta : Z) :
  (d <= 64)%N ->
  ((delta < 30)%Z -> adjusted d delta = (d + 1)%N)
  /\ ((60 < delta)%Z -> (1 < d)%N ->
      adjusted d delta = (d - 1)%N /\ (adjusted d delta + 1)%N = d)
  /\ ((30 <= delta)%Z -> (delta <= 60)%Z \/ (d <= 1)%N -> adjusted d delta = d).
Proof.
  intros Hd. unfold adjusted, Int.incr_u32, Int.decr_u32.
  assert (Hinc : ((d + 1) mod 2 ^ 32 = d + 1)%N) by (apply N.mod_small; lia).
  split; [|split].
  - intros Hlt. destruct (Z.ltb_spec delta 30); [assumption | lia].
  - intros Hgt Hd1. destruct (Z.ltb_spec delta 30); [lia|].
    destruct (Z.ltb_spec 60 delta); [|lia]. destruct (N.ltb_spec 1 d); [|lia]. simpl.
    replace (d + 2 ^ 32 - 1)%N with (d - 1 + 1 * 2 ^ 32)%N by lia.
    rewrite N.Div0.mod_add, N.mod_small by lia. lia.
  - intros Hge Hcase. destruct (Z.ltb_spec delta 30); [lia|].
    destruct (Z.ltb_spec 60 delta); destruct (N.ltb_spec 1 d); simpl; try reflexivity; lia.
Qed.

(** ** Appending a block *)

Lemma lookup_last_app (bs : list Block.t) (b : Block.t) :
  bs !! (List.length bs - 1)%nat = Some b -> exists pre, bs = (pre ++ [b])%list.
Proof.
  intros H. apply last_Some. rewrite last_lookup.
  now replace (Nat.pred (List.length bs)) with (List.length bs - 1)%nat by lia.
Qed.

Lemma adjustDifficulty_frame (bc : Blockchain.t) :
  Blockchain.blocks (Blockchain.adjustDifficulty bc) = Blockchain.blocks bc
  /\ Blockchain.utxoSet (Blockchain.adjustDifficulty bc) = Blockchain.utxoSet bc.
Proof.
  unfold Blockchain.adjustDifficulty.
  destruct (List.length (Blockchain.blocks bc) <? 2)%nat; [tauto|].
  destruct (Blockchain.blocks bc !! _) as [lastBlock|]; [|tauto].
  destruct (Blockchain.blocks bc !! _) as [prevBlock|]; [|tauto].
  destruct (_ <? 30)%Z; [tauto|]. destruct (_ && _); tauto.
Qed.

Lemma adjustDifficulty_last_two (bc : Blockchain.t) (pre : list Block.t)
    (prevBlock lastBlock : Block.t) :
  Blockchain.blocks bc = (pre ++ [prevBlock; lastBlock])%list ->
  Blockchain.difficulty (Blockchain.adjustDifficulty bc)
  = adjusted (Blockchain.difficulty bc)
      (Int.sub64 (BlockHeader.Timestamp (Block.Header lastBlock))
                 (BlockHeader.Timestamp (Block.Header prevBlock))).
Proof.
  intros Hblocks. unfold Blockchain.adjustDifficulty, adjusted. rewrite Hblocks.
  rewrite length_app. simpl List.length.
  destruct (Nat.ltb_spec (List.length pre + 2) 2) as [Hlt|_]; [lia|].
  replace (List.length pre + 2 - 1)%nat with (List.length pre + 1)%nat by lia.
  replace (List.length pre + 2 - 2)%nat with (List.length pre + 0)%nat by lia.
  rewrite !lookup_app_r by lia.
  replace (List.length pre + 1 - List.length pre)%nat with 1%nat by lia.
  replace (List.length pre + 0 - List.length pre)%nat with 0%nat by lia.
  simpl. destruct (_ <? 30)%Z; [reflexivity|]. now destruct (_ && _).
Qed.

Section Appending.
Variable json_Marshal : Transaction.t -> string.

Lemma AddBlock_returns (fuel : nat) (now : Z) (txs : list Transaction.t)
    (bc bc' : Blockchain.t) (r : option ChainError) :
  Blockchain.AddBlock json_Marshal fuel now txs bc = Returns (r, bc') ->
  exists lastBlock newBlock,
    Blockchain.blocks bc !! (List.length (Blockchain.blocks bc) - 1)%nat = Some lastBlock
    /\ Block.Mine fuel (Blockchain.difficulty bc)
         (Block.NewBlock now txs (BlockHeader.Hash (Block.Header lastBlock))
            (Int.add64 (BlockHeader.Height (Block.Header lastBlock)) 1))
       = Returns newBlock
    /\ match Block.Validate json_Marshal newBlock (Some lastBlock) with
       | Some err => r = Some (BlockValidationFailed err) /\ bc' = bc
       | None => r = None /\ bc' = appended bc newBlock
       end.
Proof.
  unfold Blockchain.AddBlock. intros H.
  destruct (Blockchain.blocks bc !! _) as [lastBlock|] eqn:Hlast; [|discriminate].
  destruct (Block.Mine _ _ _) as [newBlock| |] eqn:Hmine; try discriminate.
  exists lastBlock, newBlock. split; [reflexivity|]. split; [assumption|].
  destruct (Block.Validate _ _ _) as [err|].
  - injection H as <- <-. auto.
  - rewrite validateTransactions_none in H. injection H as <- <-. auto.
Qed.

(** What a call without error leaves behind. *)
Lemma AddBlock_success (fuel : nat) (now : Z) (txs : list Transaction.t)
    (bc bc' : Blockchain.t) :
  Blockchain.AddBlock json_Marshal fuel now txs bc = Returns (None, bc') ->
  exists tip newBlock,
    Blockchain.blocks bc !! (List.length (Blockchain.blocks bc) - 1)%nat = Some tip
    /\ Block.Mine fuel (Blockchain.difficulty bc)
         (Block.NewBlock now txs (BlockHeader.Hash (Block.Header tip))
            (Int.add64 (BlockHeader.Height (Block.Header tip)) 1))
       = Returns newBlock
    /\ Blockchain.blocks bc' = (Blockchain.blocks bc ++ [newBlock])%list
    /\ Blockchain.utxoSet bc'
       = fold_left Blockchain.applyTransaction (Block.Transactions newBlock)
           (Blockchain.utxoSet bc)
    /\ Blockchain.difficulty bc'
       = if (Z.rem (BlockHeader.Height (Block.Header newBlock)) 10 =? 0)%Z
         then adjusted (Blockchain.difficulty bc)
                (Int.sub64 (BlockHeader.Timestamp (Block.Header newBlock))
                           (BlockHeader.Timestamp (Block.Header tip)))
         else Blockchain.difficulty bc.
Proof.
  intros H. apply AddBlock_returns in H as (tip & newBlock & Htip & Hmine & H).
  destruct (Block.Validate json_Marshal newBlock (Some tip)) as [e|];
    destruct H as [H ->]; [discriminate|].
  exists tip, newBlock. split; [assumption|]. split; [assumption|]. unfold appended.
  destruct (Z.rem (BlockHeader.Height (Block.Header newBlock)) 10 =? 0)%Z.
  - destruct (adjustDifficulty_frame
                (Blockchain.updateUTXOSet newBlock
                   (Blockchain.with_blocks (Blockchain.blocks bc ++ [newBlock])%list bc)))
      as [-> ->].
    split; [reflexivity|]. split; [reflexivity|].
    destruct (lookup_last_app _ _ Htip) as [pre Hpre].
    now rewrite (adjustDifficulty_last_two _ pre tip newBlock)
      by (simpl; rewrite Hpre, <- app_assoc; reflexivity).
  - split; [reflexivity|]. split; reflexivity.
Qed.

(** C2: a call of [AddBlock] that returns an error leaves the chain state
    (blocks, difficulty and UTXO index) exactly as it was.  A call that
    returns without error has appended one block, the mined one, which
    carries the transactions passed at the height after the tip's.  It has
    updated the index: the bucket of every address is the old one after each
    of the transactions in turn, a transaction removing one entry, oldest
    first, per input of that address and appending its outputs to that
    address; the balances follow.  And it has recomputed the difficulty when
    the height of the new block is a multiple of 10 and only then: plus one
    when the new block is stamped less than 30 after the tip, minus one when
    more than 60 after it and the difficulty is above 1, unchanged
    otherwise. *)
Theorem AddBlock_all_or_nothing (fuel : nat) (now : Z) (txs : list Transaction.t)
    (bc bc' : Blockchain.t) (r : option ChainError) :
  Blockchain.AddBlock json_Marshal fuel now txs bc = Returns (r, bc') ->
  (forall err, r = Some err ->
     bc' = bc
     /\ Blockchain.blocks bc' = Blockchain.blocks bc
     /\ Blockchain.difficulty bc' = Blockchain.difficulty bc
     /\ Blockchain.utxoSet bc' = Blockchain.utxoSet bc)
  /\ (r = None ->
      exists tip newBlock,
        Blockchain.blocks bc !! (List.length (Blockchain.blocks bc) - 1)%nat = Some tip
        /\ Block.Mine fuel (Blockchain.difficulty bc)
             (Block.NewBlock now txs (BlockHeader.Hash (Block.Header tip))
                (Int.add64 (BlockHeader.Height (Block.Header tip)) 1))
           = Returns newBlock
        /\ Blockchain.blocks bc' = (Blockchain.blocks bc ++ [newBlock])%list
        /\ Block.Transactions newBlock = txs
        /\ BlockHeader.Height (Block.Header newBlock)
           = Int.add64 (BlockHeader.Height (Block.Header tip)) 1
        /\ BlockHeader.Timestamp (Block.Header newBlock) = now
        /\ (forall address,
              Blockchain.FindUTXO bc' address
              = fold_left (bucket_after address) txs (Blockchain.FindUTXO bc address))
        /\ (forall address,
              Blockchain.GetBalance bc' address
              = balance_from 0
                  (fold_left (bucket_after address) txs (Blockchain.FindUTXO bc address)))
        /\ Blockchain.utxoSet bc'
           = fold_left Blockchain.applyTransaction (Block.Transactions newBlock)
               (Blockchain.utxoSet bc)
        /\ (~ (10 | BlockHeader.Height (Block.Header newBlock))%Z ->
            Blockchain.difficulty bc' = Blockchain.difficulty bc)
        /\ ((10 | BlockHeader.Height (Block.Header newBlock))%Z ->
            let delta := Int.sub64 now (BlockHeader.Timestamp (Block.Header tip)) in
            let d := Blockchain.difficulty bc in
            let d' := Blockchain.difficulty bc' in
            d' = Blockchain.difficulty
                   (Blockchain.adjustDifficulty
                      (Blockchain.with_blocks (Blockchain.blocks bc ++ [newBlock])%list bc))
            /\ ((delta < 30)%Z -> d' = (d + 1)%N)
            /\ ((60 < delta)%Z -> (1 < d)%N -> d' = (d - 1)%N /\ (d' + 1)%N = d)
            /\ ((30 <= delta)%Z -> (delta <= 60)%Z \/ (d <= 1)%N -> d' = d))).
Proof.
  intros H. split.
  - intros err ->. apply AddBlock_returns in H as (tip & newBlock & _ & _ & H).
    destruct (Block.Validate json_Marshal newBlock (Some tip));
      destruct H as [H ->]; [auto | discriminate].
  - intros ->. apply AddBlock_success in H
      as (tip & newBlock & Htip & Hmine & Hblocks & Hutxo & Hd).
    pose proof (Mine_returns_difficulty _ _ _ _ Hmine) as Hd64.
    destruct (Mine_returns _ _ _ _ Hmine) as ((_ & _ & _ & Htime & _ & Hheight & Htxs) & _).
    simpl in Htime, Hheight, Htxs.
    assert (Hfind : forall address,
              Blockchain.FindUTXO bc' address
              = fold_left (bucket_after address) txs (Blockchain.FindUTXO bc address)).
    { intros address. rewrite !FindUTXO_index, Hutxo, Htxs.
      apply fold_applyTransaction_bucket. }
    exists tip, newBlock. do 6 (split; [assumption|]).
    split; [assumption|]. split.
    { intros address. now rewrite GetBalance_FindUTXO, Hfind. }
    split; [assumption|]. rewrite Hd.
    destruct (Z.eqb_spec (Z.rem (BlockHeader.Height (Block.Header newBlock)) 10) 0)
      as [Hrem|Hrem].
    + split; [intros Hnot; apply Z.rem_divide in Hrem; [contradiction | lia]|].
      intros _. cbv zeta. split.
      * destruct (lookup_last_app _ _ Htip) as [pre Hpre].
        now rewrite (adjustDifficulty_last_two _ pre tip newBlock)
          by (simpl; rewrite Hpre, <- app_assoc; reflexivity).
      * rewrite Htime. now apply adjusted_cases.
    + split; [reflexivity|].
      intros Hdiv. apply Z.rem_divide in Hdiv; [contradiction | lia].
Qed.

(** C4: in a successful [AddBlock] the difficulty changes only if the height
    of the appended block is a multiple of 10, and then by the time between
    the appended block and the previous tip alone: plus one when it is under
    30, minus one when it is over 60 and the difficulty is above 1, and no
    change otherwise (30, 60 and everything between them included). *)
Theorem AddBlock_adjusts_difficulty (fuel : nat) (now : Z) (txs : list Transaction.t)
    (bc bc' : Blockchain.t) :
  Blockchain.AddBlock json_Marshal fuel now txs bc = Returns (None, bc') ->
  exists tip newBlock,
    Blockchain.blocks bc !! (List.length (Blockchain.blocks bc) - 1)%nat = Some tip
    /\ Blockchain.blocks bc' = (Blockchain.blocks bc ++ [newBlock])%list
    /\ BlockHeader.Height (Block.Header newBlock)
       = Int.add64 (BlockHeader.Height (Block.Header tip)) 1
    /\ BlockHeader.Timestamp (Block.Header newBlock) = now
    /\ let delta := Int.sub64 (BlockHeader.Timestamp (Block.Header newBlock))
                              (BlockHeader.Timestamp (Block.Header tip)) in
       let d := Blockchain.difficulty bc in
       let d' := Blockchain.difficulty bc' in
       (~ (10 | BlockHeader.Height (Block.Header newBlock))%Z -> d' = d)
       /\ ((10 | BlockHeader.Height (Block.Header newBlock))%Z ->
           ((delta < 30)%Z -> d' = (d + 1)%N)
           /\ ((60 < delta)%Z -> (1 < d)%N -> d' = (d - 1)%N /\ (d' + 1)%N = d)
           /\ ((30 <= delta)%Z -> (delta <= 60)%Z \/ (d <= 1)%N -> d' = d)).
Proof.
  intros H. apply AddBlock_success in H
    as (tip & newBlock & Htip & Hmine & Hblocks & _ & Hd').
  exists tip, newBlock. split; [assumption|]. split; [assumption|].
  pose proof (Mine_returns_difficulty _ _ _ _ Hmine) as Hd.
  destruct (Mine_returns _ _ _ _ Hmine) as ((_ & _ & _ & Htime & _ & Hheight & _) & _).
  simpl in Htime, Hheight.
  split; [assumption|]. split; [assumption|]. cbv zeta. rewrite Hd'.
  destruct (Z.eqb_spec (Z.rem (BlockHeader.Height (Block.Header newBlock)) 10) 0)
    as [Hrem|Hrem].
  2:{ split; [reflexivity|].
      intros Hdiv. apply Z.rem_divide in Hdiv; [contradiction | lia]. }
  split; [intros Hnot; apply Z.rem_divide in Hrem; [contradiction | lia]|].
  intros _. unfold adjusted, Int.incr_u32, Int.decr_u32.
  set (delta := Int.sub64 _ _). set (d := Blockchain.difficulty bc) in *.
  assert (Hinc : ((d + 1) mod 2 ^ 32 = d + 1)%N) by (apply N.mod_small; lia).
  split; [|split].
  - intros Hlt. destruct (Z.ltb_spec delta 30); [assumption | lia].
  - intros Hgt Hd1. destruct (Z.ltb_spec delta 30); [lia|].
    destruct (Z.ltb_spec 60 delta); [|lia]. destruct (N.ltb_spec 1 d); [|lia]. simpl.
    replace (d + 2 ^ 32 - 1)%N with (d - 1 + 1 * 2 ^ 32)%N by lia.
    rewrite N.Div0.mod_add, N.mod_small by lia. lia.
  - intros Hge Hcase. destruct (Z.ltb_spec delta 30); [lia|].
    destruct (Z.ltb_spec 60 delta); destruct (N.ltb_spec 1 d); simpl; try reflexivity; lia.
Qed.

End Appending.

(** An empty list on the fresh chain is refused and the chain kept; a
    coinbase for "miner1" is appended as the second block, the reward is the
    bucket of "miner1", the bucket of "genesis" is as before, and the
    difficulty stays at 4 at height 1.  On the chain of nine blocks the tenth
    block, stamped 10 after the ninth, raises the difficulty to 5. *)
Lemma AddBlock_all_or_nothing_witness :
  Blockchain.AddBlock Json.Marshal 2 (Example.now + 175086) [] Example.fresh
  = Returns (Some (BlockValidationFailed NoTransactions), Example.fresh)
  /\ (exists bc',
        Blockchain.AddBlock Json.Marshal 2 (Example.now + 71207)
          [Example.reward (Example.now + 71207) "miner1" 5000000000] Example.fresh
        = Returns (None, bc')
        /\ List.length (Blockchain.blocks bc') = 2%nat
        /\ Blockchain.FindUTXO bc' "miner1" = [TxOutput.mk 5000000000 "miner1"]
        /\ Blockchain.FindUTXO bc' "genesis" = [TxOutput.mk 5000000000 "genesis"]
        /\ Blockchain.GetBalance bc' "miner1" = 5000000000%Z
        /\ Blockchain.difficulty bc' = 4%N)
  /\ exists bc',
       Blockchain.AddBlock Json.Marshal 2 (Example.now + 372477)
         [Example.reward (Example.now + 372477) "miner120215" 5000000000] Example.nine
       = Returns (None, bc')
       /\ Blockchain.difficulty bc' = 5%N.
Proof.
  split; [|split].
  - assert (H : exists bc',
               Blockchain.AddBlock Json.Marshal 2 (Example.now + 175086) [] Example.fresh
               = Returns (Some (BlockValidationFailed NoTransactions), bc')).
    { eexists. vm_compute. reflexivity. }
    destruct H as [bc' H]. rewrite H. do 2 f_equal.
    now apply (proj1 (AddBlock_all_or_nothing Json.Marshal _ _ _ _ _ _ H)
                 (BlockValidationFailed NoTransactions)).
  - assert (H : exists bc',
               Blockchain.AddBlock Json.Marshal 2 (Example.now + 71207)
                 [Example.reward (Example.now + 71207) "miner1" 5000000000] Example.fresh
               = Returns (None, bc')).
    { eexists. vm_compute. reflexivity. }
    destruct H as [bc' H]. exists bc'. split; [assumption|].
    destruct (AddBlock_all_or_nothing Json.Marshal _ _ _ _ _ _ H) as [_ Hok].
    destruct (Hok eq_refl)
      as (tip & newBlock & Htip & _ & Hblocks & _ & Hheight & _ & Hfind & Hbal & _ & Hkeep & _).
    split; [rewrite Hblocks, length_app; reflexivity|].
    split; [rewrite Hfind; vm_compute; reflexivity|].
    split; [rewrite Hfind; vm_compute; reflexivity|].
    split; [rewrite Hbal; vm_compute; reflexivity|].
    rewrite Hkeep; [reflexivity|].
    rewrite Hheight. vm_compute in Htip. injection Htip as <-.
    intros [k Hk].
    match type of Hk with
    | ?x = _ => let v := eval vm_compute in x in change x with v in Hk
    end.
    lia.
  - assert (Hd : Blockchain.difficulty Example.nine = 4%N) by (vm_compute; reflexivity).
    assert (H : exists bc',
               Blockchain.AddBlock Json.Marshal 2 (Example.now + 372477)
                 [Example.reward (Example.now + 372477) "miner120215" 5000000000]
                 Example.nine
               = Returns (None, bc')).
    { eexists. vm_compute. reflexivity. }
    destruct H as [bc' H]. exists bc'. split; [assumption|].
    destruct (AddBlock_all_or_nothing Json.Marshal _ _ _ _ _ _ H) as [_ Hok].
    destruct (Hok eq_refl)
      as (tip & newBlock & Htip & _ & _ & _ & Hheight & _ & _ & _ & _ & _ & Hrule).
    rewrite Hheight in Hrule. cbv zeta in Hrule. rewrite Hd in Hrule.
    assert (Htip' : BlockHeader.Height (Block.Header tip) = 9%Z
                    /\ BlockHeader.Timestamp (Block.Header tip)
                       = (Example.now + 372467)%Z).
    { vm_compute in Htip. injection Htip as <-. split; reflexivity. }
    destruct Htip' as [Hh Ht]. rewrite Hh, Ht in Hrule.
    destruct Hrule as (_ & Hup & _).
    + exists 1%Z. reflexivity.
    + apply Hup. vm_compute. reflexivity.
Defined.

Lemma AddBlock_adjusts_difficulty_witness :
  Blockchain.difficulty Example.nine = 4%N
  /\ exists bc',
       Blockchain.AddBlock Json.Marshal 2 (Example.now + 372477)
         [Example.reward (Example.now + 372477) "miner120215" 5000000000] Example.nine
       = Returns (None, bc')
       /\ Blockchain.difficulty bc' = 5%N.
Proof.
  assert (Hd : Blockchain.difficulty Example.nine = 4%N) by (vm_compute; reflexivity).
  split; [assumption|].
  assert (H : exists bc',
             Blockchain.AddBlock Json.Marshal 2 (Example.now + 372477)
               [Example.reward (Example.now + 372477) "miner120215" 5000000000] Example.nine
             = Returns (None, bc')).
  { eexists. vm_compute. reflexivity. }
  destruct H as [bc' H]. exists bc'. split; [assumption|].
  destruct (AddBlock_adjusts_difficulty Json.Marshal _ _ _ _ _ H)
    as (tip & newBlock & Htip & _ & Hheight & Htime & Hrule).
  cbv zeta in Hrule. destruct Hrule as [_ Hrule].
  rewrite Hheight, Htime, Hd in Hrule.
  assert (Htip' : BlockHeader.Height (Block.Header tip) = 9%Z
                  /\ BlockHeader.Timestamp (Block.Header tip) = (Example.now + 372467)%Z).
  { vm_compute in Htip. injection Htip as <-. split; reflexivity. }
  destruct Htip' as [Hh Ht]. rewrite Hh, Ht in Hrule.
  apply Hrule.
  - exists 1%Z. reflexivity.
  - vm_compute. reflexivity.
Defined.

(** ** Validating the chain *)

Section ChainValidation.
Variable json_Marshal : Transaction.t -> string.

Lemma validateFrom_none (blocks : list Block.t) (remaining : nat) :
  forall i,
    Blockchain.validateFrom json_Marshal blocks i remaining = Returns None ->
    forall j, (i <= j < i + remaining)%nat -> valid_at json_Marshal blocks j.
Proof.
  induction remaining as [|remaining IH]; intros i H j Hj; [lia|]. simpl in H.
  destruct (blocks !! i) as [cur|] eqn:Hcur; [|discriminate].
  destruct (blocks !! (i - 1)%nat) as [prev|] eqn:Hprev; [|discriminate].
  destruct (Block.Validate json_Marshal cur (Some prev)) eqn:Hv; [discriminate|].
  destruct (Nat.eq_dec j i) as [->|Hne].
  - exists cur, prev. auto.
  - apply (IH (S i) H). lia.
Qed.

Lemma validateFrom_first_failure (blocks : list Block.t) (i : nat)
    (currentBlock previousBlock : Block.t) (err : BlockError) :
  blocks !! i = Some currentBlock ->
  blocks !! (i - 1)%nat = Some previousBlock ->
  Block.Validate json_Marshal currentBlock (Some previousBlock) = Some err ->
  forall remaining start,
    (start <= i < start + remaining)%nat ->
    (forall j, (start <= j < i)%nat -> valid_at json_Marshal blocks j) ->
    Blockchain.validateFrom json_Marshal blocks start remaining
    = Returns (Some (BlockInvalidAt i err)).
Proof.
  intros Hcur Hprev Hv. induction remaining as [|remaining IH]; intros start Hi Hbefore; [lia|].
  simpl. destruct (Nat.eq_dec start i) as [->|Hne].
  - now rewrite Hcur, Hprev, Hv.
  - destruct (Hbefore start ltac:(lia)) as (cur & prev & -> & -> & ->).
    apply IH; [lia|]. intros j Hj. apply Hbefore. lia.
Qed.

Lemma tampered_block_fails (m : Tamper) (b previousBlock : Block.t) :
  Block.Validate json_Marshal b (Some previousBlock) = None ->
  changes m b ->
  exists err, Block.Validate json_Marshal (tamper m b) (Some previousBlock) = Some err.
Proof.
  intros Hvalid Hchange.
  apply Validate_none_iff in Hvalid as (Hhash & Hlink & Hroot & _).
  destruct (Hlink previousBlock eq_refl) as [Hprev Hheight].
  destruct (Block.Validate json_Marshal (tamper m b) (Some previousBlock)) as [err|] eqn:Hv;
    [eauto|].
  exfalso.
  apply Validate_none_iff in Hv as (Hhash' & Hlink' & Hroot' & _).
  destruct (Hlink' previousBlock eq_refl) as [Hprev' Hheight'].
  destruct m as [x|x|x|x]; simpl in *.
  - apply Hchange. congruence.
  - apply Hchange. rewrite Hhash', Hhash. reflexivity.
  - apply Hchange. rewrite Hroot', Hroot. reflexivity.
  - apply Hchange. congruence.
Qed.

(** C8: on a chain that [ValidateChain] accepts, giving the previous hash,
    the hash, the merkle root or the height of the block at an index
    [i > 0] any other value makes [ValidateChain] fail, and the failure it
    reports is the one of block [i]. *)
Theorem ValidateChain_detects_tampering (bc : Blockchain.t) (i : nat) (b : Block.t)
    (m : Tamper) :
  Blockchain.ValidateChain json_Marshal bc = Returns None ->
  (0 < i)%nat ->
  Blockchain.blocks bc !! i = Some b ->
  changes m b ->
  exists err,
    Blockchain.ValidateChain json_Marshal
      (Blockchain.with_blocks (<[i := tamper m b]> (Blockchain.blocks bc)) bc)
    = Returns (Some (BlockInvalidAt i err)).
Proof.
  unfold Blockchain.ValidateChain. intros Hvalid Hi Hb Hchange.
  pose proof (lookup_lt_Some _ _ _ Hb) as Hlen.
  pose proof (validateFrom_none _ _ _ Hvalid) as Hall.
  destruct (Hall i ltac:(lia)) as (cur & prev & Hcur & Hprev & Hv).
  assert (cur = b) by congruence. subst cur.
  destruct (tampered_block_fails m b prev Hv Hchange) as [err Herr].
  exists err. simpl Blockchain.blocks. rewrite length_insert.
  apply (validateFrom_first_failure _ i (tamper m b) prev err).
  - now apply list_lookup_insert_eq.
  - rewrite list_lookup_insert_ne by lia. assumption.
  - assumption.
  - lia.
  - intros j Hj. destruct (Hall j ltac:(lia)) as (cur' & prev' & Hc' & Hp' & Hv').
    exists cur', prev'. rewrite !list_lookup_insert_ne by lia. auto.
Qed.

End ChainValidation.

Lemma ValidateChain_detects_tampering_witness :
  Blockchain.ValidateChain Json.Marshal Example.overdrawn = Returns None
  /\ exists b err,
       Blockchain.blocks Example.overdrawn !! 1%nat = Some b
       /\ BlockHeader.Height (Block.Header b) = 1%Z
       /\ Blockchain.ValidateChain Json.Marshal
            (Blockchain.with_blocks
               (<[1%nat := tamper (SetHeight 5) b]> (Blockchain.blocks Example.overdrawn))
               Example.overdrawn)
          = Returns (Some (BlockInvalidAt 1 err)).
Proof.
  assert (Hvalid : Blockchain.ValidateChain Json.Marshal Example.overdrawn = Returns None)
    by (vm_compute; reflexivity).
  split; [assumption|].
  assert (H : exists b, Blockchain.blocks Example.overdrawn !! 1%nat = Some b
                        /\ BlockHeader.Height (Block.Header b) = 1%Z).
  { eexists. split; vm_compute; reflexivity. }
  destruct H as (b & Hb & Hheight).
  destruct (ValidateChain_detects_tampering Json.Marshal Example.overdrawn 1 b (SetHeight 5)
              Hvalid ltac:(lia) Hb) as [err Herr].
  - simpl. rewrite Hheight. discriminate.
  - exists b, err. auto.
Defined.

(** * Further properties of the code *)

(** ** The nonce search finds the first valid nonce *)

Lemma iter_bump_shift (k : nat) (b : Block.t) :
  Nat.iter k bump (bump b) = Nat.iter (S k) bump b.
Proof. symmetry. apply Nat.iter_succ_r. Qed.

Lemma mineLoop_first (fuel : nat) (target : string) :
  forall b b',
    Block.mineLoop fuel target b = Returns b' ->
    exists k,
      (1 <= k <= fuel)%nat
      /\ b' = Block.SetHash (Block.calculateHash (Nat.iter k bump b)) (Nat.iter k bump b)
      /\ Block.isHashValid (Block.calculateHash (Nat.iter k bump b)) target = Returns true
      /\ (forall j, (1 <= j < k)%nat ->
            Block.isHashValid (Block.calculateHash (Nat.iter j bump b)) target
            = Returns false).
Proof.
  induction fuel as [|fuel IH]; intros b b' H; [discriminate|].
  cbn [Block.mineLoop] in H. fold (bump b) in H.
  destruct (Block.isHashValid (Block.calculateHash (bump b)) target) as [[|]| |] eqn:Hv;
    try discriminate.
  - injection H as <-. exists 1%nat. split; [lia|]. split; [reflexivity|].
    split; [assumption|]. intros j Hj. lia.
  - destruct (IH _ _ H) as (k & Hk & -> & Hok & Hbefore).
    exists (S k). rewrite <- !iter_bump_shift. split; [lia|]. split; [reflexivity|].
    split; [assumption|]. intros j Hj. destruct j as [|[|j]]; [lia|assumption|].
    rewrite <- iter_bump_shift. apply Hbefore. lia.
Qed.

Lemma mineLoop_run (target : string) (k : nat) :
  forall b fuel,
    (1 <= k <= fuel)%nat ->
    Block.isHashValid (Block.calculateHash (Nat.iter k bump b)) target = Returns true ->
    (forall j, (1 <= j < k)%nat ->
       Block.isHashValid (Block.calculateHash (Nat.iter j bump b)) target = Returns false) ->
    Block.mineLoop fuel target b
    = Returns (Block.SetHash (Block.calculateHash (Nat.iter k bump b)) (Nat.iter k bump b)).
Proof.
  induction k as [|k IH]; intros b fuel Hk Hok Hbefore; [lia|].
  destruct fuel as [|fuel]; [lia|]. cbn [Block.mineLoop]. fold (bump b).
  destruct k as [|k].
  - change (Nat.iter 1 bump b) with (bump b) in *. now rewrite Hok.
  - pose proof (Hbefore 1%nat ltac:(lia)) as H1.
    change (Nat.iter 1 bump b) with (bump b) in H1. rewrite H1, <- iter_bump_shift.
    apply IH; [lia | now rewrite iter_bump_shift |].
    intros j Hj. rewrite iter_bump_shift. apply Hbefore. lia.
Qed.

Lemma iter_bump_nonce (k : nat) (b : Block.t) :
  (BlockHeader.Nonce (Block.Header b) < 2 ^ 64)%N ->
  BlockHeader.Nonce (Block.Header (Nat.iter k bump b))
  = ((BlockHeader.Nonce (Block.Header b) + N.of_nat k) mod 2 ^ 64)%N.
Proof.
  intros Hb. induction k as [|k IH].
  - simpl. rewrite N.add_0_r. symmetry. now apply N.mod_small.
  - rewrite Nat.iter_succ. unfold bump at 1. cbn [Block.Header Block.with_Header
      BlockHeader.Nonce BlockHeader.with_Nonce]. rewrite IH. unfold Int.incr_u64.
    rewrite N.Div0.add_mod_idemp_l. f_equal. lia.
Qed.

Lemma substring_zeros (n : nat) (tail : string) :
  substring 0 n (zeros n ++ tail) = zeros n.
Proof.
  induction n as [|n IH].
  - change (zeros 0 ++ tail) with tail. now destruct tail.
  - cbn [zeros]. rewrite string_app_cons. cbn [substring]. now rewrite IH.
Qed.

(** X1: when [Mine] returns, it returns the block of the first turn [k] of
    its loop whose hash starts with [difficulty] zeros: the hash of every
    earlier turn does not; the nonce it stores is the starting nonce plus
    [k] (modulo 2^64); and any larger fuel gives the same block, so the
    result does not depend on the fuel of the model. *)
Theorem Mine_first_valid_nonce (fuel : nat) (difficulty : N) (b b' : Block.t) :
  Block.Mine fuel difficulty b = Returns b' ->
  exists k,
    (1 <= k <= fuel)%nat
    /\ b' = Block.SetHash (Block.calculateHash (candidate difficulty b k))
              (candidate difficulty b k)
    /\ (exists tail,
          Block.calculateHash (candidate difficulty b k)
          = zeros (N.to_nat difficulty) ++ tail)
    /\ (forall j, (1 <= j < k)%nat ->
          forall tail,
            Block.calculateHash (candidate difficulty b j)
            <> zeros (N.to_nat difficulty) ++ tail)
    /\ ((BlockHeader.Nonce (Block.Header b) < 2 ^ 64)%N ->
        BlockHeader.Nonce (Block.Header b')
        = ((BlockHeader.Nonce (Block.Header b) + N.of_nat k) mod 2 ^ 64)%N)
    /\ (forall fuel', (k <= fuel')%nat -> Block.Mine fuel' difficulty b = Returns b').
Proof.
  unfold Block.Mine. intros H.
  pose proof (Mine_returns_difficulty fuel difficulty b b' H) as Hd.
  destruct (mineLoop_first _ _ _ _ H) as (k & Hk & -> & Hok & Hbefore).
  fold (candidate difficulty b k) in *. exists k. split; [assumption|].
  split; [reflexivity|]. split; [|split; [|split]].
  - rewrite isHashValid_in_bounds in Hok by assumption. injection Hok as Hok.
    apply String.eqb_eq in Hok. rewrite getTarget_zeros in Hok.
    apply substring_prefix. now rewrite zeros_length.
  - intros j Hj tail Heq. specialize (Hbefore j Hj).
    fold (candidate difficulty b j) in Hbefore.
    rewrite isHashValid_in_bounds in Hbefore by assumption. injection Hbefore as Hbefore.
    apply String.eqb_neq in Hbefore. apply Hbefore. rewrite getTarget_zeros, Heq.
    apply substring_zeros.
  - intros Hb. cbn [Block.SetHash Block.with_Header Block.Header BlockHeader.with_Hash
      BlockHeader.Nonce]. unfold candidate. now rewrite iter_bump_nonce.
  - intros fuel' Hfuel. apply (mineLoop_run _ k); [lia | assumption | assumption].
Qed.

Lemma Mine_first_valid_nonce_witness :
  exists b',
    Block.Mine 2 4 Example.unmined = Returns b'
    /\ Block.Mine 1000 4 Example.unmined = Returns b'.
Proof.
  assert (H : exists b', Block.Mine 2 4 Example.unmined = Returns b').
  { eexists. vm_compute. reflexivity. }
  destruct H as [b' H]. exists b'. split; [assumption|].
  destruct (Mine_first_valid_nonce 2 4 Example.unmined b' H) as (k & Hk & _ & _ & _ & _ & Hfuel).
  apply Hfuel. lia.
Defined.

(** ** What [AddBlock] can fail on *)

Lemma filter_nil_none (txs : list Transaction.t) :
  List.filter Transaction.IsCoinbase txs = [] ->
  forall tx, In tx txs -> Transaction.IsCoinbase tx = false.
Proof.
  induction txs as [|tx' rest IH]; intros H tx Hin; [contradiction|]. simpl in H.
  destruct (Transaction.IsCoinbase tx') eqn:E; [discriminate|].
  destruct Hin as [<-|Hin]; auto.
Qed.

Section AppendingOutcome.
Variable json_Marshal : Transaction.t -> string.

(** The block [AddBlock] validates: assembled by [NewBlock], then mined. *)
Lemma mined_block (fuel : nat) (d : N) (now : Z) (txs : list Transaction.t)
    (previousHash : string) (height : Z) (newBlock : Block.t) :
  Block.Mine fuel d (Block.NewBlock now txs previousHash height) = Returns newBlock ->
  Block.Transactions newBlock = txs
  /\ BlockHeader.Hash (Block.Header newBlock) = Block.calculateHash newBlock
  /\ BlockHeader.PreviousHash (Block.Header newBlock) = previousHash
  /\ BlockHeader.Height (Block.Header newBlock) = height
  /\ BlockHeader.MerkleRoot (Block.Header newBlock) = Block.calculateMerkleRoot newBlock
  /\ BlockHeader.Timestamp (Block.Header newBlock) = now
  /\ BlockHeader.Difficulty (Block.Header newBlock) = d
  /\ (d <= 64)%N
  /\ exists tail, BlockHeader.Hash (Block.Header newBlock) = zeros (N.to_nat d) ++ tail.
Proof.
  intros H. pose proof (Mine_returns_difficulty _ _ _ _ H) as Hd.
  destruct (Mine_returns _ _ _ _ H)
    as ((_ & Hprev & Hroot & Htime & Hdiff & Hheight & Htxs) & Hhash & Hzeros).
  simpl in *. repeat split; try assumption.
  rewrite Hroot. unfold Block.calculateMerkleRoot. now rewrite Htxs.
Qed.

(** On such a block only the checks on the transaction list can fail. *)
Lemma mined_block_checks (b tip : Block.t) :
  BlockHeader.Hash (Block.Header b) = Block.calculateHash b ->
  BlockHeader.PreviousHash (Block.Header b) = BlockHeader.Hash (Block.Header tip) ->
  BlockHeader.Height (Block.Header b) = Int.add64 (BlockHeader.Height (Block.Header tip)) 1 ->
  BlockHeader.MerkleRoot (Block.Header b) = Block.calculateMerkleRoot b ->
  first_failure (spec_checks json_Marshal b (Some tip))
  = first_failure (skipn 3 (spec_checks json_Marshal b (Some tip))).
Proof.
  intros Hhash Hprev Hheight Hroot. unfold spec_checks. cbn [first_failure skipn].
  rewrite Hhash at 1. rewrite String.eqb_refl. rewrite Hprev at 1. rewrite String.eqb_refl.
  rewrite Hheight at 1. rewrite Z.eqb_refl. rewrite Hroot at 1. rewrite String.eqb_refl.
  reflexivity.
Qed.

Lemma transaction_checks_well_formed (b : Block.t) (p : option Block.t) :
  first_failure (skipn 3 (spec_checks json_Marshal b p)) = None
  <-> well_formed json_Marshal (Block.Transactions b).
Proof.
  unfold spec_checks, well_formed. cbn [skipn first_failure].
  destruct (Block.Transactions b) as [|first rest].
  - simpl. split; [discriminate|]. intros (f & r & H & _). discriminate.
  - cbn [List.length Nat.eqb negb].
    destruct (Transaction.IsCoinbase first) eqn:Hfirst.
    2:{ split; [discriminate|]. intros (f & r & [= <- <-] & Hf & _). congruence. }
    destruct (forallb _ (first :: rest)) eqn:Hall.
    2:{ split; [discriminate|]. intros (f & r & [= <- <-] & _ & _ & Hvalid).
        assert (forallb (fun tx => bool_decide (Transaction.Validate json_Marshal tx = None))
                  (first :: rest) = true); [|congruence].
        apply forallb_forall. intros tx Hin. apply bool_decide_eq_true_2. auto. }
    cbn [List.filter]. rewrite Hfirst. cbn [List.length].
    destruct (Nat.eqb_spec (S (List.length (List.filter Transaction.IsCoinbase rest))) 1)
      as [Hone|Hmore].
    + split; [|reflexivity].
      intros _. exists first, rest. split; [reflexivity|]. split; [assumption|]. split.
      * apply filter_nil_none. apply length_zero_iff_nil. lia.
      * intros tx Hin. rewrite forallb_forall in Hall.
        eapply bool_decide_eq_true_1. now apply Hall.
    + split; [discriminate|].
      intros (f & r & [= <- <-] & _ & Hrest & _). exfalso. apply Hmore.
      now rewrite (filter_none rest Hrest).
Qed.

Lemma AddBlock_returns_transactions (fuel : nat) (now : Z)
    (txs : list Transaction.t) (bc bc' : Blockchain.t) (r : option ChainError) :
  Blockchain.AddBlock json_Marshal fuel now txs bc = Returns (r, bc') ->
  (r = None <-> well_formed json_Marshal txs).
Proof.
  intros H. apply AddBlock_returns in H as (tip & newBlock & _ & Hmine & H).
  destruct (mined_block _ _ _ _ _ _ _ Hmine)
    as (Htxs & Hhash & Hprev & Hheight & Hroot & _).
  pose proof (Validate_kind json_Marshal newBlock (Some tip)) as Hkind.
  rewrite (mined_block_checks _ _ Hhash Hprev Hheight Hroot) in Hkind.
  pose proof (transaction_checks_well_formed newBlock (Some tip)) as Hwf.
  rewrite Htxs in Hwf.
  destruct (Block.Validate json_Marshal newBlock (Some tip)) as [err|];
    destruct H as [-> ->]; cbn [option_map] in Hkind.
  - split; [discriminate|]. intros Hok. apply Hwf in Hok. congruence.
  - split; [|reflexivity]. intros _. now apply Hwf.
Qed.

(** X2: a call of [AddBlock] that returns succeeds exactly when the
    transaction list is well formed (a coinbase first, no other coinbase,
    every transaction valid); an error it returns is a block validation
    error about the transaction list, never one about the hash, the linkage
    or the merkle root of the block it has built itself. *)
Theorem AddBlock_fails_only_on_transactions (fuel : nat) (now : Z)
    (txs : list Transaction.t) (bc bc' : Blockchain.t) (r : option ChainError) :
  Blockchain.AddBlock json_Marshal fuel now txs bc = Returns (r, bc') ->
  (r = None <-> well_formed json_Marshal txs)
  /\ (forall e, r = Some e ->
        exists err,
          e = BlockValidationFailed err
          /\ (err = NoTransactions \/ err = FirstNotCoinbase
              \/ (exists cause, err = InvalidTransaction cause) \/ err = CoinbaseCount)).
Proof.
  intros H. split; [now apply (AddBlock_returns_transactions _ _ _ _ _ _ H)|].
  apply AddBlock_returns in H as (tip & newBlock & _ & Hmine & H).
  destruct (mined_block _ _ _ _ _ _ _ Hmine)
    as (Htxs & Hhash & Hprev & Hheight & Hroot & _).
  pose proof (Validate_kind json_Marshal newBlock (Some tip)) as Hkind.
  rewrite (mined_block_checks _ _ Hhash Hprev Hheight Hroot) in Hkind.
  destruct (Block.Validate json_Marshal newBlock (Some tip)) as [err|];
    destruct H as [-> ->]; cbn [option_map] in Hkind; [|discriminate].
  intros e [= <-]. exists err. split; [reflexivity|].
  unfold spec_checks in Hkind. cbn [skipn first_failure] in Hkind.
  destruct err; simpl in Hkind; eauto;
    repeat match type of Hkind with
           | Some _ = (if ?c then _ else _) => destruct c
           end; discriminate.
Qed.

(** A list whose first transaction has inputs is never appended. *)
Lemma AddBlock_spend_first (fuel : nat) (now : Z) (tx : Transaction.t)
    (rest : list Transaction.t) (bc bc' : Blockchain.t) (r : option ChainError) :
  Transaction.IsCoinbase tx = false ->
  Blockchain.AddBlock json_Marshal fuel now (tx :: rest) bc = Returns (r, bc') ->
  r = Some (BlockValidationFailed FirstNotCoinbase) /\ bc' = bc.
Proof.
  intros Hspend H. apply AddBlock_returns in H as (tip & newBlock & _ & Hmine & H).
  destruct (mined_block _ _ _ _ _ _ _ Hmine)
    as (Htxs & Hhash & Hprev & Hheight & Hroot & _).
  pose proof (Validate_kind json_Marshal newBlock (Some tip)) as Hkind.
  rewrite (mined_block_checks _ _ Hhash Hprev Hheight Hroot) in Hkind.
  unfold spec_checks in Hkind. cbn [skipn first_failure] in Hkind.
  rewrite Htxs in Hkind. cbn [List.length Nat.eqb negb] in Hkind. rewrite Hspend in Hkind.
  destruct (Block.Validate json_Marshal newBlock (Some tip)) as [err|];
    [|discriminate].
  destruct H as [-> ->]. split; [|reflexivity].
  destruct err; simpl in Hkind; try discriminate. reflexivity.
Qed.

End AppendingOutcome.

(** ** The transactions [CreateTransaction] builds *)

(** X3: for a positive amount, the transaction [CreateTransaction] returns
    passes [Transaction.Validate] and is no coinbase.  It has one input,
    naming no transaction, for each output of the shortest prefix of the
    bucket of [from] whose running sum reaches the amount, and its outputs
    sum to the value of that prefix. *)
Theorem CreateTransaction_builds_valid_spend (json_Marshal : Transaction.t -> string)
    (now : Z) (from to : string) (amount : Z) (bc : Blockchain.t) (tx : Transaction.t) :
  (0 < amount)%Z ->
  fst (Blockchain.CreateTransaction json_Marshal now from to amount bc) = (Some tx, None) ->
  Transaction.Validate json_Marshal tx = None
  /\ Transaction.IsCoinbase tx = false
  /\ Transaction.Timestamp tx = now
  /\ exists n,
       (1 <= n <= List.length (Blockchain.FindUTXO bc from))%nat
       /\ Transaction.Inputs tx = repeat (TxInput.mk "" 0 from "") n
       /\ (amount <= balance_from 0 (firstn n (Blockchain.FindUTXO bc from)))%Z
       /\ (forall m, (m < n)%nat ->
             (balance_from 0 (firstn m (Blockchain.FindUTXO bc from)) < amount)%Z)
       /\ Transaction.GetTotalOutput tx
          = balance_from 0 (firstn n (Blockchain.FindUTXO bc from)).
Proof.
  intros Hamount. unfold Blockchain.CreateTransaction. cbv zeta.
  destruct (collectInputs_prefix from amount (Blockchain.FindUTXO bc from) 0%Z [])
    as (n & Hn & -> & Hmin & _).
  set (total := balance_from 0 (firstn n (Blockchain.FindUTXO bc from))) in *.
  assert (Hrange : Int.in_int64 total).
  { apply balance_from_range. unfold Int.in_int64. lia. }
  destruct (Z.ltb_spec total amount) as [Hlt|Hge]; cbn [fst]; [discriminate|].
  intros [= <-].
  assert (Hn1 : (1 <= n)%nat).
  { destruct n as [|n]; [|lia]. subst total. simpl in Hge. lia. }
  assert (Hchange : Int.sub64 total amount = (total - amount)%Z).
  { unfold Int.sub64. apply wrap64_small. unfold Int.in_int64 in *. lia. }
  split; [|split; [|split]].
  - rewrite Validate_under_matching_id by reflexivity.
    unfold Transaction.NewTransaction, Transaction.with_ID, Transaction.IsCoinbase.
    cbn [Transaction.Inputs Transaction.Outputs app]. rewrite repeat_length.
    destruct n as [|n]; [lia|]. cbn [Nat.eqb].
    destruct (Z.ltb_spec amount total) as [Hlt|Heq]; cbn [app List.length Nat.eqb
      Transaction.checkOutputs TxOutput.Value].
    + rewrite Hchange.
      destruct (Z.leb_spec amount 0); [lia|]. destruct (Z.leb_spec (total - amount) 0); [lia|].
      reflexivity.
    + destruct (Z.leb_spec amount 0); [lia | reflexivity].
  - unfold Transaction.NewTransaction, Transaction.with_ID, Transaction.IsCoinbase.
    cbn [Transaction.Inputs app]. rewrite repeat_length. destruct n; [lia | reflexivity].
  - reflexivity.
  - exists n. split; [lia|]. split; [reflexivity|]. split; [assumption|].
    split; [assumption|].
    unfold Transaction.GetTotalOutput, Transaction.NewTransaction, Transaction.with_ID.
    cbn [Transaction.Outputs].
    assert (Hfirst : Int.add64 0 amount = amount).
    { unfold Int.add64. apply wrap64_small. unfold Int.in_int64 in *. lia. }
    destruct (Z.ltb_spec amount total) as [Hlt|Heq]; cbn [app fold_left TxOutput.Value].
    + rewrite Hfirst, Hchange. unfold Int.add64. rewrite wrap64_small; [lia|].
      now replace (amount + (total - amount))%Z with total by lia.
    + rewrite Hfirst. lia.
Qed.

(** X4: for an amount of zero or less [CreateTransaction] never fails,
    whatever the funds of [from]: it returns a transaction without inputs,
    which [Transaction.Validate] accepts (as a coinbase) exactly when the
    amount is zero. *)
Theorem CreateTransaction_without_amount (json_Marshal : Transaction.t -> string)
    (now : Z) (from to : string) (amount : Z) (bc : Blockchain.t) :
  (amount <= 0)%Z ->
  exists tx,
    fst (Blockchain.CreateTransaction json_Marshal now from to amount bc) = (Some tx, None)
    /\ Transaction.Inputs tx = []
    /\ Transaction.IsCoinbase tx = true
    /\ (Transaction.Validate json_Marshal tx = None <-> amount = 0%Z).
Proof.
  intros Hamount. unfold Blockchain.CreateTransaction. cbv zeta.
  assert (Hloop : Blockchain.collectInputs from amount (Blockchain.FindUTXO bc from) 0 []
                  = (0%Z, [])).
  { destruct (Blockchain.FindUTXO bc from) as [|utxo rest]; [reflexivity|]. simpl.
    destruct (Z.leb_spec amount 0); [reflexivity | lia]. }
  rewrite Hloop. destruct (Z.ltb_spec 0 amount) as [Hlt|_]; [lia|].
  eexists. split; [reflexivity|]. split; [reflexivity|]. split; [reflexivity|].
  rewrite Validate_under_matching_id by reflexivity.
  unfold Transaction.NewTransaction, Transaction.with_ID, Transaction.IsCoinbase.
  cbn [Transaction.Inputs Transaction.Outputs List.length Nat.eqb].
  destruct (Z.ltb_spec amount 0) as [Hneg|Hzero]; cbn [app List.length Nat.eqb negb].
  - split; [discriminate | lia].
  - split; [lia | reflexivity].
Qed.

(** X5: the node's handlers pass the transaction [CreateTransaction]
    returns to [AddBlock] as the only transaction of a block.  A call of
    [AddBlock] on it that returns appends the block exactly when the amount
    was zero; for a positive amount it returns the error "first transaction
    must be coinbase"; and whenever it returns an error the chain is as it
    was. *)
Theorem CreateTransaction_then_AddBlock (json_Marshal : Transaction.t -> string)
    (fuel : nat) (now now' : Z) (from to : string) (amount : Z)
    (bc bc' : Blockchain.t) (tx : Transaction.t) (r : option ChainError) :
  fst (Blockchain.CreateTransaction json_Marshal now from to amount bc) = (Some tx, None) ->
  Blockchain.AddBlock json_Marshal fuel now' [tx] bc = Returns (r, bc') ->
  (r = None <-> amount = 0%Z)
  /\ ((0 < amount)%Z -> r = Some (BlockValidationFailed FirstNotCoinbase))
  /\ (r <> None -> bc' = bc).
Proof.
  intros Hcreate Hadd.
  assert (Hspend : (0 < amount)%Z -> Transaction.IsCoinbase tx = false).
  { intros Hamount. revert Hcreate. unfold Blockchain.CreateTransaction. cbv zeta.
    destruct (collectInputs_prefix from amount (Blockchain.FindUTXO bc from) 0%Z [])
      as (n & _ & -> & _ & _).
    destruct (Z.ltb_spec (balance_from 0 (firstn n (Blockchain.FindUTXO bc from))) amount)
      as [Hlt|Hge]; cbn [fst]; [discriminate|].
    intros [= <-]. destruct n as [|n]; [simpl in Hge; lia | reflexivity]. }
  assert (Hfree : (amount <= 0)%Z ->
                  Transaction.IsCoinbase tx = true
                  /\ (Transaction.Validate json_Marshal tx = None <-> amount = 0%Z)).
  { intros Hamount. revert Hcreate. unfold Blockchain.CreateTransaction. cbv zeta.
    assert (Hloop : Blockchain.collectInputs from amount (Blockchain.FindUTXO bc from) 0 []
                    = (0%Z, [])).
    { destruct (Blockchain.FindUTXO bc from) as [|utxo rest]; [reflexivity|]. simpl.
      destruct (Z.leb_spec amount 0); [reflexivity | lia]. }
    rewrite Hloop. destruct (Z.ltb_spec 0 amount) as [Hlt|_]; [lia|]. cbn [fst].
    intros [= <-]. split; [reflexivity|].
    rewrite Validate_under_matching_id by reflexivity.
    unfold Transaction.NewTransaction, Transaction.with_ID, Transaction.IsCoinbase.
    cbn [Transaction.Inputs Transaction.Outputs List.length Nat.eqb].
    destruct (Z.ltb_spec amount 0) as [Hneg|Hzero]; cbn [app List.length Nat.eqb negb].
    - split; [discriminate | lia].
    - split; [lia | reflexivity]. }
  pose proof (AddBlock_returns_transactions json_Marshal _ _ _ _ _ _ Hadd) as Hiff.
  split; [|split].
  - rewrite Hiff. split.
    + intros (first & rest & [= <- <-] & Hcb & _ & Hvalid).
      destruct (Z.ltb_spec 0 amount) as [Hpos|Hle].
      * rewrite (Hspend Hpos) in Hcb. discriminate.
      * apply (Hfree Hle). apply Hvalid. simpl. auto.
    + intros ->. destruct (Hfree ltac:(lia)) as [Hcb Hvalid].
      exists tx, []. split; [reflexivity|]. split; [assumption|].
      split; [intros t []|]. intros t [<-|[]]. now apply Hvalid.
  - intros Hamount.
    now apply (AddBlock_spend_first json_Marshal _ _ _ _ _ _ _ (Hspend Hamount) Hadd).
  - intros Hr. apply AddBlock_returns in Hadd as (tip & newBlock & _ & _ & H).
    destruct (Block.Validate json_Marshal newBlock (Some tip)); destruct H as [Hr' Hbc];
      [assumption | congruence].
Qed.

(** ** The UTXO index *)

Lemma balance_from_snoc (balance : Z) (utxos : list TxOutput.t) (o : TxOutput.t) :
  balance_from balance (utxos ++ [o])
  = Int.add64 (balance_from balance utxos) (TxOutput.Value o).
Proof. unfold balance_from. now rewrite fold_left_app. Qed.

Lemma utxo_ok_addOutput (u : gmap string (list TxOutput.t)) (o : TxOutput.t) :
  utxo_ok u -> utxo_ok (Blockchain.addOutput u o).
Proof.
  intros Hu a outputs. unfold Blockchain.addOutput.
  destruct (decide (a = TxOutput.Address o)) as [->|Hne].
  - rewrite lookup_insert_eq. intros [= <-]. split; [now destruct (Blockchain.index u _)|].
    apply Forall_app. split; [|now repeat constructor].
    unfold Blockchain.index. destruct (u !! TxOutput.Address o) as [l|] eqn:E; [|constructor].
    now apply (Hu _ _ E).
  - rewrite lookup_insert_ne by congruence. apply Hu.
Qed.

Lemma utxo_ok_spendInput (u : gmap string (list TxOutput.t)) (input : TxInput.t) :
  utxo_ok u -> utxo_ok (Blockchain.spendInput u input).
Proof.
  intros Hu. unfold Blockchain.spendInput.
  destruct (u !! TxInput.PublicKey input) as [[|o rest]|] eqn:E; try assumption.
  change (skipn 1 (o :: rest)) with rest.
  change (0 <? List.length (o :: rest))%nat with true. cbv iota.
  unfold Blockchain.index. rewrite lookup_insert_eq.
  destruct (Hu _ _ E) as [_ Haddr]. apply Forall_inv_tail in Haddr.
  destruct rest as [|o' rest']; cbv [from_option id List.length Nat.eqb];
    intros a outputs.
  - rewrite delete_insert_eq. destruct (decide (a = TxInput.PublicKey input)) as [->|Hne].
    + now rewrite lookup_delete_eq.
    + rewrite lookup_delete_ne by congruence. apply Hu.
  - destruct (decide (a = TxInput.PublicKey input)) as [->|Hne].
    + rewrite lookup_insert_eq. intros [= <-]. split; [discriminate | assumption].
    + rewrite lookup_insert_ne by congruence. apply Hu.
Qed.

Lemma utxo_ok_applyTransaction (u : gmap string (list TxOutput.t)) (tx : Transaction.t) :
  utxo_ok u -> utxo_ok (Blockchain.applyTransaction u tx).
Proof.
  intros Hu. unfold Blockchain.applyTransaction.
  assert (Hin : utxo_ok (if negb (Transaction.IsCoinbase tx)
                         then fold_left Blockchain.spendInput (Transaction.Inputs tx) u
                         else u)).
  { destruct (negb _); [|assumption]. revert u Hu.
    induction (Transaction.Inputs tx) as [|i rest IH]; intros u Hu; [assumption|].
    simpl. apply IH. now apply utxo_ok_spendInput. }
  revert Hin. generalize (if negb (Transaction.IsCoinbase tx)
                          then fold_left Blockchain.spendInput (Transaction.Inputs tx) u
                          else u).
  induction (Transaction.Outputs tx) as [|o rest IH]; intros u' Hu'; [assumption|].
  simpl. apply IH. now apply utxo_ok_addOutput.
Qed.

Lemma utxo_ok_updateUTXOSet (block : Block.t) (bc : Blockchain.t) :
  utxo_ok (Blockchain.utxoSet bc) ->
  utxo_ok (Blockchain.utxoSet (Blockchain.updateUTXOSet block bc)).
Proof.
  unfold Blockchain.updateUTXOSet. cbn [Blockchain.utxoSet Blockchain.with_utxoSet].
  generalize (Blockchain.utxoSet bc).
  induction (Block.Transactions block) as [|tx rest IH]; intros u Hu; [assumption|].
  simpl. apply IH. now apply utxo_ok_applyTransaction.
Qed.

Lemma utxo_ok_empty : utxo_ok ∅.
Proof. intros a outputs H. now rewrite lookup_empty in H. Qed.

Section Index.
Variable json_Marshal : Transaction.t -> string.

Lemma reachable_utxo_ok (bc : Blockchain.t) :
  reachable json_Marshal bc -> utxo_ok (Blockchain.utxoSet bc).
Proof.
  induction 1 as [now_tx now|bc bc' fuel now txs r _ IH H].
  - unfold Blockchain.NewBlockchain. apply utxo_ok_updateUTXOSet. apply utxo_ok_empty.
  - apply AddBlock_returns in H as (tip & newBlock & _ & _ & H).
    destruct (Block.Validate json_Marshal newBlock (Some tip)); destruct H as [_ ->];
      [assumption|].
    unfold appended. destruct (_ =? 0)%Z.
    + destruct (adjustDifficulty_frame
                  (Blockchain.updateUTXOSet newBlock
                     (Blockchain.with_blocks (Blockchain.blocks bc ++ [newBlock])%list bc)))
        as [_ ->].
      now apply utxo_ok_updateUTXOSet.
    + now apply utxo_ok_updateUTXOSet.
Qed.

(** X6: on every chain reached through [NewBlockchain] and [AddBlock] the
    index that [updateUTXOSet] maintains is well formed: no bucket is left
    empty and a bucket holds only outputs addressed to its key.  So the
    outputs [FindUTXO] returns for an address are all addressed to it, and an
    address is a key of the index exactly when [FindUTXO] returns something
    for it. *)
Theorem updateUTXOSet_keeps_index_well_formed (bc : Blockchain.t) :
  reachable json_Marshal bc ->
  utxo_ok (Blockchain.utxoSet bc)
  /\ (forall address o,
        In o (Blockchain.FindUTXO bc address) -> TxOutput.Address o = address)
  /\ (forall address,
        is_Some (Blockchain.utxoSet bc !! address)
        <-> Blockchain.FindUTXO bc address <> []).
Proof.
  intros Hreach. pose proof (reachable_utxo_ok bc Hreach) as Hok.
  split; [assumption|]. split.
  - intros address o. unfold Blockchain.FindUTXO.
    destruct (Blockchain.utxoSet bc !! address) as [l|] eqn:E; [|contradiction].
    intros Hin. destruct (Hok _ _ E) as [_ Haddr].
    rewrite Forall_forall in Haddr. apply Haddr. now apply list_elem_of_In.
  - intros address. unfold Blockchain.FindUTXO.
    destruct (Blockchain.utxoSet bc !! address) as [l|] eqn:E.
    + split; [intros _; now apply (Hok _ _ E) | eauto].
    + split; [intros [x Hx]; discriminate | congruence].
Qed.

(** X7: a call of [AddBlock] with a single transaction that succeeds was
    given a coinbase with one output; afterwards that output is the last of
    the bucket of its address, whose balance has grown by its value (in
    [int64] arithmetic), and the bucket and the balance of every other
    address are as before. *)
Theorem AddBlock_credits_coinbase (fuel : nat) (now : Z) (tx : Transaction.t)
    (bc bc' : Blockchain.t) :
  Blockchain.AddBlock json_Marshal fuel now [tx] bc = Returns (None, bc') ->
  exists o,
    Transaction.Inputs tx = [] /\ Transaction.Outputs tx = [o]
    /\ Blockchain.FindUTXO bc' (TxOutput.Address o)
       = (Blockchain.FindUTXO bc (TxOutput.Address o) ++ [o])%list
    /\ Blockchain.GetBalance bc' (TxOutput.Address o)
       = Int.add64 (Blockchain.GetBalance bc (TxOutput.Address o)) (TxOutput.Value o)
    /\ (forall address,
          address <> TxOutput.Address o ->
          Blockchain.FindUTXO bc' address = Blockchain.FindUTXO bc address
          /\ Blockchain.GetBalance bc' address = Blockchain.GetBalance bc address).
Proof.
  intros H.
  pose proof (proj1 (AddBlock_returns_transactions json_Marshal _ _ _ _ _ _ H) eq_refl)
    as (first & rest & [= <- <-] & Hcb & _ & Hvalid).
  specialize (Hvalid tx ltac:(simpl; auto)).
  unfold Transaction.Validate in Hvalid. rewrite Hcb in Hvalid.
  destruct (negb (String.eqb _ _)); [discriminate|].
  destruct (Nat.eqb_spec (List.length (Transaction.Outputs tx)) 1) as [Hone|Hne];
    [|discriminate].
  destruct (Transaction.Outputs tx) as [|o [|o' l]] eqn:Houts; try discriminate.
  exists o. split.
  { unfold Transaction.IsCoinbase in Hcb. apply Nat.eqb_eq in Hcb.
    now apply length_zero_iff_nil. }
  split; [reflexivity|].
  apply AddBlock_success in H as (tip & newBlock & _ & Hmine & _ & Hutxo & _).
  destruct (mined_block _ _ _ _ _ _ _ Hmine) as (Htxs & _).
  rewrite Htxs in Hutxo. cbn [fold_left] in Hutxo.
  unfold Blockchain.applyTransaction in Hutxo. rewrite Hcb, Houts in Hutxo.
  cbn [negb fold_left] in Hutxo.
  assert (Hfind : forall a, Blockchain.FindUTXO bc' a
                            = if decide (a = TxOutput.Address o)
                              then (Blockchain.FindUTXO bc a ++ [o])%list
                              else Blockchain.FindUTXO bc a).
  { intros a. rewrite !FindUTXO_index, Hutxo. apply index_addOutput. }
  split; [|split].
  - rewrite Hfind. now destruct (decide _).
  - rewrite !GetBalance_FindUTXO, Hfind. destruct (decide _); [|congruence].
    apply balance_from_snoc.
  - intros a Ha. rewrite !GetBalance_FindUTXO, Hfind. now destruct (decide _).
Qed.

End Index.

(** ** Chains reached through the API *)

Lemma wrap64_succ (x : Z) : Int.add64 (Int.wrap64 x) 1 = Int.wrap64 (x + 1).
Proof.
  unfold Int.add64, Int.wrap64. f_equal.
  replace ((x + 2 ^ 63) mod 2 ^ 64 - 2 ^ 63 + 1 + 2 ^ 63)%Z
    with ((x + 2 ^ 63) mod 2 ^ 64 + 1)%Z by lia.
  rewrite Z.add_mod_idemp_l by lia. f_equal. lia.
Qed.

Lemma adjusted_bounds (d : N) (timeDiff : Z) :
  (1 <= d <= 64)%N -> (1 <= adjusted d timeDiff <= 65)%N.
Proof.
  intros Hd. unfold adjusted, Int.incr_u32, Int.decr_u32.
  assert (H32 : (2 ^ 32 = 4294967296)%N) by reflexivity.
  destruct (timeDiff <? 30)%Z.
  - rewrite N.mod_small; lia.
  - destruct (60 <? timeDiff)%Z; cbn [andb]; [|lia].
    destruct (N.ltb_spec 1 d) as [Hlt|Hge]; [|lia].
    replace (d + 2 ^ 32 - 1)%N with (d - 1 + 1 * 2 ^ 32)%N by lia.
    rewrite N.Div0.mod_add, N.mod_small; lia.
Qed.

Section Reached.
Variable json_Marshal : Transaction.t -> string.

Lemma validateFrom_complete (blocks : list Block.t) (remaining : nat) :
  forall i,
    (forall j, (i <= j < i + remaining)%nat -> valid_at json_Marshal blocks j) ->
    Blockchain.validateFrom json_Marshal blocks i remaining = Returns None.
Proof.
  induction remaining as [|remaining IH]; intros i H; [reflexivity|].
  cbn [Blockchain.validateFrom].
  destruct (H i ltac:(lia)) as (c & p & -> & -> & ->).
  apply IH. intros j Hj. apply H. lia.
Qed.

Lemma valid_at_app (blocks : list Block.t) (b : Block.t) (j : nat) :
  valid_at json_Marshal blocks j -> valid_at json_Marshal (blocks ++ [b])%list j.
Proof.
  intros (c & p & Hc & Hp & Hv). exists c, p.
  split; [|split; [|assumption]]; now apply lookup_app_l_Some.
Qed.

(** What every reached chain state satisfies. *)
Lemma reachable_invariant (bc : Blockchain.t) :
  reachable json_Marshal bc ->
  (1 <= List.length (Blockchain.blocks bc))%nat
  /\ (1 <= Blockchain.difficulty bc <= 65)%N
  /\ (forall j, (1 <= j < List.length (Blockchain.blocks bc))%nat ->
        valid_at json_Marshal (Blockchain.blocks bc) j)
  /\ (forall i b, Blockchain.blocks bc !! i = Some b ->
        BlockHeader.Height (Block.Header b) = Int.wrap64 (Z.of_nat i))
  /\ (forall i b, (1 <= i)%nat -> Blockchain.blocks bc !! i = Some b -> proof_of_work b).
Proof.
  induction 1 as [now_tx now|bc bc' fuel now txs r _ IH H].
  - unfold Blockchain.NewBlockchain, Blockchain.updateUTXOSet.
    cbn [Blockchain.blocks Blockchain.difficulty Blockchain.with_utxoSet List.length].
    split; [lia|]. split; [lia|]. split; [intros j Hj; lia|]. split.
    + intros [|i] b Hb; [|discriminate]. injection Hb as <-. reflexivity.
    + intros [|i] b Hi Hb; [lia | discriminate].
  - destruct IH as (Hlen & Hdiff & Hvalid & Hheight & Hpow).
    pose proof H as Hret.
    apply AddBlock_returns in Hret as (tip & newBlock & Htip & Hmine & Hres).
    destruct (Block.Validate json_Marshal newBlock (Some tip)) eqn:Hblock;
      destruct Hres as [-> Hbc'].
    { subst bc'. split; [assumption|]. split; [assumption|]. split; [assumption|].
      split; assumption. }
    apply AddBlock_success in H as (tip' & newBlock' & Htip' & Hmine' & Hblocks & _ & Hd').
    assert (tip' = tip) by congruence. subst tip'.
    assert (newBlock' = newBlock) by congruence. subst newBlock'.
    destruct (mined_block _ _ _ _ _ _ _ Hmine)
      as (_ & _ & _ & Hh & _ & _ & Hd & Hd64 & Hzeros).
    rewrite Hblocks, Hd', length_app. cbn [List.length].
    split; [lia|]. split; [|split; [|split]].
    + destruct (_ =? 0)%Z; [apply adjusted_bounds|]; lia.
    + intros j Hj. destruct (Nat.eq_dec j (List.length (Blockchain.blocks bc))) as [->|Hne].
      * exists newBlock, tip. split; [|split; [|assumption]].
        -- rewrite lookup_app_r by lia. now rewrite Nat.sub_diag.
        -- now apply lookup_app_l_Some.
      * apply valid_at_app, Hvalid. lia.
    + intros i b Hb. destruct (Nat.lt_ge_cases i (List.length (Blockchain.blocks bc)))
        as [Hlt|Hge].
      * rewrite lookup_app_l in Hb by assumption. now apply Hheight.
      * rewrite lookup_app_r in Hb by assumption.
        destruct (i - List.length (Blockchain.blocks bc))%nat as [|k] eqn:Hk;
          [|discriminate].
        injection Hb as <-. rewrite Hh, (Hheight _ _ Htip), wrap64_succ. f_equal. lia.
    + intros i b Hi Hb. destruct (Nat.lt_ge_cases i (List.length (Blockchain.blocks bc)))
        as [Hlt|Hge].
      * rewrite lookup_app_l in Hb by assumption. now apply (Hpow i).
      * rewrite lookup_app_r in Hb by assumption.
        destruct (i - List.length (Blockchain.blocks bc))%nat as [|k] eqn:Hk;
          [|discriminate].
        injection Hb as <-. unfold proof_of_work. cbv zeta. rewrite Hd.
        split; [lia | assumption].
Qed.

(** X8: every chain reached through [NewBlockchain] and [AddBlock] passes
    [ValidateChain], has a latest block and a height of zero or more. *)
Theorem reachable_chain_validates (bc : Blockchain.t) :
  reachable json_Marshal bc ->
  Blockchain.ValidateChain json_Marshal bc = Returns None
  /\ (exists tip, Blockchain.GetLatestBlock bc = Some tip)
  /\ (0 <= Blockchain.GetHeight bc)%Z.
Proof.
  intros Hreach. destruct (reachable_invariant bc Hreach) as (Hlen & _ & Hvalid & _).
  split; [|split].
  - unfold Blockchain.ValidateChain. apply validateFrom_complete.
    intros j Hj. apply Hvalid. lia.
  - unfold Blockchain.GetLatestBlock.
    destruct (Nat.eqb_spec (List.length (Blockchain.blocks bc)) 0) as [Hz|_]; [lia|].
    apply lookup_lt_is_Some. lia.
  - unfold Blockchain.GetHeight. lia.
Qed.

(** X9: on a reached chain the height recorded in a block is its index in
    the chain (as an [int64]): the block [GetBlock] returns for a height
    carries that height, and the latest block carries [GetHeight]. *)
Theorem reachable_heights (bc : Blockchain.t) :
  reachable json_Marshal bc ->
  (forall height b,
     Blockchain.GetBlock bc height = Returns (Some b, None) ->
     BlockHeader.Height (Block.Header b) = Int.wrap64 height)
  /\ (forall b,
        Blockchain.GetLatestBlock bc = Some b ->
        BlockHeader.Height (Block.Header b) = Int.wrap64 (Blockchain.GetHeight bc)).
Proof.
  intros Hreach. destruct (reachable_invariant bc Hreach) as (Hlen & _ & _ & Hheight & _).
  split.
  - intros height b. unfold Blockchain.GetBlock.
    destruct (Z.ltb_spec height 0) as [Hneg|Hpos]; [discriminate|].
    destruct (Z.leb_spec (Z.of_nat (List.length (Blockchain.blocks bc))) height);
      [discriminate|]. cbn [orb].
    destruct (Blockchain.blocks bc !! Z.to_nat height) as [b'|] eqn:E; [|discriminate].
    intros [= <-]. rewrite (Hheight _ _ E). f_equal. lia.
  - intros b. unfold Blockchain.GetLatestBlock, Blockchain.GetHeight.
    destruct (Nat.eqb_spec (List.length (Blockchain.blocks bc)) 0) as [Hz|_]; [lia|].
    intros E. rewrite (Hheight _ _ E). f_equal. lia.
Qed.

(** X10: on a reached chain every block after the genesis block carries its
    proof of work: the difficulty in its header is between 1 and 64 and its
    stored hash, which is the hash of its header, starts with that many
    zeros; and it names the stored hash of the block before it. *)
Theorem reachable_proof_of_work (bc : Blockchain.t) (i : nat) (b : Block.t) :
  reachable json_Marshal bc ->
  (1 <= i)%nat ->
  Blockchain.blocks bc !! i = Some b ->
  proof_of_work b
  /\ BlockHeader.Hash (Block.Header b) = Block.calculateHash b
  /\ exists previousBlock,
       Blockchain.blocks bc !! (i - 1)%nat = Some previousBlock
       /\ BlockHeader.PreviousHash (Block.Header b)
          = BlockHeader.Hash (Block.Header previousBlock).
Proof.
  intros Hreach Hi Hb.
  destruct (reachable_invariant bc Hreach) as (_ & _ & Hvalid & _ & Hpow).
  split; [now apply (Hpow i)|].
  destruct (Hvalid i) as (c & p & Hc & Hp & Hv).
  { split; [assumption|]. now apply lookup_lt_Some in Hb. }
  assert (c = b) by congruence. subst c.
  apply Validate_none_iff in Hv. destruct Hv as (Hhash & Hlink & _).
  split; [assumption|]. exists p. split; [assumption|]. now apply (Hlink p).
Qed.

(** X11: the difficulty of a reached chain is between 1 and 65.  While it
    is at most 64 no call of [AddBlock] panics; at 65 every call panics in
    the first turn of the nonce search. *)
Theorem reachable_difficulty (bc : Blockchain.t) :
  reachable json_Marshal bc ->
  (1 <= Blockchain.GetDifficulty bc <= 65)%N
  /\ ((Blockchain.GetDifficulty bc <= 64)%N ->
      forall fuel now txs, Blockchain.AddBlock json_Marshal fuel now txs bc <> Panics)
  /\ (Blockchain.GetDifficulty bc = 65%N ->
      forall fuel now txs, Blockchain.AddBlock json_Marshal (S fuel) now txs bc = Panics).
Proof.
  intros Hreach. destruct (reachable_invariant bc Hreach) as (Hlen & Hdiff & _).
  unfold Blockchain.GetDifficulty. split; [assumption|].
  destruct (lookup_lt_is_Some_2 (Blockchain.blocks bc)
              (List.length (Blockchain.blocks bc) - 1)%nat ltac:(lia)) as [tip Htip].
  split.
  - intros Hd fuel now txs. unfold Blockchain.AddBlock. rewrite Htip. cbv zeta.
    pose proof (mineLoop_in_bounds (Blockchain.difficulty bc) fuel
                  (Block.with_Header (BlockHeader.with_Difficulty (Blockchain.difficulty bc))
                     (Block.NewBlock now txs (BlockHeader.Hash (Block.Header tip))
                        (Int.add64 (BlockHeader.Height (Block.Header tip)) 1))) Hd) as Hloop.
    unfold Block.Mine.
    destruct (Block.mineLoop _ _ _) as [newBlock| |]; [|contradiction|discriminate].
    destruct (Block.Validate json_Marshal newBlock (Some tip)); [discriminate|].
    destruct (Blockchain.validateTransactions bc newBlock); discriminate.
  - intros Hd fuel now txs. unfold Blockchain.AddBlock. rewrite Htip. cbv zeta.
    unfold Block.Mine. rewrite mineLoop_out_of_range by lia. reflexivity.
Qed.

End Reached.

(** ** Lookups *)

(** The loops of the lookups are searches for the first match. *)
Lemma findBlock_find (hash : string) (blocks : list Block.t) :
  Blockchain.findBlock hash blocks
  = List.find (fun b => String.eqb (BlockHeader.Hash (Block.Header b)) hash) blocks.
Proof. induction blocks as [|b rest IH]; [reflexivity|]. simpl. now rewrite IH. Qed.

Lemma findTransaction_find (txID : string) (txs : list Transaction.t) :
  Blockchain.findTransaction txID txs
  = List.find (fun tx => String.eqb (Transaction.ID tx) txID) txs.
Proof. induction txs as [|tx rest IH]; [reflexivity|]. simpl. now rewrite IH. Qed.

Lemma find_app_found {A : Type} (f : A -> bool) (l l' : list A) (x : A) :
  List.find f l = Some x -> List.find f (l ++ l') = Some x.
Proof.
  induction l as [|y rest IH]; [discriminate|]. simpl. destruct (f y); auto.
Qed.

Lemma find_app_missing {A : Type} (f : A -> bool) (l l' : list A) :
  List.find f l = None -> List.find f (l ++ l') = List.find f l'.
Proof.
  induction l as [|y rest IH]; [reflexivity|]. simpl. destruct (f y); [discriminate | auto].
Qed.

Lemma findTransactionIn_find (txID : string) (blocks : list Block.t) :
  Blockchain.findTransactionIn txID blocks
  = List.find (fun tx => String.eqb (Transaction.ID tx) txID)
      (concat (map Block.Transactions blocks)).
Proof.
  induction blocks as [|b rest IH]; [reflexivity|]. cbn [Blockchain.findTransactionIn map concat].
  rewrite findTransaction_find, IH.
  destruct (List.find _ (Block.Transactions b)) as [tx|] eqn:E.
  - symmetry. now apply find_app_found.
  - symmetry. now apply find_app_missing.
Qed.

Lemma find_first_match {A : Type} (f : A -> bool) (l : list A) (x : A) :
  List.find f l = Some x
  <-> exists i, l !! i = Some x /\ f x = true
                /\ forall j y, (j < i)%nat -> l !! j = Some y -> f y = false.
Proof.
  induction l as [|y rest IH].
  - split; [discriminate|]. intros (i & Hi & _). now rewrite lookup_nil in Hi.
  - simpl. destruct (f y) eqn:Hy.
    + split.
      * intros [= <-]. exists 0%nat. split; [reflexivity|]. split; [assumption|]. lia.
      * intros ([|i] & Hi & Hx & Hmin).
        -- simpl in Hi. congruence.
        -- specialize (Hmin 0%nat y ltac:(lia) eq_refl). congruence.
    + rewrite IH. split.
      * intros (i & Hi & Hx & Hmin). exists (S i). split; [assumption|].
        split; [assumption|]. intros [|j] z Hj Hz.
        -- simpl in Hz. congruence.
        -- apply (Hmin j); [lia | assumption].
      * intros ([|i] & Hi & Hx & Hmin).
        -- simpl in Hi. congruence.
        -- exists i. split; [assumption|]. split; [assumption|].
           intros j z Hj Hz. apply (Hmin (S j)); [lia | assumption].
Qed.

Lemma find_no_match {A : Type} (f : A -> bool) (l : list A) :
  List.find f l = None <-> forall x, In x l -> f x = false.
Proof.
  split; [apply find_none|]. intros H.
  destruct (List.find f l) as [x|] eqn:E; [|reflexivity].
  apply find_some in E as [Hin Hx]. rewrite (H x Hin) in Hx. discriminate.
Qed.

Lemma find_first_key {A : Type} (key : A -> string) (k : string) (l : list A) (x : A) :
  List.find (fun y => String.eqb (key y) k) l = Some x
  <-> exists i, l !! i = Some x /\ key x = k
                /\ forall j y, (j < i)%nat -> l !! j = Some y -> key y <> k.
Proof.
  rewrite find_first_match. split; intros (i & Hi & Hx & Hmin); exists i;
    (split; [assumption|]); (split; [now apply String.eqb_eq|]);
    intros j y Hj Hy; apply String.eqb_neq; now apply (Hmin j).
Qed.

Lemma find_no_key {A : Type} (key : A -> string) (k : string) (l : list A) :
  List.find (fun y => String.eqb (key y) k) l = None
  <-> forall x, In x l -> key x <> k.
Proof.
  rewrite find_no_match. split; intros H x Hin; apply String.eqb_neq; now apply H.
Qed.

(** X12: [GetBlock] never panics: it returns the block stored at the height
    when the height lies between 0 and [GetHeight], and the error "block
    height out of range" otherwise.  [GetLatestBlock] returns what [GetBlock]
    returns for [GetHeight], and nil exactly on a chain without blocks. *)
Theorem GetBlock_range (bc : Blockchain.t) (height : Z) :
  ((0 <= height <= Blockchain.GetHeight bc)%Z ->
   exists b,
     Blockchain.GetBlock bc height = Returns (Some b, None)
     /\ Blockchain.GetAllBlocks bc !! Z.to_nat height = Some b)
  /\ (~ (0 <= height <= Blockchain.GetHeight bc)%Z ->
      Blockchain.GetBlock bc height = Returns (None, Some HeightOutOfRange))
  /\ (forall b,
        Blockchain.GetLatestBlock bc = Some b
        <-> Blockchain.GetBlock bc (Blockchain.GetHeight bc) = Returns (Some b, None))
  /\ (Blockchain.GetLatestBlock bc = None <-> Blockchain.GetHeight bc = (-1)%Z).
Proof.
  unfold Blockchain.GetBlock, Blockchain.GetHeight, Blockchain.GetLatestBlock,
    Blockchain.GetAllBlocks.
  split; [|split; [|split]].
  - intros Hrange.
    destruct (Z.ltb_spec height 0); [lia|].
    destruct (Z.leb_spec (Z.of_nat (List.length (Blockchain.blocks bc))) height); [lia|].
    cbn [orb].
    destruct (lookup_lt_is_Some_2 (Blockchain.blocks bc) (Z.to_nat height) ltac:(lia))
      as [b Hb].
    exists b. now rewrite Hb.
  - intros Hrange.
    destruct (Z.ltb_spec height 0); [reflexivity|].
    destruct (Z.leb_spec (Z.of_nat (List.length (Blockchain.blocks bc))) height);
      [reflexivity | lia].
  - intros b. destruct (Nat.eqb_spec (List.length (Blockchain.blocks bc)) 0) as [Hz|Hnz].
    + rewrite Hz. cbn. split; discriminate.
    + destruct (Z.ltb_spec (Z.of_nat (List.length (Blockchain.blocks bc)) - 1) 0); [lia|].
      destruct (Z.leb_spec (Z.of_nat (List.length (Blockchain.blocks bc)))
                  (Z.of_nat (List.length (Blockchain.blocks bc)) - 1)); [lia|].
      cbn [orb].
      replace (Z.to_nat (Z.of_nat (List.length (Blockchain.blocks bc)) - 1))
        with (List.length (Blockchain.blocks bc) - 1)%nat by lia.
      destruct (Blockchain.blocks bc !! (List.length (Blockchain.blocks bc) - 1)%nat)
        as [b'|]; split; congruence.
  - destruct (Nat.eqb_spec (List.length (Blockchain.blocks bc)) 0) as [Hz|Hnz].
    + rewrite Hz. split; reflexivity.
    + split; [|lia]. intros Hnone. apply lookup_ge_None in Hnone. lia.
Qed.

(** X13: [GetBlockByHash] returns the first block of the chain whose stored
    hash is the one asked for, and the error "block not found" exactly when
    no block of the chain stores that hash. *)
Theorem GetBlockByHash_first_match (bc : Blockchain.t) (hash : string) :
  (forall b,
     Blockchain.GetBlockByHash bc hash = (Some b, None)
     <-> exists i,
           Blockchain.blocks bc !! i = Some b
           /\ BlockHeader.Hash (Block.Header b) = hash
           /\ forall j b', (j < i)%nat -> Blockchain.blocks bc !! j = Some b' ->
                           BlockHeader.Hash (Block.Header b') <> hash)
  /\ (Blockchain.GetBlockByHash bc hash = (None, Some BlockNotFound)
      <-> forall b, In b (Blockchain.blocks bc) -> BlockHeader.Hash (Block.Header b) <> hash).
Proof.
  unfold Blockchain.GetBlockByHash. rewrite findBlock_find. split.
  - intros b.
    rewrite <- (find_first_key (fun b => BlockHeader.Hash (Block.Header b))).
    destruct (List.find _ (Blockchain.blocks bc)); split; congruence.
  - rewrite <- (find_no_key (fun b => BlockHeader.Hash (Block.Header b))).
    destruct (List.find _ (Blockchain.blocks bc)); split; congruence.
Qed.

(** X14: [GetTransactionByID] returns the first transaction with the id
    asked for, in the order of the blocks and, within a block, of its
    transactions; it returns the error "transaction not found" exactly when
    no transaction of any block has that id. *)
Theorem GetTransactionByID_first_match (bc : Blockchain.t) (txID : string) :
  (forall tx,
     Blockchain.GetTransactionByID bc txID = (Some tx, None)
     <-> exists i,
           concat (map Block.Transactions (Blockchain.blocks bc)) !! i = Some tx
           /\ Transaction.ID tx = txID
           /\ forall j tx', (j < i)%nat ->
                concat (map Block.Transactions (Blockchain.blocks bc)) !! j = Some tx' ->
                Transaction.ID tx' <> txID)
  /\ (Blockchain.GetTransactionByID bc txID = (None, Some TransactionNotFound)
      <-> forall b tx, In b (Blockchain.blocks bc) -> In tx (Block.Transactions b) ->
                       Transaction.ID tx <> txID).
Proof.
  unfold Blockchain.GetTransactionByID. rewrite findTransactionIn_find.
  set (all := concat (map Block.Transactions (Blockchain.blocks bc))). split.
  - intros tx. rewrite <- (find_first_key Transaction.ID).
    destruct (List.find _ all); split; congruence.
  - assert (Hall : (forall tx, In tx all -> Transaction.ID tx <> txID)
                   <-> forall b tx, In b (Blockchain.blocks bc) ->
                         In tx (Block.Transactions b) -> Transaction.ID tx <> txID).
    { subst all. split.
      - intros H b tx Hb Htx. apply H.
        apply in_concat. exists (Block.Transactions b). split; [|assumption].
        apply in_map_iff. now exists b.
      - intros H tx Hin. apply in_concat in Hin as (txs & Htxs & Htx).
        apply in_map_iff in Htxs as (b & <- & Hb). now apply (H b). }
    rewrite <- Hall, <- (find_no_key Transaction.ID).
    destruct (List.find _ all); split; congruence.
Qed.

Section LookupsAfterAppending.
Variable json_Marshal : Transaction.t -> string.

(** X15: after a successful [AddBlock] the height has grown by one and the
    latest block is a block carrying exactly the transactions passed, stamped
    with the clock reading and the difficulty of the chain; and every answer
    of [GetBlock], [GetBlockByHash] and [GetTransactionByID] that was a block
    or a transaction before the call is the same after it.  Each of the
    transactions passed can now be asked for by its id. *)
Theorem AddBlock_keeps_lookups (fuel : nat) (now : Z) (txs : list Transaction.t)
    (bc bc' : Blockchain.t) :
  Blockchain.AddBlock json_Marshal fuel now txs bc = Returns (None, bc') ->
  Blockchain.GetHeight bc' = (Blockchain.GetHeight bc + 1)%Z
  /\ (exists newBlock,
        Blockchain.GetLatestBlock bc' = Some newBlock
        /\ Blockchain.GetAllBlocks bc' = (Blockchain.GetAllBlocks bc ++ [newBlock])%list
        /\ Block.Transactions newBlock = txs
        /\ BlockHeader.Timestamp (Block.Header newBlock) = now
        /\ BlockHeader.Difficulty (Block.Header newBlock) = Blockchain.GetDifficulty bc)
  /\ (forall height b,
        Blockchain.GetBlock bc height = Returns (Some b, None) ->
        Blockchain.GetBlock bc' height = Returns (Some b, None))
  /\ (forall hash b,
        Blockchain.GetBlockByHash bc hash = (Some b, None) ->
        Blockchain.GetBlockByHash bc' hash = (Some b, None))
  /\ (forall txID tx,
        Blockchain.GetTransactionByID bc txID = (Some tx, None) ->
        Blockchain.GetTransactionByID bc' txID = (Some tx, None))
  /\ (forall tx,
        In tx txs ->
        exists tx',
          Blockchain.GetTransactionByID bc' (Transaction.ID tx) = (Some tx', None)
          /\ Transaction.ID tx' = Transaction.ID tx).
Proof.
  intros H. apply AddBlock_success in H as (tip & newBlock & Htip & Hmine & Hblocks & _).
  destruct (mined_block _ _ _ _ _ _ _ Hmine) as (Htxs & _ & _ & _ & _ & Htime & Hd & _).
  pose proof (lookup_lt_Some _ _ _ Htip) as Hlen.
  split; [|split; [|split; [|split; [|split]]]].
  - unfold Blockchain.GetHeight. rewrite Hblocks, length_app. simpl. lia.
  - exists newBlock. unfold Blockchain.GetLatestBlock, Blockchain.GetAllBlocks.
    rewrite Hblocks, length_app. cbn [List.length].
    destruct (Nat.eqb_spec (List.length (Blockchain.blocks bc) + 1) 0) as [Hz|_]; [lia|].
    split; [|auto].
    rewrite lookup_app_r by lia.
    now replace (List.length (Blockchain.blocks bc) + 1 - 1
                 - List.length (Blockchain.blocks bc))%nat with 0%nat by lia.
  - intros height b. unfold Blockchain.GetBlock. rewrite Hblocks, length_app. cbn [List.length].
    destruct (Z.ltb_spec height 0); [discriminate|].
    destruct (Z.leb_spec (Z.of_nat (List.length (Blockchain.blocks bc))) height);
      [discriminate|].
    destruct (Z.leb_spec (Z.of_nat (List.length (Blockchain.blocks bc) + 1)) height); [lia|].
    cbn [orb]. rewrite lookup_app_l by lia. auto.
  - intros hash b. unfold Blockchain.GetBlockByHash. rewrite Hblocks, !findBlock_find.
    destruct (List.find _ (Blockchain.blocks bc)) as [b'|] eqn:E; [|discriminate].
    intros [= <-]. now rewrite (find_app_found _ _ [newBlock] _ E).
  - intros txID tx. unfold Blockchain.GetTransactionByID.
    rewrite Hblocks, !findTransactionIn_find, map_app, concat_app.
    destruct (List.find _ (concat (map Block.Transactions (Blockchain.blocks bc))))
      as [tx'|] eqn:E; [|discriminate].
    intros [= <-]. now rewrite (find_app_found _ _ _ _ E).
  - intros tx Hin. unfold Blockchain.GetTransactionByID. rewrite findTransactionIn_find.
    destruct (List.find _ _) as [tx'|] eqn:E.
    + apply find_some in E as [_ E]. apply String.eqb_eq in E. eauto.
    + exfalso. apply find_none with (x := tx) in E.
      * rewrite String.eqb_refl in E. discriminate.
      * rewrite Hblocks, map_app, concat_app. apply in_or_app. right. simpl.
        rewrite app_nil_r. congruence.
Qed.

End LookupsAfterAppending.

(** ** What validation looks at *)

Section Validation.
Variable json_Marshal : Transaction.t -> string.

Lemma validateFrom_result (blocks : list Block.t) (remaining : nat) :
  forall i,
    (1 <= i)%nat ->
    (i + remaining <= List.length blocks)%nat ->
    (Blockchain.validateFrom json_Marshal blocks i remaining = Returns None
     /\ forall j, (i <= j < i + remaining)%nat -> valid_at json_Marshal blocks j)
    \/ exists k err currentBlock previousBlock,
         (i <= k < i + remaining)%nat
         /\ Blockchain.validateFrom json_Marshal blocks i remaining
            = Returns (Some (BlockInvalidAt k err))
         /\ blocks !! k = Some currentBlock
         /\ blocks !! (k - 1)%nat = Some previousBlock
         /\ Block.Validate json_Marshal currentBlock (Some previousBlock) = Some err
         /\ forall j, (i <= j < k)%nat -> valid_at json_Marshal blocks j.
Proof.
  induction remaining as [|remaining IH]; intros i Hi Hlen.
  - left. split; [reflexivity|]. intros j Hj. lia.
  - cbn [Blockchain.validateFrom].
    destruct (lookup_lt_is_Some_2 blocks i ltac:(lia)) as [c Hc].
    destruct (lookup_lt_is_Some_2 blocks (i - 1)%nat ltac:(lia)) as [p Hp].
    rewrite Hc, Hp.
    destruct (Block.Validate json_Marshal c (Some p)) as [err|] eqn:Hv.
    + right. exists i, err, c, p. repeat split; try assumption; lia.
    + assert (Hhere : valid_at json_Marshal blocks i) by (exists c, p; auto).
      destruct (IH (S i) ltac:(lia) ltac:(lia))
        as [[Hnone Hall]|(k & err & c' & p' & Hk & Hres & Hc' & Hp' & Hv' & Hbefore)].
      * left. split; [assumption|]. intros j Hj.
        destruct (Nat.eq_dec j i) as [->|Hne]; [assumption | apply Hall; lia].
      * right. exists k, err, c', p'. split; [lia|]. split; [assumption|].
        split; [assumption|]. split; [assumption|]. split; [assumption|].
        intros j Hj. destruct (Nat.eq_dec j i) as [->|Hne]; [assumption | apply Hbefore; lia].
Qed.

(** X16: [ValidateChain] never panics, whatever the chain state, and never
    looks at the block at index 0 on its own: it accepts exactly when every
    block after the first passes [Validate] against the block before it, and
    otherwise reports the first index whose block does not, with the error of
    that block. *)
Theorem ValidateChain_total (bc : Blockchain.t) :
  (Blockchain.ValidateChain json_Marshal bc = Returns None
   /\ forall j, (1 <= j < List.length (Blockchain.blocks bc))%nat ->
                valid_at json_Marshal (Blockchain.blocks bc) j)
  \/ exists i err currentBlock previousBlock,
       (1 <= i < List.length (Blockchain.blocks bc))%nat
       /\ Blockchain.ValidateChain json_Marshal bc = Returns (Some (BlockInvalidAt i err))
       /\ Blockchain.blocks bc !! i = Some currentBlock
       /\ Blockchain.blocks bc !! (i - 1)%nat = Some previousBlock
       /\ Block.Validate json_Marshal currentBlock (Some previousBlock) = Some err
       /\ forall j, (1 <= j < i)%nat -> valid_at json_Marshal (Blockchain.blocks bc) j.
Proof.
  unfold Blockchain.ValidateChain.
  destruct (Blockchain.blocks bc) as [|genesis rest] eqn:E.
  - left. split; [reflexivity|]. simpl. intros j Hj. lia.
  - destruct (validateFrom_result (genesis :: rest) (List.length (genesis :: rest) - 1) 1
                ltac:(lia) ltac:(simpl; lia))
      as [[Hnone Hall]|(k & err & c & p & Hk & Hres & Hc & Hp & Hv & Hbefore)].
    + left. split; [assumption|]. intros j Hj. apply Hall. simpl in *. lia.
    + right. exists k, err, c, p. split; [simpl in *; lia|]. auto.
Qed.

Lemma Validate_previous (b p p' : Block.t) :
  BlockHeader.Hash (Block.Header p') = BlockHeader.Hash (Block.Header p) ->
  BlockHeader.Height (Block.Header p') = BlockHeader.Height (Block.Header p) ->
  Block.Validate json_Marshal b (Some p') = Block.Validate json_Marshal b (Some p).
Proof.
  intros Hhash Hheight. unfold Block.Validate, Block.checkLinkage.
  now rewrite Hhash, Hheight.
Qed.

(** X17: of the block at index 0 [ValidateChain] reads the stored hash and
    the height only: replacing it by any block with the same two fields
    (other transactions, another merkle root, a hash that is not the one of
    its header) does not change the result. *)
Theorem ValidateChain_reads_two_fields_of_genesis (genesis genesis' : Block.t)
    (rest : list Block.t) (bc : Blockchain.t) :
  Blockchain.blocks bc = genesis :: rest ->
  BlockHeader.Hash (Block.Header genesis') = BlockHeader.Hash (Block.Header genesis) ->
  BlockHeader.Height (Block.Header genesis') = BlockHeader.Height (Block.Header genesis) ->
  Blockchain.ValidateChain json_Marshal (Blockchain.with_blocks (genesis' :: rest) bc)
  = Blockchain.ValidateChain json_Marshal bc.
Proof.
  intros Hblocks Hhash Hheight. unfold Blockchain.ValidateChain.
  cbn [Blockchain.blocks Blockchain.with_blocks]. rewrite Hblocks. cbn [List.length].
  generalize (S (List.length rest) - 1)%nat as remaining.
  assert (H : forall remaining i,
             (1 <= i)%nat ->
             Blockchain.validateFrom json_Marshal (genesis' :: rest) i remaining
             = Blockchain.validateFrom json_Marshal (genesis :: rest) i remaining).
  { induction remaining as [|remaining IH]; intros i Hi; [reflexivity|].
    cbn [Blockchain.validateFrom]. destruct i as [|[|i]]; [lia| |].
    - change ((genesis' :: rest) !! 1%nat) with (rest !! 0%nat).
      change ((genesis :: rest) !! 1%nat) with (rest !! 0%nat).
      change ((genesis' :: rest) !! (1 - 1)%nat) with (Some genesis').
      change ((genesis :: rest) !! (1 - 1)%nat) with (Some genesis).
      destruct (rest !! 0%nat) as [c|]; [|reflexivity].
      rewrite (Validate_previous c genesis genesis' Hhash Hheight).
      destruct (Block.Validate json_Marshal c (Some genesis)); [reflexivity|].
      apply IH. lia.
    - change ((genesis' :: rest) !! S (S i)) with (rest !! S i).
      change ((genesis :: rest) !! S (S i)) with (rest !! S i).
      change ((genesis' :: rest) !! (S (S i) - 1)%nat) with (rest !! i).
      change ((genesis :: rest) !! (S (S i) - 1)%nat) with (rest !! i).
      destruct (rest !! S i) as [c|]; [|reflexivity].
      destruct (rest !! i) as [p|]; [|reflexivity].
      destruct (Block.Validate json_Marshal c (Some p)); [reflexivity|].
      apply IH. lia. }
  intros remaining. apply H. lia.
Qed.

(** X18: [Block.Validate] checks no proof of work.  Of the header it reads
    the previous hash, the merkle root, the height and the stored hash: a
    block that passes still passes when its version, timestamp, difficulty
    and nonce are replaced by any values and the hash is computed again. *)
Theorem Validate_without_proof_of_work (b : Block.t) (p : option Block.t)
    (h : BlockHeader.t) :
  Block.Validate json_Marshal b p = None ->
  BlockHeader.PreviousHash h = BlockHeader.PreviousHash (Block.Header b) ->
  BlockHeader.MerkleRoot h = BlockHeader.MerkleRoot (Block.Header b) ->
  BlockHeader.Height h = BlockHeader.Height (Block.Header b) ->
  Block.Validate json_Marshal
    (Block.SetHash (Block.calculateHash (Block.mk h (Block.Transactions b)))
       (Block.mk h (Block.Transactions b))) p
  = None.
Proof.
  intros Hvalid Hprev Hroot Hheight.
  apply Validate_none_iff in Hvalid.
  destruct Hvalid as (_ & Hlink & Hmerkle & Hne & Hfirst & Hall & Hcount).
  apply Validate_none_iff. unfold spec_valid, Block.SetHash. cbv zeta.
  rewrite calculateHash_with_Hash.
  cbn [Block.with_Header Block.Header Block.Transactions BlockHeader.with_Hash
       BlockHeader.Hash BlockHeader.PreviousHash BlockHeader.MerkleRoot BlockHeader.Height].
  split; [reflexivity|]. split.
  { intros p' Hp. rewrite Hprev, Hheight. now apply Hlink. }
  split; [now rewrite Hroot, Hmerkle|]. auto.
Qed.

Lemma validateLoop_app (l1 l2 : list Transaction.t) :
  forall count,
    Block.validateLoop json_Marshal (l1 ++ l2) count
    = match Block.validateLoop json_Marshal l1 count with
      | inl err => inl err
      | inr count' => Block.validateLoop json_Marshal l2 count'
      end.
Proof.
  induction l1 as [|tx rest IH]; intros count; [reflexivity|]. simpl.
  destruct (Transaction.Validate json_Marshal tx); [reflexivity | apply IH].
Qed.

Lemma validateLoop_counts (txs : list Transaction.t) :
  forall count count',
    Block.validateLoop json_Marshal txs count = inr count' ->
    (count <= count')%Z
    /\ (forall first rest, txs = first :: rest -> Transaction.IsCoinbase first = true ->
          (count + 1 <= count')%Z).
Proof.
  induction txs as [|tx rest IH]; intros count count' H.
  - injection H as <-. split; [lia|]. discriminate.
  - simpl in H. destruct (Transaction.Validate json_Marshal tx); [discriminate|].
    apply IH in H as [Hle _]. split.
    + destruct (Transaction.IsCoinbase tx); lia.
    + intros first rest' [= <- <-] Hcb. rewrite Hcb in Hle. lia.
Qed.

End Validation.

Lemma spec_pair_level_duplicate (x : string) (n : nat) :
  forall leaves,
    List.length leaves = (2 * n)%nat ->
    spec_pair_level (leaves ++ [x; x]) = spec_pair_level (leaves ++ [x]).
Proof.
  induction n as [|n IH]; intros leaves Hlen.
  - destruct leaves; [reflexivity | discriminate].
  - destruct leaves as [|a [|b rest]]; try (simpl in Hlen; lia).
    cbn [app spec_pair_level]. f_equal. apply IH. simpl in Hlen. lia.
Qed.

(** X19: in a block with an odd number of transactions, three or more, the
    last transaction can be repeated without any effect on the merkle root,
    on the hash of the block or on the result of [Block.Validate]: the
    merkle builder pairs an unpaired last leaf with itself. *)
Theorem Validate_duplicated_last (json_Marshal : Transaction.t -> string)
    (b : Block.t) (p : option Block.t) (txs : list Transaction.t) (tx : Transaction.t) :
  Block.Transactions b = (txs ++ [tx])%list ->
  Nat.even (List.length txs) = true ->
  (2 <= List.length txs)%nat ->
  let b' := Block.mk (Block.Header b) (txs ++ [tx; tx]) in
  Block.calculateMerkleRoot b' = Block.calculateMerkleRoot b
  /\ Block.calculateHash b' = Block.calculateHash b
  /\ Block.Validate json_Marshal b' p = Block.Validate json_Marshal b p.
Proof.
  intros Htxs Heven Hlen b'.
  assert (Hroot : Block.calculateMerkleRoot b' = Block.calculateMerkleRoot b).
  { unfold Block.calculateMerkleRoot. subst b'. cbn [Block.Transactions]. rewrite Htxs.
    rewrite !length_app. cbn [List.length].
    destruct (Nat.eqb_spec (List.length txs + 2) 0) as [Hz|_]; [lia|].
    destruct (Nat.eqb_spec (List.length txs + 1) 0) as [Hz|_]; [lia|].
    rewrite !map_app. cbn [map].
    rewrite (buildMerkleTree_level (map Transaction.ID txs ++ [_; _]))
      by (rewrite length_app, length_map; simpl; lia).
    rewrite (buildMerkleTree_level (map Transaction.ID txs ++ [_]))
      by (rewrite length_app, length_map; simpl; lia).
    apply Nat.even_spec in Heven as [n Hn].
    now rewrite (spec_pair_level_duplicate _ n) by now rewrite length_map. }
  split; [assumption|]. split; [reflexivity|].
  unfold Block.Validate. cbv zeta. rewrite Hroot.
  change (Block.calculateHash b') with (Block.calculateHash b).
  subst b'. cbn [Block.Header Block.Transactions]. rewrite Htxs.
  change (Block.checkLinkage (Block.mk (Block.Header b) (txs ++ [tx; tx])) p)
    with (Block.checkLinkage b p).
  destruct (negb (String.eqb _ (Block.calculateHash b))); [reflexivity|].
  destruct (Block.checkLinkage b p); [reflexivity|].
  destruct (negb (String.eqb _ (Block.calculateMerkleRoot b))); [reflexivity|].
  destruct txs as [|first rest]; [simpl in Hlen; lia|]. cbn [app].
  destruct (Transaction.IsCoinbase first) eqn:Hfirst; [|reflexivity]. cbn [negb].
  change (first :: (rest ++ [tx; tx])%list) with ((first :: rest) ++ [tx; tx])%list.
  change (first :: (rest ++ [tx])%list) with ((first :: rest) ++ [tx])%list.
  rewrite !validateLoop_app.
  destruct (Block.validateLoop json_Marshal (first :: rest) 0) as [err|count] eqn:Hloop;
    [reflexivity|].
  destruct (validateLoop_counts json_Marshal _ _ _ Hloop) as [_ Hcount].
  specialize (Hcount first rest eq_refl Hfirst).
  cbn [Block.validateLoop].
  destruct (Transaction.Validate json_Marshal tx); [reflexivity|].
  destruct (Transaction.IsCoinbase tx); [|reflexivity].
  destruct (Z.eqb_spec (count + 1 + 1) 1); [lia|].
  destruct (Z.eqb_spec (count + 1) 1); [lia | reflexivity].
Qed.

(** ** Spending and crediting outputs *)

Lemma wrap64_repr (y : Z) : exists q, Int.wrap64 y = (y + q * 2 ^ 64)%Z.
Proof.
  exists (- ((y + 2 ^ 63) / 2 ^ 64))%Z. unfold Int.wrap64.
  rewrite Z.mod_eq by lia. lia.
Qed.

Lemma wrap64_shift (x q : Z) : Int.wrap64 (x + q * 2 ^ 64) = Int.wrap64 x.
Proof.
  unfold Int.wrap64. f_equal.
  replace (x + q * 2 ^ 64 + 2 ^ 63)%Z with (x + 2 ^ 63 + q * 2 ^ 64)%Z by lia.
  apply Z_mod_plus_full.
Qed.

Lemma wrap64_add_l (x y : Z) : Int.wrap64 (Int.wrap64 x + y) = Int.wrap64 (x + y).
Proof.
  destruct (wrap64_repr x) as [q ->].
  replace (x + q * 2 ^ 64 + y)%Z with (x + y + q * 2 ^ 64)%Z by lia. apply wrap64_shift.
Qed.

Lemma wrap64_add_r (x y : Z) : Int.wrap64 (x + Int.wrap64 y) = Int.wrap64 (x + y).
Proof. rewrite Z.add_comm, wrap64_add_l. f_equal. lia. Qed.

Lemma wrap64_sub_l (x y : Z) : Int.wrap64 (Int.wrap64 x - y) = Int.wrap64 (x - y).
Proof. apply (wrap64_add_l x (- y)). Qed.

Lemma wrap64_sub_r (x y : Z) : Int.wrap64 (x - Int.wrap64 y) = Int.wrap64 (x - y).
Proof.
  destruct (wrap64_repr y) as [q ->].
  replace (x - (y + q * 2 ^ 64))%Z with (x - y + - q * 2 ^ 64)%Z by lia. apply wrap64_shift.
Qed.

Lemma sum_values_app (l1 l2 : list TxOutput.t) :
  sum_values (l1 ++ l2) = (sum_values l1 + sum_values l2)%Z.
Proof.
  induction l1 as [|o rest IH]; [reflexivity|].
  change (sum_values ((o :: rest) ++ l2))
    with (TxOutput.Value o + sum_values (rest ++ l2))%Z.
  change (sum_values (o :: rest)) with (TxOutput.Value o + sum_values rest)%Z.
  rewrite IH. lia.
Qed.

(** The running [int64] sum is the mathematical sum, wrapped once. *)
Lemma balance_from_wrapped (utxos : list TxOutput.t) :
  forall balance,
    balance_from (Int.wrap64 balance) utxos = Int.wrap64 (balance + sum_values utxos).
Proof.
  induction utxos as [|o rest IH]; intros balance.
  - simpl. f_equal. lia.
  - unfold balance_from. cbn [fold_left]. fold (balance_from
      (Int.add64 (Int.wrap64 balance) (TxOutput.Value o)) rest).
    unfold Int.add64. rewrite wrap64_add_l, IH. f_equal.
    change (sum_values (o :: rest)) with (TxOutput.Value o + sum_values rest)%Z. lia.
Qed.

Lemma balance_from_sum (utxos : list TxOutput.t) :
  balance_from 0 utxos = Int.wrap64 (sum_values utxos).
Proof. apply (balance_from_wrapped utxos 0). Qed.

(** X20: what [updateUTXOSet] does to a bucket, for one transaction: the
    bucket of an address loses as many of its oldest outputs as the
    transaction has inputs whose public key is that address (whatever
    transaction id and output index the inputs name, and whatever the values
    involved), and then gains the outputs of the transaction addressed to
    it, in their order.  The transactions of a block are applied one after
    the other. *)
Theorem updateUTXOSet_buckets (bc : Blockchain.t) (h : BlockHeader.t) (tx : Transaction.t) :
  (forall address,
     Blockchain.FindUTXO (Blockchain.updateUTXOSet (Block.mk h [tx]) bc) address
     = (skipn (List.length
                 (List.filter (fun i => String.eqb (TxInput.PublicKey i) address)
                    (Transaction.Inputs tx)))
          (Blockchain.FindUTXO bc address)
        ++ List.filter (fun o => String.eqb (TxOutput.Address o) address)
             (Transaction.Outputs tx))%list)
  /\ (forall rest,
        Blockchain.updateUTXOSet (Block.mk h (tx :: rest)) bc
        = Blockchain.updateUTXOSet (Block.mk h rest)
            (Blockchain.updateUTXOSet (Block.mk h [tx]) bc)).
Proof.
  split; [|reflexivity].
  intros address. rewrite !FindUTXO_index. unfold Blockchain.updateUTXOSet.
  cbn [Blockchain.utxoSet Blockchain.with_utxoSet Block.Transactions fold_left].
  unfold Blockchain.applyTransaction. rewrite fold_addOutput_index. f_equal.
  unfold Transaction.IsCoinbase.
  destruct (Transaction.Inputs tx) as [|input rest] eqn:Hin; cbn [List.length Nat.eqb negb].
  - reflexivity.
  - apply fold_spendInput_buckets.
Qed.

Lemma fold_spendInput_index (from : string) (n : nat) :
  forall u,
    Blockchain.index
      (fold_left Blockchain.spendInput (repeat (TxInput.mk "" 0 from "") n) u) from
    = skipn n (Blockchain.index u from)
    /\ forall a, a <> from ->
         Blockchain.index
           (fold_left Blockchain.spendInput (repeat (TxInput.mk "" 0 from "") n) u) a
         = Blockchain.index u a.
Proof.
  induction n as [|n IH]; intros u.
  - split; reflexivity.
  - cbn [repeat fold_left].
    destruct (IH (Blockchain.spendInput u (TxInput.mk "" 0 from ""))) as [Hkey Hother].
    destruct (spendInput_index u (TxInput.mk "" 0 from "")) as [Hkey1 Hother1].
    cbn [TxInput.PublicKey] in Hkey1, Hother1. split.
    + rewrite Hkey, Hkey1. apply (drop_drop _ n 1).
    + intros a Ha. rewrite (Hother a Ha). now apply Hother1.
Qed.

(** X21: applying the transaction that [CreateTransaction] builds for a
    positive amount moves exactly that amount: in the index [updateUTXOSet]
    leaves, the balance of [from] is the old one minus the amount and the
    balance of [to] the old one plus the amount (both in [int64]
    arithmetic), and no other bucket has changed. *)
Theorem updateUTXOSet_transfers_amount (json_Marshal : Transaction.t -> string)
    (now : Z) (from to : string) (amount : Z) (bc : Blockchain.t) (tx : Transaction.t)
    (h : BlockHeader.t) :
  (0 < amount)%Z ->
  from <> to ->
  fst (Blockchain.CreateTransaction json_Marshal now from to amount bc) = (Some tx, None) ->
  let bc' := Blockchain.updateUTXOSet (Block.mk h [tx]) bc in
  Blockchain.GetBalance bc' from = Int.sub64 (Blockchain.GetBalance bc from) amount
  /\ Blockchain.GetBalance bc' to = Int.add64 (Blockchain.GetBalance bc to) amount
  /\ (forall a, a <> from -> a <> to ->
        Blockchain.FindUTXO bc' a = Blockchain.FindUTXO bc a).
Proof.
  intros Hamount Hne Hcreate bc'.
  revert Hcreate. unfold Blockchain.CreateTransaction. cbv zeta.
  destruct (collectInputs_prefix from amount (Blockchain.FindUTXO bc from) 0%Z [])
    as (n & Hn & -> & _ & _).
  set (bucket := Blockchain.FindUTXO bc from) in *.
  set (total := balance_from 0 (firstn n bucket)).
  destruct (Z.ltb_spec total amount) as [Hlt|Hge]; cbn [fst]; [discriminate|].
  intros [= Htx]. cbn [app] in Htx.
  assert (Hfind : forall a,
            Blockchain.FindUTXO bc' a
            = ((if decide (a = from) then skipn n bucket else Blockchain.FindUTXO bc a)
               ++ List.filter (fun o => String.eqb (TxOutput.Address o) a)
                    (TxOutput.mk amount to
                     :: (if (amount <? total)%Z
                         then [TxOutput.mk (Int.sub64 total amount) from] else [])))%list).
  { intros a. subst bc'. unfold Blockchain.updateUTXOSet. rewrite FindUTXO_index.
    cbn [Blockchain.utxoSet Blockchain.with_utxoSet Block.Transactions fold_left].
    unfold Blockchain.applyTransaction. rewrite <- Htx.
    unfold Transaction.NewTransaction, Transaction.with_ID, Transaction.IsCoinbase.
    cbn [Transaction.Inputs Transaction.Outputs]. rewrite repeat_length.
    assert (Hn1 : n <> 0%nat).
    { intros ->. subst total. simpl in Hge. lia. }
    destruct (Nat.eqb_spec n 0) as [Hz|_]; [contradiction|]. cbn [negb].
    rewrite fold_addOutput_index.
    destruct (fold_spendInput_index from n (Blockchain.utxoSet bc)) as [Hkey Hother].
    f_equal.
    - destruct (decide (a = from)) as [->|Ha].
      + rewrite Hkey. subst bucket. now rewrite FindUTXO_index.
      + rewrite (Hother a Ha). now rewrite FindUTXO_index.
    - now destruct (amount <? total)%Z. }
  split; [|split].
  - rewrite !GetBalance_FindUTXO, Hfind. fold bucket.
    destruct (decide (from = from)) as [_|]; [|contradiction].
    cbn [List.filter TxOutput.Address].
    destruct (String.eqb_spec to from) as [Heq|_]; [congruence|].
    assert (Hsplit : sum_values bucket
                     = (sum_values (firstn n bucket) + sum_values (skipn n bucket))%Z).
    { now rewrite <- sum_values_app, firstn_skipn. }
    unfold Int.sub64. rewrite !balance_from_sum, wrap64_sub_l, Hsplit.
    assert (Htotal : total = Int.wrap64 (sum_values (firstn n bucket)))
      by apply balance_from_sum.
    destruct (Z.ltb_spec amount total) as [Hmore|Hexact]; cbn [List.filter TxOutput.Address].
    + rewrite String.eqb_refl, sum_values_app. cbn [sum_values fold_right TxOutput.Value].
      unfold Int.sub64. rewrite Z.add_0_r, wrap64_add_r, Htotal.
      replace (sum_values (skipn n bucket) + (Int.wrap64 (sum_values (firstn n bucket)) - amount))%Z
        with (Int.wrap64 (sum_values (firstn n bucket))
              + (sum_values (skipn n bucket) - amount))%Z by lia.
      rewrite wrap64_add_l. f_equal. lia.
    + rewrite app_nil_r. assert (amount = total) by lia. subst amount.
      rewrite Htotal, wrap64_sub_r. f_equal. lia.
  - rewrite !GetBalance_FindUTXO, Hfind.
    destruct (decide (to = from)) as [Heq|_]; [congruence|].
    cbn [List.filter TxOutput.Address]. rewrite String.eqb_refl.
    assert (Hchange : List.filter (fun o => String.eqb (TxOutput.Address o) to)
                        (if (amount <? total)%Z
                         then [TxOutput.mk (Int.sub64 total amount) from] else []) = []).
    { destruct (amount <? total)%Z; [|reflexivity]. cbn [List.filter TxOutput.Address].
      destruct (String.eqb_spec from to); [contradiction | reflexivity]. }
    rewrite Hchange. apply balance_from_snoc.
  - intros a Hfrom Hto. rewrite Hfind.
    destruct (decide (a = from)) as [|_]; [contradiction|].
    cbn [List.filter TxOutput.Address].
    destruct (String.eqb_spec to a); [congruence|].
    destruct (amount <? total)%Z; cbn [List.filter TxOutput.Address];
      [destruct (String.eqb_spec from a); [congruence|]|]; apply app_nil_r.
Qed.

(** ** Transactions and the genesis block *)

Lemma checkOutputs_result (outputs : list TxOutput.t) :
  (Transaction.checkOutputs outputs = None
   <-> forall o, In o outputs -> (0 < TxOutput.Value o)%Z)
  /\ (Transaction.checkOutputs outputs = None
      \/ Transaction.checkOutputs outputs = Some NonPositiveOutput).
Proof.
  induction outputs as [|o rest [IH IH']]; simpl.
  - split; [|auto]. split; [contradiction | reflexivity].
  - destruct (Z.leb_spec (TxOutput.Value o) 0) as [Hle|Hpos].
    + split; [|auto]. split; [discriminate|]. intros H. specialize (H o (or_introl eq_refl)).
      lia.
    + split; [|assumption]. rewrite IH. split.
      * intros H o' [<-|Hin]; auto.
      * intros H o' Hin. apply H. auto.
Qed.

(** X22: [Transaction.Validate] accepts a transaction exactly when its
    stored id is the recomputed one and, for a coinbase, it has one output,
    for any other transaction, it has an output and all its output values are
    positive.  A wrong id is reported before anything else, and the error
    "transaction must have inputs" is never returned: a transaction without
    inputs is taken for a coinbase. *)
Theorem Transaction_Validate_characterised (json_Marshal : Transaction.t -> string)
    (tx : Transaction.t) :
  (Transaction.Validate json_Marshal tx = None
   <-> Transaction.ID tx = Transaction.calculateID json_Marshal tx
       /\ if Transaction.IsCoinbase tx
          then List.length (Transaction.Outputs tx) = 1%nat
          else Transaction.Outputs tx <> []
               /\ forall o, In o (Transaction.Outputs tx) -> (0 < TxOutput.Value o)%Z)
  /\ (Transaction.ID tx <> Transaction.calculateID json_Marshal tx
      <-> Transaction.Validate json_Marshal tx = Some InvalidTransactionID)
  /\ Transaction.Validate json_Marshal tx <> Some NoInputs.
Proof.
  destruct (String.eqb_spec (Transaction.ID tx) (Transaction.calculateID json_Marshal tx))
    as [Hid|Hid].
  - rewrite (Validate_under_matching_id _ _ Hid).
    destruct (checkOutputs_result (Transaction.Outputs tx)) as [Hcheck Hkind].
    destruct (Transaction.IsCoinbase tx).
    + destruct (Nat.eqb_spec (List.length (Transaction.Outputs tx)) 1) as [Hone|Hne];
        cbn [negb].
      * split; [tauto|]. split; [|discriminate]. split; [contradiction | discriminate].
      * split; [|split; [|discriminate]].
        -- split; [discriminate | tauto].
        -- split; [contradiction | discriminate].
    + destruct (Transaction.Outputs tx) as [|o rest] eqn:Houts; cbn [List.length Nat.eqb].
      * split; [|split; [|discriminate]].
        -- split; [discriminate|]. intros (_ & Hne & _). contradiction.
        -- split; [contradiction | discriminate].
      * split; [|split].
        -- rewrite Hcheck. split; [intros H; split; [assumption|]; split; [discriminate | assumption]|].
           intros (_ & _ & H). assumption.
        -- split; [contradiction|]. destruct Hkind as [-> | ->]; discriminate.
        -- destruct Hkind as [-> | ->]; discriminate.
  - assert (Hv : Transaction.Validate json_Marshal tx = Some InvalidTransactionID).
    { unfold Transaction.Validate. cbv zeta.
      destruct (String.eqb_spec (Transaction.ID tx)
                  (Transaction.calculateID json_Marshal tx)); [contradiction | reflexivity]. }
    rewrite Hv. split; [|split; [|discriminate]].
    + split; [discriminate|]. intros [H _]. contradiction.
    + split; auto.
Qed.

(** X23: the constructors store the recomputed id.  So a transaction built
    by [NewCoinbaseTransaction] always passes [Transaction.Validate],
    whatever the reward (zero or a negative one included), and one built by
    [NewTransaction] passes exactly when, without inputs, it has one output
    and, with inputs, it has an output and only positive output values. *)
Theorem constructors_store_recomputed_id (json_Marshal : Transaction.t -> string)
    (now : Z) :
  (forall toAddress reward,
     let tx := Transaction.NewCoinbaseTransaction json_Marshal now toAddress reward in
     Transaction.Validate json_Marshal tx = None
     /\ Transaction.IsCoinbase tx = true
     /\ Transaction.GetTotalOutput tx = Int.wrap64 reward)
  /\ (forall inputs outputs,
        let tx := Transaction.NewTransaction json_Marshal now inputs outputs in
        Transaction.ID tx = Transaction.calculateID json_Marshal tx
        /\ (Transaction.Validate json_Marshal tx = None
            <-> match inputs with
                | [] => List.length outputs = 1%nat
                | _ :: _ => outputs <> []
                            /\ forall o, In o outputs -> (0 < TxOutput.Value o)%Z
                end)).
Proof.
  split.
  - intros toAddress reward tx. split; [|split; reflexivity].
    subst tx. now rewrite Validate_under_matching_id.
  - intros inputs outputs tx. split; [reflexivity|].
    subst tx. rewrite Validate_under_matching_id by reflexivity.
    unfold Transaction.NewTransaction, Transaction.with_ID, Transaction.IsCoinbase.
    cbn [Transaction.Inputs Transaction.Outputs].
    destruct (checkOutputs_result outputs) as [Hcheck _].
    destruct inputs as [|i rest]; cbn [List.length Nat.eqb].
    + destruct (Nat.eqb_spec (List.length outputs) 1); cbn [negb]; split; congruence.
    + destruct outputs as [|o outs]; cbn [List.length Nat.eqb].
      * split; [discriminate|]. intros [H _]. contradiction.
      * rewrite Hcheck. split; [intros H; split; [discriminate | assumption]|]. tauto.
Qed.

(** X24: a new chain holds one block, at height 0, and has difficulty 4.
    The genesis block passes [Block.Validate] without a previous block,
    whatever the clock readings and the JSON encoding; its single coinbase
    is the only entry of the index: "genesis" owns 5000000000 and every other
    address nothing. *)
Theorem NewBlockchain_state (json_Marshal : Transaction.t -> string) (now_tx now : Z) :
  let bc := Blockchain.NewBlockchain json_Marshal now_tx now in
  let genesis := Block.NewGenesisBlock json_Marshal now_tx now in
  Blockchain.GetAllBlocks bc = [genesis]
  /\ Blockchain.GetHeight bc = 0%Z
  /\ Blockchain.GetDifficulty bc = 4%N
  /\ Blockchain.GetLatestBlock bc = Some genesis
  /\ Block.Validate json_Marshal genesis None = None
  /\ BlockHeader.Height (Block.Header genesis) = 0%Z
  /\ Blockchain.FindUTXO bc "genesis" = [TxOutput.mk 5000000000 "genesis"]
  /\ Blockchain.GetBalance bc "genesis" = 5000000000%Z
  /\ (forall address, address <> "genesis" ->
        Blockchain.FindUTXO bc address = [] /\ Blockchain.GetBalance bc address = 0%Z).
Proof.
  intros bc genesis.
  split; [reflexivity|]. split; [reflexivity|]. split; [reflexivity|].
  split; [reflexivity|]. split; [|split; [reflexivity|]].
  - apply Validate_none_iff. unfold spec_valid. cbv zeta.
    split; [reflexivity|]. split; [discriminate|]. split; [reflexivity|].
    split; [discriminate|]. split; [eexists _, _; split; reflexivity|].
    split; [|reflexivity].
    intros tx [<-|[]]. now rewrite Validate_under_matching_id.
  - assert (Hfind : forall a,
              Blockchain.FindUTXO bc a
              = if decide (a = "genesis") then [TxOutput.mk 5000000000 "genesis"] else []).
    { intros a. rewrite FindUTXO_index. subst bc.
      unfold Blockchain.NewBlockchain, Blockchain.updateUTXOSet.
      cbn [Blockchain.utxoSet Blockchain.with_utxoSet].
      change (Block.Transactions (Block.NewGenesisBlock json_Marshal now_tx now))
        with [Transaction.NewCoinbaseTransaction json_Marshal now_tx "genesis" 5000000000].
      cbn [fold_left]. unfold Blockchain.applyTransaction.
      change (Transaction.IsCoinbase
                (Transaction.NewCoinbaseTransaction json_Marshal now_tx "genesis" 5000000000))
        with true.
      change (Transaction.Outputs
                (Transaction.NewCoinbaseTransaction json_Marshal now_tx "genesis" 5000000000))
        with [TxOutput.mk 5000000000 "genesis"].
      cbn [negb fold_left]. rewrite index_addOutput. cbn [TxOutput.Address].
      unfold Blockchain.index. rewrite lookup_empty. reflexivity. }
    split; [|split].
    + rewrite Hfind. now destruct (decide _).
    + rewrite GetBalance_FindUTXO, Hfind. now destruct (decide _).
    + intros a Ha. rewrite GetBalance_FindUTXO, Hfind.
      destruct (decide _); [contradiction|]. split; reflexivity.
Qed.

(** ** The further properties on concrete chains *)

(** [Example.two] is what [AddBlock] makes of the fresh chain. *)
Ltac reached_two :=
  apply (reachable_add Json.Marshal Example.fresh Example.two 2 (Example.now + 71207)
           [Example.reward (Example.now + 71207) "miner1" 5000000000] None);
  [apply reachable_new | vm_compute; reflexivity].

Lemma AddBlock_fails_only_on_transactions_witness :
  well_formed Json.Marshal [Example.reward (Example.now + 71207) "miner1" 5000000000].
Proof.
  apply (AddBlock_fails_only_on_transactions Json.Marshal 2 (Example.now + 71207)
           [Example.reward (Example.now + 71207) "miner1" 5000000000]
           Example.fresh Example.two None).
  - vm_compute. reflexivity.
  - reflexivity.
Defined.

Lemma CreateTransaction_then_AddBlock_witness :
  fst (Blockchain.CreateTransaction Json.Marshal (Example.now + 5) "genesis" "bob" 100
         Example.fresh)
  = (Some Example.transfer, None)
  /\ Blockchain.AddBlock Json.Marshal 2 (Example.now + 12584) [Example.transfer] Example.fresh
     = Returns (Some (BlockValidationFailed FirstNotCoinbase), Example.fresh)
  /\ (Some (BlockValidationFailed FirstNotCoinbase) = None <-> 100%Z = 0%Z).
Proof.
  assert (Hcreate : fst (Blockchain.CreateTransaction Json.Marshal (Example.now + 5)
                           "genesis" "bob" 100 Example.fresh)
                    = (Some Example.transfer, None)).
  { vm_compute. reflexivity. }
  assert (Hadd : Blockchain.AddBlock Json.Marshal 2 (Example.now + 12584)
                   [Example.transfer] Example.fresh
                 = Returns (Some (BlockValidationFailed FirstNotCoinbase), Example.fresh)).
  { vm_compute. reflexivity. }
  split; [exact Hcreate|]. split; [exact Hadd|].
  apply (CreateTransaction_then_AddBlock Json.Marshal 2 (Example.now + 5)
           (Example.now + 12584) "genesis" "bob" 100 Example.fresh Example.fresh
           Example.transfer (Some (BlockValidationFailed FirstNotCoinbase)) Hcreate Hadd).
Defined.

Lemma CreateTransaction_builds_valid_spend_witness :
  Transaction.Validate Json.Marshal Example.transfer = None.
Proof.
  apply (CreateTransaction_builds_valid_spend Json.Marshal (Example.now + 5)
           "genesis" "bob" 100 Example.fresh Example.transfer).
  - lia.
  - vm_compute. reflexivity.
Defined.

Lemma CreateTransaction_without_amount_witness :
  exists tx,
    fst (Blockchain.CreateTransaction Json.Marshal Example.now "nobody" "bob" 0 Example.fresh)
    = (Some tx, None)
    /\ Transaction.Inputs tx = []
    /\ Transaction.IsCoinbase tx = true
    /\ (Transaction.Validate Json.Marshal tx = None <-> 0%Z = 0%Z).
Proof.
  apply (CreateTransaction_without_amount Json.Marshal Example.now "nobody" "bob" 0
           Example.fresh).
  lia.
Defined.

Lemma updateUTXOSet_keeps_index_well_formed_witness :
  utxo_ok (Blockchain.utxoSet Example.two).
Proof.
  apply (updateUTXOSet_keeps_index_well_formed Json.Marshal Example.two). reached_two.
Defined.

Lemma AddBlock_credits_coinbase_witness :
  exists o,
    Transaction.Outputs (Example.reward (Example.now + 71207) "miner1" 5000000000) = [o]
    /\ Blockchain.GetBalance Example.two (TxOutput.Address o)
       = Int.add64 (Blockchain.GetBalance Example.fresh (TxOutput.Address o))
           (TxOutput.Value o).
Proof.
  destruct (AddBlock_credits_coinbase Json.Marshal 2 (Example.now + 71207)
              (Example.reward (Example.now + 71207) "miner1" 5000000000)
              Example.fresh Example.two)
    as (o & _ & Houts & _ & Hbalance & _).
  - vm_compute. reflexivity.
  - exists o. split; assumption.
Defined.

Lemma reachable_chain_validates_witness :
  Blockchain.ValidateChain Json.Marshal Example.two = Returns None.
Proof. apply (reachable_chain_validates Json.Marshal Example.two). reached_two. Defined.

Lemma reachable_heights_witness :
  BlockHeader.Height (Block.Header Example.mined)
  = Int.wrap64 (Blockchain.GetHeight Example.two).
Proof.
  apply (reachable_heights Json.Marshal Example.two).
  - reached_two.
  - vm_compute. reflexivity.
Defined.

Lemma reachable_proof_of_work_witness : proof_of_work Example.mined.
Proof.
  apply (reachable_proof_of_work Json.Marshal Example.two 1 Example.mined).
  - reached_two.
  - lia.
  - vm_compute. reflexivity.
Defined.

Lemma reachable_difficulty_witness :
  (1 <= Blockchain.GetDifficulty Example.two <= 65)%N.
Proof. apply (reachable_difficulty Json.Marshal Example.two). reached_two. Defined.

Lemma AddBlock_keeps_lookups_witness :
  Blockchain.GetHeight Example.two = (Blockchain.GetHeight Example.fresh + 1)%Z.
Proof.
  apply (AddBlock_keeps_lookups Json.Marshal 2 (Example.now + 71207)
           [Example.reward (Example.now + 71207) "miner1" 5000000000]
           Example.fresh Example.two).
  vm_compute. reflexivity.
Defined.

Lemma ValidateChain_reads_two_fields_of_genesis_witness :
  Blockchain.ValidateChain Json.Marshal
    (Blockchain.with_blocks [Block.mk (Block.Header (Example.stamped 1000)) [Example.spend_zero];
                             Example.mined]
       (Blockchain.mk [Example.stamped 1000; Example.mined] 4 ∅))
  = Blockchain.ValidateChain Json.Marshal
      (Blockchain.mk [Example.stamped 1000; Example.mined] 4 ∅).
Proof.
  apply (ValidateChain_reads_two_fields_of_genesis Json.Marshal (Example.stamped 1000)
           (Block.mk (Block.Header (Example.stamped 1000)) [Example.spend_zero])
           [Example.mined] (Blockchain.mk [Example.stamped 1000; Example.mined] 4 ∅));
    reflexivity.
Defined.

Lemma Validate_without_proof_of_work_witness :
  let genesis := Block.NewGenesisBlock Json.Marshal Example.now Example.now in
  let h := BlockHeader.mk 2 (BlockHeader.PreviousHash (Block.Header genesis))
             (BlockHeader.MerkleRoot (Block.Header genesis)) 0 60 7 "" 0 in
  Block.Validate Json.Marshal
    (Block.SetHash (Block.calculateHash (Block.mk h (Block.Transactions genesis)))
       (Block.mk h (Block.Transactions genesis))) None
  = None.
Proof.
  intros genesis h. apply (Validate_without_proof_of_work Json.Marshal genesis None h).
  - vm_compute. reflexivity.
  - reflexivity.
  - reflexivity.
  - reflexivity.
Defined.

Lemma Validate_duplicated_last_witness :
  let b := Block.mk (Block.Header Example.unmined)
             [Example.reward Example.now "miner1" 50; Example.transfer; Example.spend_zero] in
  let b' := Block.mk (Block.Header Example.unmined)
              [Example.reward Example.now "miner1" 50; Example.transfer; Example.spend_zero;
               Example.spend_zero] in
  Block.Validate Json.Marshal b' None = Block.Validate Json.Marshal b None.
Proof.
  intros b b'.
  apply (Validate_duplicated_last Json.Marshal b None
           [Example.reward Example.now "miner1" 50; Example.transfer] Example.spend_zero).
  - reflexivity.
  - reflexivity.
  - simpl. lia.
Defined.

Lemma updateUTXOSet_transfers_amount_witness :
  Blockchain.GetBalance
    (Blockchain.updateUTXOSet
       (Block.mk (Block.Header Example.unmined) [Example.transfer]) Example.fresh) "genesis"
  = Int.sub64 (Blockchain.GetBalance Example.fresh "genesis") 100.
Proof.
  apply (updateUTXOSet_transfers_amount Json.Marshal (Example.now + 5) "genesis" "bob" 100
           Example.fresh Example.transfer (Block.Header Example.unmined)).
  - lia.
  - discriminate.
  - vm_compute. reflexivity.
Defined.
